(** * Sandamile: the Bible planner's state, persistence and progress code

    A shallow embedding of [src/scripts/bible-planner.js] (storage manager,
    analytics manager, planner state and reading identifiers) and of the
    form auto-save class of the marketing site, with the properties that
    the specification states about them; then of the code around these:
    the messages of the planner, swipes, export and import of the progress,
    [debounce] and [throttle], the form validator and the page helpers of
    the site, with properties read off that code. *)

From Stdlib Require Import ZArith Floats Ascii String DecimalN DecimalFacts.
From stdpp Require Import base gmap strings list.

Local Open Scope Z_scope.
Local Open Scope string_scope.
Local Open Scope list_scope.
Local Set Warnings "-register-all".

(** ** JavaScript values *)

(** The values the modelled code stores and passes around: JSON data plus
    [undefined]. Numbers in this data are integers; the planner's state holds
    none at all. An object is the list of its own enumerable properties in
    enumeration order. *)
Inductive value : Type :=
  | VUndefined
  | VNull
  | VBool (b : bool)
  | VNum (n : Z)
  | VStr (s : string)
  | VArr (items : list value)
  | VObj (props : list (string * value)).

(** Induction on values, with the hypothesis for the items of an array and
  for the property values of an object. *)
Section value_induction.
Variable P : value → Prop.
Hypothesis Hundef : P VUndefined.
Hypothesis Hnull : P VNull.
Hypothesis Hbool : ∀ b, P (VBool b).
Hypothesis Hnum : ∀ n, P (VNum n).
Hypothesis Hstr : ∀ s, P (VStr s).
Hypothesis Harr : ∀ l, Forall P l → P (VArr l).
Hypothesis Hobj : ∀ o, Forall P o.*2 → P (VObj o).

Fixpoint value_nested_ind (v : value) : P v :=
  match v with
  | VUndefined => Hundef
  | VNull => Hnull
  | VBool b => Hbool b
  | VNum n => Hnum n
  | VStr s => Hstr s
  | VArr l =>
      Harr l ((fix items (l : list value) : Forall P l :=
                 match l with
                 | [] => Forall_nil_2 P
                 | x :: r => Forall_cons_2 P x r (value_nested_ind x) (items r)
                 end) l)
  | VObj o =>
      Hobj o ((fix members (o : list (string * value)) : Forall P o.*2 :=
                 match o with
                 | [] => Forall_nil_2 P
                 | (k, x) :: r =>
                     Forall_cons_2 P x r.*2 (value_nested_ind x) (members r)
                 end) o)
  end.
End value_induction.

(** [Boolean(v)], the test of [if (v)], [!v] and [filter(Boolean)]. *)
Definition truthy (v : value) : bool :=
  match v with
  | VUndefined | VNull => false
  | VBool b => b
  | VNum n => negb (Z.eqb n 0)
  | VStr s => negb (String.eqb s "")
  | VArr _ | VObj _ => true
  end.

Definition is_undefined (v : value) : bool :=
  match v with VUndefined => true | _ => false end.

(** [o[k]] on the own properties of an object. *)
Fixpoint obj_get (o : list (string * value)) (k : string) : option value :=
  match o with
  | [] => None
  | (k', v) :: r => if String.eqb k k' then Some v else obj_get r k
  end.

(** Defining the own data property [k]: an existing property keeps its
    place, a new one goes last. (An engine lists names that are array
    indices before the others; the field names of the state and the reading
    identifiers are not such names.) *)
Fixpoint obj_set (o : list (string * value)) (k : string) (v : value)
  : list (string * value) :=
  match o with
  | [] => [(k, v)]
  | (k', v') :: r =>
      if String.eqb k k' then (k, v) :: r else (k', v') :: obj_set r k v
  end.

Definition obj_keys (o : list (string * value)) : list string := o.*1.

(** An object has each property name once. *)
Definition wf_object (o : list (string * value)) : Prop := NoDup (obj_keys o).

(** The decimal text of an integer, as a template literal and
    [JSON.stringify] print it. *)
Fixpoint uint_chars (u : Decimal.uint) : list ascii :=
  match u with
  | Decimal.Nil => []
  | Decimal.D0 u => "0"%char :: uint_chars u
  | Decimal.D1 u => "1"%char :: uint_chars u
  | Decimal.D2 u => "2"%char :: uint_chars u
  | Decimal.D3 u => "3"%char :: uint_chars u
  | Decimal.D4 u => "4"%char :: uint_chars u
  | Decimal.D5 u => "5"%char :: uint_chars u
  | Decimal.D6 u => "6"%char :: uint_chars u
  | Decimal.D7 u => "7"%char :: uint_chars u
  | Decimal.D8 u => "8"%char :: uint_chars u
  | Decimal.D9 u => "9"%char :: uint_chars u
  end.

Definition number_chars (n : Z) : list ascii :=
  if Z.ltb n 0 then "-"%char :: uint_chars (N.to_uint (Z.to_N (- n)))
  else uint_chars (N.to_uint (Z.to_N n)).

Definition number_to_string (n : Z) : string :=
  string_of_list_ascii (number_chars n).

Definition digit_char (c : ascii) : option (Decimal.uint → Decimal.uint) :=
  if Ascii.eqb c "0" then Some Decimal.D0
  else if Ascii.eqb c "1" then Some Decimal.D1
  else if Ascii.eqb c "2" then Some Decimal.D2
  else if Ascii.eqb c "3" then Some Decimal.D3
  else if Ascii.eqb c "4" then Some Decimal.D4
  else if Ascii.eqb c "5" then Some Decimal.D5
  else if Ascii.eqb c "6" then Some Decimal.D6
  else if Ascii.eqb c "7" then Some Decimal.D7
  else if Ascii.eqb c "8" then Some Decimal.D8
  else if Ascii.eqb c "9" then Some Decimal.D9
  else None.

(** The longest run of digits at the head of a text. *)
Fixpoint read_uint (s : list ascii) : Decimal.uint * list ascii :=
  match s with
  | c :: r =>
      match digit_char c with
      | Some d => let '(u, r') := read_uint r in (d u, r')
      | None => (Decimal.Nil, s)
      end
  | [] => (Decimal.Nil, [])
  end.

Definition chars_of (s : string) : list value :=
  (fun c => VStr (String c EmptyString)) <$> String.list_ascii_of_string s.

Definition indexed (l : list value) : list (string * value) :=
  imap (fun i v => (number_to_string (Z.of_nat i), v)) l.

(** The own enumerable properties that an object spread [...v] copies:
    those of an object, the elements of an array and the characters of a
    string under their indices, nothing for the other primitives. *)
Definition own_props (v : value) : list (string * value) :=
  match v with
  | VObj o => o
  | VArr l => indexed l
  | VStr s => indexed (chars_of s)
  | _ => []
  end.

Definition obj_assign (o src : list (string * value)) : list (string * value) :=
  foldl (fun acc kv => obj_set acc kv.1 kv.2) o src.

(** The object literal [{ ...a, ...b }]. *)
Definition spread (a b : value) : value :=
  VObj (obj_assign (own_props a) (own_props b)).

(** ** Plain objects used as dictionaries *)

(** [this.memoryStorage = {}] is an ordinary object: besides its own
    properties it has a prototype, [Object.prototype] at first, through which
    reads of names it does not own are answered and on which the accessor
    [__proto__] lives. *)
Inductive prototype : Type :=
  | ProtoObject
  | ProtoNull
  | ProtoValue (v : value).

Record plain_object : Type := {
  own : gmap string value;
  proto : prototype
}.

(** What a property read can yield: a data value, or one of the built-in
    objects of the engine, named by its path. *)
Inductive js_result : Type :=
  | Val (v : value)
  | Builtin (name : string).

Definition result_truthy (r : js_result) : bool :=
  match r with Val v => truthy v | Builtin _ => true end.

Definition empty_object : plain_object := {| own := ∅; proto := ProtoObject |}.

(** The data properties of [Object.prototype] and of [Array.prototype]. *)
Definition Object_prototype_names : list string :=
  ["constructor"; "__defineGetter__"; "__defineSetter__"; "hasOwnProperty";
   "__lookupGetter__"; "__lookupSetter__"; "isPrototypeOf";
   "propertyIsEnumerable"; "toString"; "valueOf"; "toLocaleString"].

Definition Array_prototype_names : list string :=
  ["length"; "constructor"; "at"; "concat"; "copyWithin"; "fill"; "find";
   "findIndex"; "findLast"; "findLastIndex"; "lastIndexOf"; "pop"; "push";
   "reverse"; "shift"; "unshift"; "slice"; "sort"; "splice"; "includes";
   "indexOf"; "join"; "keys"; "entries"; "values"; "forEach"; "filter";
   "flat"; "flatMap"; "map"; "every"; "some"; "reduce"; "reduceRight";
   "toLocaleString"; "toString"; "toReversed"; "toSorted"; "toSpliced";
   "with"].

(** The own properties of a value that serves as a prototype, the
    non-enumerable [length] of an array included. *)
Definition own_get (v : value) (k : string) : option value :=
  match v with
  | VObj o => obj_get o k
  | VArr l =>
      if String.eqb k "length" then Some (VNum (Z.of_nat (length l)))
      else obj_get (indexed l) k
  | _ => None
  end.

Definition is_array (v : value) : bool :=
  match v with VArr _ => true | _ => false end.

(** A read that reaches [Object.prototype]: the getter of [__proto__]
    answers with the prototype of the object the read started from. *)
Definition Object_prototype_get (receiver_proto : js_result) (k : string)
  : js_result :=
  if String.eqb k "__proto__" then receiver_proto
  else if bool_decide (k ∈ Object_prototype_names)
       then Builtin ("Object.prototype." +:+ k)
       else Val VUndefined.

Definition proto_get (p : prototype) (k : string) : js_result :=
  match p with
  | ProtoNull => Val VUndefined
  | ProtoObject => Object_prototype_get (Builtin "Object.prototype") k
  | ProtoValue v =>
      match own_get v k with
      | Some x => Val x
      | None =>
          if is_array v && bool_decide (k ∈ Array_prototype_names)
          then Builtin ("Array.prototype." +:+ k)
          else Object_prototype_get (Val v) k
      end
  end.

(** [o[k]] *)
Definition object_get (o : plain_object) (k : string) : js_result :=
  match own o !! k with
  | Some v => Val v
  | None => proto_get (proto o) k
  end.

(** Whether an assignment to [__proto__] finds the accessor of
    [Object.prototype] rather than a data property on the way. *)
Definition accessor_reachable (p : prototype) : bool :=
  match p with
  | ProtoObject => true
  | ProtoNull => false
  | ProtoValue v => bool_decide (own_get v "__proto__" = None)
  end.

(** [o[k] = x]. Every name but [__proto__] becomes (or stays) an own
    property. [__proto__], unless owned or shadowed, runs the setter: an
    object or [null] replaces the prototype, any other value is dropped. *)
Definition object_set (o : plain_object) (k : string) (x : value)
  : plain_object :=
  if String.eqb k "__proto__" && bool_decide (own o !! k = None)
     && accessor_reachable (proto o)
  then match x with
       | VObj _ | VArr _ => {| own := own o; proto := ProtoValue x |}
       | VNull => {| own := own o; proto := ProtoNull |}
       | _ => o
       end
  else {| own := <[k := x]> (own o); proto := proto o |}.

(** [delete o[k]] *)
Definition object_delete (o : plain_object) (k : string) : plain_object :=
  {| own := delete k (own o); proto := proto o |}.

(** Reads and writes on an object literal, whose prototype is
    [Object.prototype]: [o[k]] looks past the own properties, and
    [o[k] = x] with [k = "__proto__"] only ever touches the prototype. *)
Definition props_read (o : list (string * value)) (k : string) : js_result :=
  match obj_get o k with
  | Some v => Val v
  | None => proto_get ProtoObject k
  end.

Definition props_write (o : list (string * value)) (k : string) (x : value)
  : list (string * value) :=
  if String.eqb k "__proto__" && bool_decide (obj_get o k = None) then o
  else obj_set o k x.

(** [typeof v === 'object'] *)
Definition typeof_object (v : value) : bool :=
  match v with
  | VNull | VArr _ | VObj _ => true
  | _ => false
  end.

(** ** Numbers *)

(** The double nearest to an integer; exact below 2^53, far above any
    count the planner handles. *)
Definition number_of_Z (n : Z) : float :=
  if Z.ltb n 0 then PrimFloat.opp (PrimFloat.of_uint63 (Uint63.of_Z (- n)))
  else PrimFloat.of_uint63 (Uint63.of_Z n).

(** [Math.round]: the integer nearest to [x], a tie going up; written with
    the exact value [m * 2^e] of the double, it is [floor (x + 1/2)]. *)
Definition Math_round (x : float) : float :=
  match Prim2SF x with
  | S754_finite s m e =>
      if Z.leb 0 e then x
      else
        let num := if s then Z.neg m else Z.pos m in
        let n := (2 * num + 2 ^ (- e)) / 2 ^ (1 - e) in
        if Z.eqb n 0 then (if s then PrimFloat.opp PrimFloat.zero
                           else PrimFloat.zero)
        else number_of_Z n
  | _ => x
  end.


(** ** The platform interfaces *)

(** [JSON.stringify] answers [undefined] for some values ([None]);
    [JSON.parse] throws on text that is not JSON ([None]). *)
Class JSON : Type := {
  JSON_stringify : value → option string;
  JSON_parse : string → option value
}.

(** [window.storage], the host's key-value store of strings. A call either
    resolves with a record or resolves with [null] or rejects: [storage_get]
    gives the [value] field of the record found, [storage_set] says whether
    the answer was a record. *)
Class WindowStorage : Type := {
  native_store : Type;
  storage_get : native_store → string → option string;
  storage_set : native_store → string → option string → native_store * bool;
  storage_delete : native_store → string → native_store
}.

(** [String.prototype.localeCompare] of the host's locale. *)
Class Locale : Type := {
  localeCompare : string → string → Z
}.

(** Values that JSON text represents: no [undefined], integers within the
    exact range of a double, objects with distinct property names. *)
Inductive json_representable : value → Prop :=
  | jr_null : json_representable VNull
  | jr_bool b : json_representable (VBool b)
  | jr_num n : - 2 ^ 53 < n < 2 ^ 53 → json_representable (VNum n)
  | jr_str s : json_representable (VStr s)
  | jr_arr l : Forall json_representable l → json_representable (VArr l)
  | jr_obj o :
      wf_object o → Forall json_representable o.*2 →
      json_representable (VObj o).

(** What the code relies on from the platform. *)
Definition JSON_roundtrip `{JSON} : Prop :=
  ∀ v, json_representable v →
       ∃ s, JSON_stringify v = Some s ∧ JSON_parse s = Some v.

Definition storage_keeps `{WindowStorage} : Prop :=
  ∀ st k data st',
    storage_set st k (Some data) = (st', true) →
    storage_get st' k = Some data.

(** ** StorageManager *)

Record StorageManager : Type := {
  useNativeStorage : bool;
  memoryStorage : plain_object
}.

Section Storage.
Context `{Js : !JSON, Ws : !WindowStorage}.

(** [new StorageManager()]; [win] is [window.storage], if the host
    defines it. *)
Definition StorageManager_new (win : option native_store) : StorageManager :=
  {| useNativeStorage := bool_decide (is_Some win);
     memoryStorage := empty_object |}.

(** [get(key, defaultValue)]: every failure of the native path (no
    store, no record, text that does not parse) ends in the default. *)
Definition StorageManager_get (win : option native_store)
    (sm : StorageManager) (key : string) (defaultValue : value) : js_result :=
  if useNativeStorage sm then
    match win with
    | Some st =>
        match storage_get st key with
        | Some text =>
            match JSON_parse text with
            | Some v => Val v
            | None => Val defaultValue
            end
        | None => Val defaultValue
        end
    | None => Val defaultValue
    end
  else
    match object_get (memoryStorage sm) key with
    | Val VUndefined => Val defaultValue
    | r => r
    end.

(** [set(key, value)]: the new host store, the new manager and the
    boolean returned. *)
Definition StorageManager_set (win : option native_store)
    (sm : StorageManager) (key : string) (v : value)
  : option native_store * StorageManager * bool :=
  let data := JSON_stringify v in
  if useNativeStorage sm then
    match win with
    | Some st =>
        let '(st', ok) := storage_set st key data in (Some st', sm, ok)
    | None => (None, sm, false)
    end
  else
    (win,
     {| useNativeStorage := useNativeStorage sm;
        memoryStorage := object_set (memoryStorage sm) key v |},
     true).

(** [delete(key)] *)
Definition StorageManager_delete (win : option native_store)
    (sm : StorageManager) (key : string)
  : option native_store * StorageManager * bool :=
  if useNativeStorage sm then
    match win with
    | Some st => (Some (storage_delete st key), sm, true)
    | None => (None, sm, false)
    end
  else
    (win,
     {| useNativeStorage := useNativeStorage sm;
        memoryStorage := object_delete (memoryStorage sm) key |},
     true).
End Storage.

(** ** AnalyticsManager *)

Record ProgressInsights : Type := {
  percentComplete : float;
  readingsCompleted : Z;
  readingsRemaining : Z;
  currentStreak : Z;
  totalReadings : Z
}.

(** [Object.entries(v)] and [Object.values(v)] throw on [null] and
    [undefined]. *)
Definition Object_entries (v : value) : option (list (string * value)) :=
  match v with
  | VUndefined | VNull => None
  | _ => Some (own_props v)
  end.

Definition Object_values (v : value) : option (list value) :=
  (fun es => es.*2) <$> Object_entries v.

Section Analytics.
Context `{Lc : !Locale}.

(** [Array.prototype.sort] with a comparator, as an insertion sort. *)
Fixpoint sort_insert {A} (cmp : A → A → Z) (x : A) (l : list A) : list A :=
  match l with
  | [] => [x]
  | y :: r => if Z.leb (cmp x y) 0 then x :: y :: r
              else y :: sort_insert cmp x r
  end.

Definition Array_sort {A} (cmp : A → A → Z) (l : list A) : list A :=
  foldr (sort_insert cmp) [] l.

Definition calculateStreak (completedReadings : value) : option Z :=
  entries ← Object_entries completedReadings;
  let sortedReadings :=
    Array_sort (fun a b => localeCompare b.1 a.1)
               (filter (fun e => truthy e.2 = true) entries) in
  let n := Z.of_nat (length sortedReadings) in
  Some (if Z.ltb 0 n then Z.min n 30 else 0).

Definition getProgressInsights (completedReadings : value) (total : Z)
  : option ProgressInsights :=
  values ← Object_values completedReadings;
  let completed := Z.of_nat (length (filter (fun v => truthy v = true) values)) in
  let percentage :=
    Math_round (PrimFloat.mul
                  (PrimFloat.div (number_of_Z completed) (number_of_Z total))
                  (number_of_Z 100)) in
  streak ← calculateStreak completedReadings;
  Some {| percentComplete := percentage;
          readingsCompleted := completed;
          readingsRemaining := total - completed;
          currentStreak := streak;
          totalReadings := total |}.
End Analytics.

(** ** Content data *)

(** The records of the content tables. The fields that only the HTML of an
    expanded card prints (study questions, memory verses, applications,
    objectives, activities, discussion questions) are left out. *)
Module Month.
Record t : Type := mk {
  id : string; name : string; days : Z; gregorian : string; season : string
}.
End Month.

Module HolyDay.
Record t : Type := mk {
  month : string; day : Z; name : string; date : string; description : string
}.
End HolyDay.

Module MinistryEvent.
Record t : Type := mk {
  month : string; day : Z; name : string; date : string; type : string;
  description : string
}.
End MinistryEvent.

Module Week.
Record t : Type := mk {
  week : Z; focus : string; readings : string; keyThemes : string
}.
End Week.

Module MonthPlan.
Record t : Type := mk {
  weeks : Z; reading : string; theme : string; weeklyBreakdown : list Week.t
}.
End MonthPlan.

Module NTDay.
Record t : Type := mk {
  day : Z; reading : string; focus : string; chapters : Z
}.
End NTDay.

Module NTSection.
Record t : Type := mk {
  days : string; reading : string; focus : string;
  dailyBreakdown : list NTDay.t
}.
End NTSection.

Module DiscipleshipWeek.
Record t : Type := mk {
  week : Z; topic : string; key : string
}.
End DiscipleshipWeek.

(** [initializeMonthsAndEvents]: the thirteen months. *)
Definition ethiopianMonths_data : list Month.t :=
  [ Month.mk "meskerem" "Meskerem (መስከረም)" 30 "Sep 11 - Oct 10, 2024" "Spring";
    Month.mk "tikimt" "Tikimt (ጥቅምት)" 30 "Oct 11 - Nov 9, 2024" "Spring";
    Month.mk "hidar" "Hidar (ኅዳር)" 30 "Nov 10 - Dec 9, 2024" "Spring";
    Month.mk "tahsas" "Tahsas (ታኅሣሥ)" 30 "Dec 10, 2024 - Jan 8, 2025" "Winter";
    Month.mk "tir" "Tir (ጥር)" 30 "Jan 9 - Feb 7, 2025" "Winter";
    Month.mk "yekatit" "Yekatit (የካቲት)" 30 "Feb 8 - Mar 9, 2025" "Winter";
    Month.mk "megabit" "Megabit (መጋቢት)" 30 "Mar 10 - Apr 8, 2025" "Summer";
    Month.mk "miazia" "Miazia (ሚያዝያ)" 30 "Apr 9 - May 8, 2025" "Summer";
    Month.mk "ginbot" "Ginbot (ግንቦት)" 30 "May 9 - Jun 7, 2025" "Summer";
    Month.mk "sene" "Sene (ሰኔ)" 30 "Jun 8 - Jul 7, 2025" "Rainy";
    Month.mk "hamle" "Hamle (ሐምሌ)" 30 "Jul 8 - Aug 6, 2025" "Rainy";
    Month.mk "nehase" "Nehase (ነሐሴ)" 30 "Aug 7 - Sep 5, 2025" "Rainy";
    Month.mk "pagume" "Pagume (ጳጉሜን)" 5 "Sep 6-10, 2025" "Special" ].

(** [initializeMonthsAndEvents]: the holy days. *)
Definition holyDays_data : list HolyDay.t :=
  [ HolyDay.mk "meskerem" 1 "Ethiopian New Year (እንቁጣጣሽ)" "Sep 11, 2025" "New Year celebration";
    HolyDay.mk "meskerem" 17 "Finding of True Cross (መስቀል)" "Sep 27, 2025" "Meskel festival";
    HolyDay.mk "tahsas" 29 "Ethiopian Christmas (ገና/ልደት)" "Jan 7, 2026" "Birth of Christ";
    HolyDay.mk "tir" 11 "Epiphany/Timkat (ጥምቀት)" "Jan 19, 2026" "Baptism of Jesus";
    HolyDay.mk "nehase" 16 "Assumption of Mary (ፍልሰታ)" "Aug 22, 2026" "Filseta celebration" ].

(** [initializeMonthsAndEvents]: the ministry events. *)
Definition ministryEvents_data : list MinistryEvent.t :=
  [ MinistryEvent.mk "tir" 4 "Ministry Establishment" "Jan 12, 2025" "milestone" "Foundation of ministry work";
    MinistryEvent.mk "meskerem" 1 "Phase 1 Launch (Arsi & Bale)" "Sep 11, 2025" "launch" "Beginning outreach in Arsi and Bale regions";
    MinistryEvent.mk "megabit" 1 "Mid-Year Evaluation" "Mar 10, 2026" "evaluation" "Review progress and adjust strategies";
    MinistryEvent.mk "nehase" 30 "Phase 1 Completion" "Sep 5, 2026" "milestone" "Celebrate first year achievements" ].

(** [initializeChronologicalPlan]: an object keyed by month identifier, in
    the order the literal lists the months. *)
Definition chronologicalPlan_data : list (string * MonthPlan.t) :=
  [ ("meskerem",
     MonthPlan.mk 4 "Genesis 1-50; Exodus 1-14" "Creation to Exodus"
       [ Week.mk 1 "Creation & Fall" "Genesis 1-11" "God as Creator, Human Sin, Covenant Beginnings";
         Week.mk 2 "Patriarchs: Abraham" "Genesis 12-25" "Faith, Promise, Testing, Provision";
         Week.mk 3 "Patriarchs: Jacob & Joseph" "Genesis 26-50" "Transformation, Forgiveness, Sovereignty";
         Week.mk 4 "Exodus Begins" "Exodus 1-14" "Deliverance, Passover, Faith in Crisis" ]);
    ("tikimt",
     MonthPlan.mk 4 "Exodus 15-40; Leviticus 1-27" "Wilderness & Law"
       [ Week.mk 5 "Wilderness Journey" "Exodus 15-18" "Provision, Testing, Leadership";
         Week.mk 6 "The Ten Commandments" "Exodus 19-24" "Law, Covenant, Holiness";
         Week.mk 7 "Tabernacle & Worship" "Exodus 25-40" "Worship, Presence, Obedience";
         Week.mk 8 "Laws of Holiness" "Leviticus 1-27" "Sacrifice, Purity, Atonement" ]);
    ("hidar",
     MonthPlan.mk 4 "Numbers 1-36; Deuteronomy 1-34" "Wilderness Wanderings"
       [ Week.mk 9 "Census & Organization" "Numbers 1-10" "Order, Preparation, Guidance";
         Week.mk 10 "Rebellion & Consequences" "Numbers 11-21" "Complaining, Judgment, Faithfulness";
         Week.mk 11 "Balaam & Preparation" "Numbers 22-36" "Obedience, Blessing, Inheritance";
         Week.mk 12 "Moses Final Sermons" "Deuteronomy 1-34" "Covenant Renewal, Obedience, Choice" ]);
    ("tahsas",
     MonthPlan.mk 4 "Joshua 1-24; Judges 1-21; Ruth 1-4" "Conquest & Judges"
       [ Week.mk 13 "Conquest of Canaan" "Joshua 1-12" "Courage, Obedience, Victory";
         Week.mk 14 "Land Division & Covenant" "Joshua 13-24" "Inheritance, Faithfulness, Service";
         Week.mk 15 "Cycle of Judges" "Judges 1-16" "Disobedience, Oppression, Deliverance";
         Week.mk 16 "Ruth & Hope" "Judges 17-21; Ruth 1-4" "Loyalty, Redemption, Providence" ]);
    ("tir",
     MonthPlan.mk 4 "1 Samuel 1-31; 2 Samuel 1-24" "United Kingdom"
       [ Week.mk 17 "Samuel & Saul" "1 Samuel 1-15" "Prayer, Leadership, Obedience";
         Week.mk 18 "David's Rise" "1 Samuel 16-31" "Anointing, Friendship, Patience";
         Week.mk 19 "David's Reign" "2 Samuel 1-12" "Kingship, Covenant, Sin";
         Week.mk 20 "Family Troubles" "2 Samuel 13-24" "Consequences, Repentance, Grace" ]);
    ("yekatit",
     MonthPlan.mk 4 "1 Kings 1-22; 2 Kings 1-25; 1 Chronicles 1-29" "Divided Kingdom"
       [ Week.mk 21 "Solomon's Reign" "1 Kings 1-11; 1 Chronicles 1-9" "Wisdom, Temple, Compromise";
         Week.mk 22 "Kingdom Divides" "1 Kings 12-22; 1 Chronicles 10-21" "Division, Prophets, Idolatry";
         Week.mk 23 "Elisha & Decline" "2 Kings 1-17; 1 Chronicles 22-29" "Miracles, Faithfulness, Judgment";
         Week.mk 24 "Judah's Fall" "2 Kings 18-25; 2 Chronicles 1-36" "Reform, Judgment, Hope" ]);
    ("megabit",
     MonthPlan.mk 4 "Ezra 1-10; Nehemiah 1-13; Esther 1-10; Job 1-42" "Return & Restoration"
       [ Week.mk 25 "Return from Exile" "Ezra 1-10; Nehemiah 1-7" "Restoration, Worship, Opposition";
         Week.mk 26 "Spiritual Renewal" "Nehemiah 8-13; Esther 1-10" "Word of God, Covenant, Providence";
         Week.mk 27 "Job: Suffering & Sovereignty" "Job 1-21" "Suffering, Justice, Mystery";
         Week.mk 28 "God Answers Job" "Job 22-42" "Wisdom, Repentance, Restoration" ]);
    ("miazia",
     MonthPlan.mk 4 "Psalms 1-150; Proverbs 1-31" "Wisdom & Worship"
       [ Week.mk 29 "Psalms of David" "Psalms 1-41" "Worship, Lament, Trust";
         Week.mk 30 "Worship & Wisdom" "Psalms 42-89; Proverbs 1-9" "Refuge, Wisdom, Fear of God";
         Week.mk 31 "Songs of Ascent" "Psalms 90-118; Proverbs 10-20" "Pilgrimage, Thanksgiving, Practical Wisdom";
         Week.mk 32 "Praise & Wisdom Conclusion" "Psalms 119-150; Proverbs 21-31" "Word of God, Praise, Final Wisdom" ]);
    ("ginbot",
     MonthPlan.mk 4 "Ecclesiastes 1-12; Song of Songs 1-8; Isaiah 1-66" "Prophets Begin"
       [ Week.mk 33 "Ecclesiastes & Song" "Ecclesiastes 1-12; Song of Songs 1-8" "Meaning, Love, Joy";
         Week.mk 34 "Isaiah: Judgment & Hope" "Isaiah 1-23" "Sin, Judgment, Holiness";
         Week.mk 35 "Isaiah: Trust & Messiah" "Isaiah 24-39" "Trust, Salvation, Hezekiah";
         Week.mk 36 "Isaiah: Comfort & Restoration" "Isaiah 40-66" "Comfort, Servant, New Creation" ]);
    ("sene",
     MonthPlan.mk 4 "Jeremiah 1-52; Lamentations 1-5" "Weeping Prophet"
       [ Week.mk 37 "Jeremiah's Call" "Jeremiah 1-20" "Calling, Opposition, Lament";
         Week.mk 38 "Prophecies & False Prophets" "Jeremiah 21-36" "True vs False, Covenant, Hope";
         Week.mk 39 "Fall of Jerusalem" "Jeremiah 37-52; Lamentations 1-5" "Destruction, Grief, Faithfulness";
         Week.mk 40 "Review & Reflection" "Review Jeremiah passages" "God's Faithfulness" ]);
    ("hamle",
     MonthPlan.mk 4 "Ezekiel 1-48; Daniel 1-12" "Exile Prophets"
       [ Week.mk 41 "Ezekiel: Visions" "Ezekiel 1-24" "Glory, Responsibility, Hope";
         Week.mk 42 "Ezekiel: Restoration" "Ezekiel 25-48" "Judgment, New Temple, River of Life";
         Week.mk 43 "Daniel: Faith in Exile" "Daniel 1-6" "Faithfulness, Sovereignty, Deliverance";
         Week.mk 44 "Daniel: Visions" "Daniel 7-12" "Prophecy, Kingdom, End Times" ]);
    ("nehase",
     MonthPlan.mk 4 "Minor Prophets & Gospels" "Prophecy Fulfilled"
       [ Week.mk 45 "Minor Prophets I" "Hosea, Joel, Amos, Obadiah, Jonah, Micah" "Love, Justice, Mercy, Mission";
         Week.mk 46 "Minor Prophets II" "Nahum, Habakkuk, Zephaniah, Haggai, Zechariah, Malachi" "Trust, Restoration, Preparation";
         Week.mk 47 "Gospels: Birth & Ministry" "Matthew 1-12; Mark 1-6; Luke 1-8; John 1-8" "Incarnation, Kingdom, Discipleship";
         Week.mk 48 "Jesus' Ministry" "Matthew 13-28; Mark 7-16; Luke 9-24; John 9-21" "Parables, Miracles, Cross, Resurrection" ]);
    ("pagume",
     MonthPlan.mk 1 "Acts & Revelation" "Church & Eternity"
       [ Week.mk 49 "Church Birth & Mission" "Acts 1-28; Revelation 1-22" "Holy Spirit, Mission, Hope, New Creation" ]) ].

(** [initializeNT90Plan] *)
Definition ntIntensive_data : list NTSection.t :=
  [ NTSection.mk "1-9" "Matthew 1-28" "Jesus as King"
      [ NTDay.mk 1 "Matthew 1-4" "Birth & Preparation" 4;
        NTDay.mk 2 "Matthew 5-7" "Sermon on the Mount" 3;
        NTDay.mk 3 "Matthew 8-10" "Miracles & Mission" 3;
        NTDay.mk 4 "Matthew 11-13" "Parables of Kingdom" 3;
        NTDay.mk 5 "Matthew 14-18" "Identity & Community" 5;
        NTDay.mk 6 "Matthew 19-22" "Teaching & Conflict" 4;
        NTDay.mk 7 "Matthew 23-25" "Woes & End Times" 3;
        NTDay.mk 8 "Matthew 26-28" "Passion & Resurrection" 3;
        NTDay.mk 9 "Review Matthew" "Reflection & Application" 0 ];
    NTSection.mk "10-15" "Mark 1-16" "Jesus as Servant"
      [ NTDay.mk 10 "Mark 1-3" "Rapid Ministry Start" 3;
        NTDay.mk 11 "Mark 4-6" "Miracles & Power" 3;
        NTDay.mk 12 "Mark 7-9" "Teaching & Transfiguration" 3;
        NTDay.mk 13 "Mark 10-12" "Servant Leadership" 3;
        NTDay.mk 14 "Mark 13-14" "Prophecy & Betrayal" 2;
        NTDay.mk 15 "Mark 15-16" "Sacrifice & Victory" 2 ];
    NTSection.mk "16-23" "Luke 1-24" "Jesus as Savior"
      [ NTDay.mk 16 "Luke 1-3" "Birth & Genealogy" 3;
        NTDay.mk 17 "Luke 4-6" "Ministry Begins" 3;
        NTDay.mk 18 "Luke 7-9" "Miracles & Disciples" 3;
        NTDay.mk 19 "Luke 10-12" "Teaching & Parables" 3;
        NTDay.mk 20 "Luke 13-15" "Kingdom Parables" 3;
        NTDay.mk 21 "Luke 16-18" "Wealth & Prayer" 3;
        NTDay.mk 22 "Luke 19-21" "Jerusalem Entry" 3;
        NTDay.mk 23 "Luke 22-24" "Passion & Resurrection" 3 ];
    NTSection.mk "24-30" "John 1-21" "Jesus as God"
      [ NTDay.mk 24 "John 1-3" "Divine Identity" 3;
        NTDay.mk 25 "John 4-6" "Living Water & Bread" 3;
        NTDay.mk 26 "John 7-9" "Light of the World" 3;
        NTDay.mk 27 "John 10-12" "Good Shepherd" 3;
        NTDay.mk 28 "John 13-15" "Last Supper" 3;
        NTDay.mk 29 "John 16-18" "Holy Spirit & Arrest" 3;
        NTDay.mk 30 "John 19-21" "Crucifixion & Commission" 3 ];
    NTSection.mk "31-45" "Acts 1-28" "Early Church"
      [ NTDay.mk 31 "Acts 1-3" "Pentecost & Power" 3;
        NTDay.mk 32 "Acts 4-6" "Church Growth" 3;
        NTDay.mk 33 "Acts 7-8" "Stephen & Persecution" 2;
        NTDay.mk 34 "Acts 9-10" "Paul's Conversion" 2;
        NTDay.mk 35 "Acts 11-13" "Gentile Inclusion" 3;
        NTDay.mk 36 "Acts 14-16" "First Mission Journey" 3;
        NTDay.mk 37 "Acts 17-19" "Second Journey" 3;
        NTDay.mk 38 "Acts 20-22" "Third Journey & Arrest" 3;
        NTDay.mk 39 "Acts 23-25" "Trials & Defense" 3;
        NTDay.mk 40 "Acts 26-28" "Appeal to Caesar" 3 ];
    NTSection.mk "46-60" "Romans & Corinthians" "Paul's Theology"
      [ NTDay.mk 46 "Romans 1-3" "Sin & Righteousness" 3;
        NTDay.mk 47 "Romans 4-6" "Faith & Grace" 3;
        NTDay.mk 48 "Romans 7-8" "Spirit & Freedom" 2;
        NTDay.mk 49 "Romans 9-11" "Israel & Mercy" 3;
        NTDay.mk 50 "Romans 12-16" "Practical Living" 5;
        NTDay.mk 51 "1 Corinthians 1-4" "Church Divisions" 4;
        NTDay.mk 52 "1 Corinthians 5-8" "Morality & Freedom" 4;
        NTDay.mk 53 "1 Corinthians 9-11" "Rights & Worship" 3;
        NTDay.mk 54 "1 Corinthians 12-14" "Spiritual Gifts" 3;
        NTDay.mk 55 "1 Corinthians 15-16" "Resurrection" 2;
        NTDay.mk 56 "2 Corinthians 1-4" "Comfort & Ministry" 4;
        NTDay.mk 57 "2 Corinthians 5-8" "Reconciliation & Giving" 4;
        NTDay.mk 58 "2 Corinthians 9-13" "Generosity & Authority" 5 ];
    NTSection.mk "61-75" "Paul's Letters" "Church Life"
      [ NTDay.mk 61 "Galatians 1-3" "Grace vs Law" 3;
        NTDay.mk 62 "Galatians 4-6" "Freedom & Spirit" 3;
        NTDay.mk 63 "Ephesians 1-3" "Spiritual Blessings" 3;
        NTDay.mk 64 "Ephesians 4-6" "Unity & Armor" 3;
        NTDay.mk 65 "Philippians 1-2" "Joy & Humility" 2;
        NTDay.mk 66 "Philippians 3-4" "Righteousness & Peace" 2;
        NTDay.mk 67 "Colossians 1-2" "Supremacy of Christ" 2;
        NTDay.mk 68 "Colossians 3-4" "New Life" 2;
        NTDay.mk 69 "1 Thessalonians 1-3" "Faith & Love" 3;
        NTDay.mk 70 "1 Thessalonians 4-5" "Coming & Living" 2;
        NTDay.mk 71 "2 Thessalonians 1-3" "End Times & Work" 3;
        NTDay.mk 72 "1 Timothy 1-3" "Church Order" 3;
        NTDay.mk 73 "1 Timothy 4-6" "Godliness & Contentment" 3;
        NTDay.mk 74 "2 Timothy 1-2" "Guard the Gospel" 2;
        NTDay.mk 75 "2 Timothy 3-4" "Scripture & Finish" 2 ];
    NTSection.mk "76-90" "General Letters & Revelation" "Faith & Hope"
      [ NTDay.mk 76 "Titus 1-3" "Sound Doctrine" 3;
        NTDay.mk 77 "Philemon" "Forgiveness" 1;
        NTDay.mk 78 "Hebrews 1-4" "Superiority of Christ" 4;
        NTDay.mk 79 "Hebrews 5-7" "Priesthood" 3;
        NTDay.mk 80 "Hebrews 8-10" "New Covenant" 3;
        NTDay.mk 81 "Hebrews 11-13" "Faith & Endurance" 3;
        NTDay.mk 82 "James 1-3" "Faith & Works" 3;
        NTDay.mk 83 "James 4-5" "Wisdom & Prayer" 2;
        NTDay.mk 84 "1 Peter 1-3" "Living Hope" 3;
        NTDay.mk 85 "1 Peter 4-5" "Suffering & Leadership" 2;
        NTDay.mk 86 "2 Peter 1-3" "Knowledge & Return" 3;
        NTDay.mk 87 "1 John 1-3" "Light & Love" 3;
        NTDay.mk 88 "1 John 4-5" "God is Love" 2;
        NTDay.mk 89 "2 John, 3 John, Jude" "Truth & Contend" 3;
        NTDay.mk 90 "Revelation 1-22" "Victory & New Creation" 22 ] ].

(** [initializeDiscipleshipWeeks] *)
Definition discipleshipWeeks_data : list DiscipleshipWeek.t :=
  [ DiscipleshipWeek.mk 1 "Salvation & New Life" "Romans 3:21-26; Ephesians 2:1-10";
    DiscipleshipWeek.mk 2 "The Word of God" "2 Timothy 3:16-17; Hebrews 4:12";
    DiscipleshipWeek.mk 3 "Prayer & Communion with God" "Matthew 6:5-15; Philippians 4:6-7";
    DiscipleshipWeek.mk 4 "The Holy Spirit" "John 14:15-26; Galatians 5:16-25";
    DiscipleshipWeek.mk 5 "The Church & Community" "Acts 2:42-47; 1 Corinthians 12:12-27";
    DiscipleshipWeek.mk 6 "Spiritual Warfare" "Ephesians 6:10-18; James 4:7-8";
    DiscipleshipWeek.mk 7 "Evangelism & Witnessing" "Matthew 28:18-20; 1 Peter 3:15-16";
    DiscipleshipWeek.mk 8 "Stewardship & Generosity" "2 Corinthians 9:6-15; 1 Timothy 6:17-19";
    DiscipleshipWeek.mk 9 "God's Will & Decision Making" "Romans 12:1-2; Proverbs 3:5-6";
    DiscipleshipWeek.mk 10 "Relationships & Marriage" "Ephesians 5:21-33; 1 Corinthians 13:4-7";
    DiscipleshipWeek.mk 11 "Parenting & Family" "Deuteronomy 6:4-9; Proverbs 22:6";
    DiscipleshipWeek.mk 12 "Work & Vocation" "Colossians 3:23-24; Ephesians 6:5-9";
    DiscipleshipWeek.mk 13 "Suffering & Trials" "James 1:2-4; Romans 5:3-5";
    DiscipleshipWeek.mk 14 "Forgiveness & Reconciliation" "Matthew 18:21-35; Colossians 3:12-14";
    DiscipleshipWeek.mk 15 "Wisdom & Discernment" "Proverbs 2:1-11; James 1:5-8";
    DiscipleshipWeek.mk 16 "Eternal Perspective" "Matthew 6:19-21; 2 Corinthians 4:16-18" ].

(** ** The planner *)

(** [this.state] of the constructor. *)
Definition default_state : value :=
  VObj [("activeTab", VStr "calendar");
        ("selectedMonth", VStr "meskerem");
        ("selectedPlan", VStr "chronological");
        ("expandedWeeks", VObj []);
        ("completedReadings", VObj []);
        ("showStats", VBool false);
        ("darkMode", VBool false);
        ("reminderTime", VStr "07:00")].

Definition state_key : string := "bible-planner-state".

(** The fields of [EthiopianBiblePlanner] that the modelled methods use.
    [destroy] sets five of them to [null]: [None], and [VNull] for the
    state. *)
Record Planner : Type := {
  storage : option StorageManager;
  state : value;
  ethiopianMonths : list Month.t;
  holyDays : list HolyDay.t;
  ministryEvents : list MinistryEvent.t;
  chronologicalPlan : option (list (string * MonthPlan.t));
  ntIntensive : option (list NTSection.t);
  discipleshipWeeks : option (list DiscipleshipWeek.t);
  saveDebounceTimer : option positive
}.

Definition with_state (p : Planner) (s : value) : Planner :=
  {| storage := storage p; state := s;
     ethiopianMonths := ethiopianMonths p; holyDays := holyDays p;
     ministryEvents := ministryEvents p;
     chronologicalPlan := chronologicalPlan p;
     ntIntensive := ntIntensive p;
     discipleshipWeeks := discipleshipWeeks p;
     saveDebounceTimer := saveDebounceTimer p |}.

Definition with_storage (p : Planner) (sm : StorageManager) : Planner :=
  {| storage := Some sm; state := state p;
     ethiopianMonths := ethiopianMonths p; holyDays := holyDays p;
     ministryEvents := ministryEvents p;
     chronologicalPlan := chronologicalPlan p;
     ntIntensive := ntIntensive p;
     discipleshipWeeks := discipleshipWeeks p;
     saveDebounceTimer := saveDebounceTimer p |}.

Definition with_timer (p : Planner) (t : option positive) : Planner :=
  {| storage := storage p; state := state p;
     ethiopianMonths := ethiopianMonths p; holyDays := holyDays p;
     ministryEvents := ministryEvents p;
     chronologicalPlan := chronologicalPlan p;
     ntIntensive := ntIntensive p;
     discipleshipWeeks := discipleshipWeeks p;
     saveDebounceTimer := t |}.

(** The identifiers that the render methods put in the [data-reading]
    attributes of the page, each with the unit it stands for. *)
Inductive reading_unit : Type :=
  | ChronologicalWeek (monthId : string) (week : Z)
  | NTSectionUnit (idx : nat)
  | NTDayUnit (idx : nat) (day : Z)
  | DiscipleshipWeekUnit (week : Z).

Definition renderWeekCard (week : Week.t) (monthId : string) : string :=
  "chrono-" +:+ monthId +:+ "-" +:+ number_to_string (Week.week week).

Definition renderChronologicalPlanContent (p : Planner)
  : option (list (string * reading_unit)) :=
  match chronologicalPlan p with
  | Some entries =>
      Some (concat (map
        (fun '(monthId, plan) =>
           match list_find (fun m => Month.id m = monthId) (ethiopianMonths p) with
           | Some _ =>
               map (fun week => (renderWeekCard week monthId,
                                 ChronologicalWeek monthId (Week.week week)))
                   (MonthPlan.weeklyBreakdown plan)
           | None => []
           end) entries))
  | None => None
  end.

Definition renderNTDay (day : NTDay.t) (sectionId : string) : string :=
  sectionId +:+ "-day-" +:+ number_to_string (NTDay.day day).

Definition renderNTSection (section : NTSection.t) (idx : nat)
  : list (string * reading_unit) :=
  let sectionId := "nt90-" +:+ number_to_string (Z.of_nat idx) in
  (sectionId, NTSectionUnit idx)
  :: map (fun day => (renderNTDay day sectionId, NTDayUnit idx (NTDay.day day)))
         (NTSection.dailyBreakdown section).

Definition renderNT90Plan (p : Planner) : option (list (string * reading_unit)) :=
  match ntIntensive p with
  | Some sections =>
      Some (concat (imap (fun idx section => renderNTSection section idx) sections))
  | None => None
  end.

Definition renderDiscipleshipWeek (week : DiscipleshipWeek.t) : string :=
  "disc-" +:+ number_to_string (DiscipleshipWeek.week week).

Definition renderDiscipleship (p : Planner) : option (list (string * reading_unit)) :=
  match discipleshipWeeks p with
  | Some weeks =>
      Some (map (fun week => (renderDiscipleshipWeek week,
                              DiscipleshipWeekUnit (DiscipleshipWeek.week week)))
                weeks)
  | None => None
  end.

(** Every reading identifier on the page. *)
Definition reading_identifiers (p : Planner) : option (list (string * reading_unit)) :=
  match renderChronologicalPlanContent p, renderNT90Plan p,
        renderDiscipleship p with
  | Some a, Some b, Some c => Some (a ++ b ++ c)
  | _, _, _ => None
  end.

(** [getTotalReadings()]; [Object.values(null)] throws. *)
Definition getTotalReadings (p : Planner) : option Z :=
  match chronologicalPlan p with
  | Some entries => Some (foldl (fun sum kv => sum + MonthPlan.weeks kv.2) 0 entries)
  | None => None
  end.

(** ** The window: host store and timers *)

Section App.
Context `{Js : !JSON, Ws : !WindowStorage, Lc : !Locale}.

(** [storage_api] is [window.storage]; [timers] are the pending
    [setTimeout] calls of [saveStateDebounced], each with its delay in
    milliseconds; timer identifiers are positive and never reused. *)
Record Window : Type := {
  storage_api : option native_store;
  timers : list (positive * Z);
  next_timer : positive
}.

Definition setTimeout (w : Window) (delay : Z) : Window * positive :=
  ({| storage_api := storage_api w;
      timers := timers w ++ [(next_timer w, delay)];
      next_timer := Pos.succ (next_timer w) |},
   next_timer w).

Definition clearTimeout (w : Window) (id : positive) : Window :=
  {| storage_api := storage_api w;
     timers := filter (fun t => t.1 ≠ id) (timers w);
     next_timer := next_timer w |}.

Definition with_storage_api (w : Window) (api : option native_store) : Window :=
  {| storage_api := api; timers := timers w; next_timer := next_timer w |}.

(** [new EthiopianBiblePlanner()] *)
Definition Planner_new (w : Window) : Planner :=
  {| storage := Some (StorageManager_new (storage_api w));
     state := default_state;
     ethiopianMonths := ethiopianMonths_data;
     holyDays := holyDays_data;
     ministryEvents := ministryEvents_data;
     chronologicalPlan := Some chronologicalPlan_data;
     ntIntensive := Some ntIntensive_data;
     discipleshipWeeks := Some discipleshipWeeks_data;
     saveDebounceTimer := None |}.

(** [{ ...a, ...r }] where [r] was read from an object: a built-in has
    no enumerable property of its own. *)
Definition spread_result (a : value) (r : js_result) : value :=
  match r with
  | Val v => spread a v
  | Builtin _ => spread a (VObj [])
  end.

(** [loadState()]: an exception (the storage released) is caught and
    leaves the state as it is. *)
Definition loadState (w : Window) (p : Planner) : Planner :=
  match storage p with
  | Some sm =>
      let savedState := StorageManager_get (storage_api w) sm state_key VNull in
      if result_truthy savedState
      then with_state p (spread_result (state p) savedState)
      else p
  | None => p
  end.

(** [saveStateDebounced()] *)
Definition saveStateDebounced (w : Window) (p : Planner) : Window * Planner :=
  let w1 := match saveDebounceTimer p with
            | Some id => clearTimeout w id
            | None => w
            end in
  let '(w2, id) := setTimeout w1 500 in
  (w2, with_timer p (Some id)).

(** [setState(newState)]; [updateUI] only reads the planner. *)
Definition setState (w : Window) (p : Planner) (newState : value)
  : Window * Planner :=
  saveStateDebounced w (with_state p (spread (state p) newState)).

(** The callback that [saveStateDebounced] hands to [setTimeout]. *)
Definition save_callback (w : Window) (p : Planner) : Window * Planner * bool :=
  match storage p with
  | Some sm =>
      let '(api, sm', success) :=
        StorageManager_set (storage_api w) sm state_key (state p) in
      (with_storage_api w api, with_storage p sm', success)
  | None => (w, p, false)
  end.

(** A pending timer expires. *)
Definition timer_fires (w : Window) (p : Planner) (id : positive)
  : Window * Planner :=
  if bool_decide (id ∈ (timers w).*1)
  then (save_callback (clearTimeout w id) p).1
  else (w, p).

(** [{ ...this.state.field }] followed by [copy[k] = !copy[k]], the
    pattern of [toggleReading] and of the week toggles. Reading a field of
    a released state throws. *)
Definition toggled_field (p : Planner) (field k : string) : option value :=
  match state p with
  | VObj o =>
      let copy := own_props (match props_read o field with
                             | Val v => v
                             | Builtin _ => VObj []
                             end) in
      let flipped := VBool (negb (result_truthy (props_read copy k))) in
      Some (VObj (props_write copy k flipped))
  | _ => None
  end.

Definition toggleReading (w : Window) (p : Planner) (readingId : string)
  : Window * Planner :=
  match toggled_field p "completedReadings" readingId with
  | Some newCompletedReadings =>
      setState w p (VObj [("completedReadings", newCompletedReadings)])
  | None => (w, p)
  end.

Definition toggleWeek (w : Window) (p : Planner) (weekId : string)
  : Window * Planner :=
  match toggled_field p "expandedWeeks" weekId with
  | Some newExpandedWeeks =>
      setState w p (VObj [("expandedWeeks", newExpandedWeeks)])
  | None => (w, p)
  end.

(** The click on the statistics toggle. *)
Definition toggleStats (w : Window) (p : Planner) : Window * Planner :=
  match state p with
  | VObj o =>
      setState w p
        (VObj [("showStats",
                VBool (negb (result_truthy (props_read o "showStats"))))])
  | _ => (w, p)
  end.

(** A field of the imported data; none of the names read is a built-in
    property name. *)
Definition data_field (data : value) (k : string) : value :=
  default VUndefined (own_get data k).

Definition or_else (v d : value) : value := if truthy v then v else d.

Definition validateImportData (data : value) : bool :=
  truthy data && typeof_object data
  && truthy (data_field data "version")
  && truthy (data_field data "completedReadings")
  && typeof_object (data_field data "completedReadings").

(** [importProgress(file)] on the text of the file. [proceed] says that
    the checksum was computed and matched, or that the user confirmed the
    dialog; text that does not parse, data that does not validate and a
    refusal all leave the planner as it was. *)
Definition importProgress (w : Window) (p : Planner) (text : string)
    (proceed : bool) : Window * Planner :=
  match JSON_parse text with
  | Some data =>
      if validateImportData data && proceed then
        setState w p
          (VObj [("completedReadings",
                  or_else (data_field data "completedReadings") (VObj []));
                 ("selectedMonth",
                  or_else (data_field data "selectedMonth") (VStr "meskerem"));
                 ("selectedPlan",
                  or_else (data_field data "selectedPlan") (VStr "chronological"));
                 ("expandedWeeks",
                  or_else (data_field data "expandedWeeks") (VObj []))])
      else (w, p)
  | None => (w, p)
  end.

(** [updateProgress()]: the figures it prints. *)
Definition updateProgress (p : Planner) : option ProgressInsights :=
  match state p, getTotalReadings p with
  | VObj o, Some totalWeeks =>
      match props_read o "completedReadings" with
      | Val c => getProgressInsights c totalWeeks
      | Builtin _ => None
      end
  | _, _ => None
  end.

(** [destroy()] *)
Definition destroy (w : Window) (p : Planner) : Window * Planner :=
  (match saveDebounceTimer p with
   | Some id => clearTimeout w id
   | None => w
   end,
   {| storage := None; state := VNull;
      ethiopianMonths := ethiopianMonths p; holyDays := holyDays p;
      ministryEvents := ministryEvents p;
      chronologicalPlan := None; ntIntensive := None;
      discipleshipWeeks := None;
      saveDebounceTimer := None |}).

(** What can happen to a running planner. *)
Inductive operation : Type :=
  | OpLoadState
  | OpSetState (newState : value)
  | OpToggleReading (readingId : string)
  | OpToggleWeek (weekId : string)
  | OpToggleStats
  | OpImportProgress (text : string) (proceed : bool)
  | OpTimerFires (id : positive)
  | OpRender
  | OpDestroy.

Definition run (w : Window) (p : Planner) (op : operation) : Window * Planner :=
  match op with
  | OpLoadState => (w, loadState w p)
  | OpSetState newState => setState w p newState
  | OpToggleReading readingId => toggleReading w p readingId
  | OpToggleWeek weekId => toggleWeek w p weekId
  | OpToggleStats => toggleStats w p
  | OpImportProgress text proceed => importProgress w p text proceed
  | OpTimerFires id => timer_fires w p id
  | OpRender => (w, p)
  | OpDestroy => destroy w p
  end.

Definition run_all (w : Window) (p : Planner) (ops : list operation)
  : Window * Planner :=
  foldl (fun wp op => run wp.1 wp.2 op) (w, p) ops.
End App.

(** ** FormAutoSave *)

Section FormAutoSave.
Context `{Js : !JSON}.

(** [localStorage] holds strings under string keys; [setItem] turns the
    value given into a string. *)
Definition localStorage_setItem (ls : gmap string string) (k : string)
    (text : option string) : gmap string string :=
  <[k := default "undefined" text]> ls.

Definition localStorage_removeItem (ls : gmap string string) (k : string)
  : gmap string string :=
  delete k ls.

(** The object that [saveDraft] builds from the entries of
    [new FormData(this.form)]: the names with their values, in the order
    of the form; a file is an object without enumerable properties. *)
Definition draft_data (formData : list (string * value)) : list (string * value) :=
  foldl (fun data '(key, v) =>
           if negb (String.eqb key "website") && negb (String.eqb key "password")
           then props_write data key v
           else data)
        [] formData.

(** [saveDraft()] *)
Definition saveDraft (storageKey : string) (formData : list (string * value))
    (ls : gmap string string) : gmap string string :=
  localStorage_setItem ls storageKey (JSON_stringify (VObj (draft_data formData))).

(** [clearDraft()] *)
Definition clearDraft (storageKey : string) (ls : gmap string string)
  : gmap string string :=
  localStorage_removeItem ls storageKey.
End FormAutoSave.

(** ** Reference implementations of the platform interfaces *)

(** JSON text for the values above, printed as [JSON.stringify] prints
    (no white space, control characters escaped, properties with an
    [undefined] value left out, [undefined] array elements as [null]) and
    read back by a recursive-descent parser for the JSON grammar; of that
    grammar the parser leaves out what no value of the model stands for:
    numbers with a fraction or an exponent, and [\u] escapes above 7f. *)
Module JsonText.

Definition dquote : ascii := "034"%char.

Definition hex_char (n : N) : ascii :=
  if N.ltb n 10 then ascii_of_N (48 + n) else ascii_of_N (87 + n).

Definition escape_char (c : ascii) : list ascii :=
  if Ascii.eqb c dquote then ["\"; dquote]%char
  else if Ascii.eqb c "\" then ["\"; "\"]%char
  else if Ascii.eqb c "008" then ["\"; "b"]%char
  else if Ascii.eqb c "012" then ["\"; "f"]%char
  else if Ascii.eqb c "010" then ["\"; "n"]%char
  else if Ascii.eqb c "013" then ["\"; "r"]%char
  else if Ascii.eqb c "009" then ["\"; "t"]%char
  else if N.ltb (N_of_ascii c) 32
       then ["\"; "u"; "0"; "0";
             (if N.ltb (N_of_ascii c) 16 then "0" else "1");
             hex_char (N_of_ascii c mod 16)]%char
       else [c].

Definition quote (s : list ascii) : list ascii :=
  dquote :: flat_map escape_char s ++ [dquote].

Fixpoint join_comma (parts : list (list ascii)) : list ascii :=
  match parts with
  | [] => []
  | [x] => x
  | x :: r => x ++ ","%char :: join_comma r
  end.

Fixpoint print (v : value) : list ascii :=
  match v with
  | VUndefined | VNull => list_ascii_of_string "null"
  | VBool true => list_ascii_of_string "true"
  | VBool false => list_ascii_of_string "false"
  | VNum n => number_chars n
  | VStr s => quote (list_ascii_of_string s)
  | VArr l => "["%char :: join_comma (map print l) ++ ["]"%char]
  | VObj o =>
      "{"%char
      :: join_comma
           (concat (map (fun '(k, x) =>
                           if is_undefined x then []
                           else [quote (list_ascii_of_string k)
                                 ++ ":"%char :: print x]) o))
      ++ ["}"%char]
  end.

Definition stringify (v : value) : option string :=
  match v with
  | VUndefined => None
  | _ => Some (string_of_list_ascii (print v))
  end.

Definition is_ws (c : ascii) : bool :=
  Ascii.eqb c " " || Ascii.eqb c "009" || Ascii.eqb c "010" || Ascii.eqb c "013".

Fixpoint skip_ws (s : list ascii) : list ascii :=
  match s with
  | c :: r => if is_ws c then skip_ws r else s
  | [] => []
  end.

Fixpoint strip_prefix (p s : list ascii) : option (list ascii) :=
  match p, s with
  | [], _ => Some s
  | a :: p', b :: s' => if Ascii.eqb a b then strip_prefix p' s' else None
  | _ :: _, [] => None
  end.

Definition hex_value (c : ascii) : option N :=
  let n := N_of_ascii c in
  if N.leb 48 n && N.leb n 57 then Some (n - 48)%N
  else if N.leb 97 n && N.leb n 102 then Some (n - 87)%N
  else if N.leb 65 n && N.leb n 70 then Some (n - 55)%N
  else None.

Definition unescape (e : ascii) : option ascii :=
  if Ascii.eqb e dquote then Some dquote
  else if Ascii.eqb e "\" then Some "\"%char
  else if Ascii.eqb e "/" then Some "/"%char
  else if Ascii.eqb e "b" then Some "008"%char
  else if Ascii.eqb e "f" then Some "012"%char
  else if Ascii.eqb e "n" then Some "010"%char
  else if Ascii.eqb e "r" then Some "013"%char
  else if Ascii.eqb e "t" then Some "009"%char
  else None.

Definition prepend (c : ascii) (r : option (list ascii * list ascii))
  : option (list ascii * list ascii) :=
  match r with
  | Some (s, rest) => Some (c :: s, rest)
  | None => None
  end.

(** The characters of a string up to its closing quote. *)
Fixpoint read_string (s : list ascii) : option (list ascii * list ascii) :=
  match s with
  | [] => None
  | c :: r =>
      if Ascii.eqb c dquote then Some ([], r)
      else if Ascii.eqb c "\" then
        match r with
        | [] => None
        | e :: r1 =>
            if Ascii.eqb e "u" then
              match r1 with
              | h1 :: h2 :: h3 :: h4 :: r2 =>
                  match hex_value h1, hex_value h2, hex_value h3, hex_value h4 with
                  | Some a, Some b, Some c, Some d =>
                      let n := (((a * 16 + b) * 16 + c) * 16 + d)%N in
                      if N.ltb n 128 then prepend (ascii_of_N n) (read_string r2)
                      else None
                  | _, _, _, _ => None
                  end
              | _ => None
              end
            else
              match unescape e with
              | Some x => prepend x (read_string r1)
              | None => None
              end
        end
      else if N.ltb (N_of_ascii c) 32 then None
      else prepend c (read_string r)
  end.

Definition ends_number (s : list ascii) : bool :=
  match s with
  | c :: _ => negb (Ascii.eqb c "." || Ascii.eqb c "e" || Ascii.eqb c "E")
  | [] => true
  end.

(** An integer: an optional minus sign and digits without a leading
    zero. *)
Definition read_number (s : list ascii) : option (Z * list ascii) :=
  let '(negative, s1) :=
    match s with
    | c :: r => if Ascii.eqb c "-" then (true, r) else (false, s)
    | [] => (false, s)
    end in
  let '(u, r) := read_uint s1 in
  if Decimal.uint_beq (Decimal.unorm u) u && ends_number r
  then Some (if negative then - Z.of_N (N.of_uint u) else Z.of_N (N.of_uint u), r)
  else None.

Fixpoint parse_value (fuel : nat) (s : list ascii) {struct fuel}
  : option (value * list ascii) :=
  match fuel with
  | O => None
  | S fuel' =>
      match skip_ws s with
      | [] => None
      | c :: r =>
          if Ascii.eqb c "n" then
            r' ← strip_prefix (list_ascii_of_string "ull") r; Some (VNull, r')
          else if Ascii.eqb c "t" then
            r' ← strip_prefix (list_ascii_of_string "rue") r; Some (VBool true, r')
          else if Ascii.eqb c "f" then
            r' ← strip_prefix (list_ascii_of_string "alse") r; Some (VBool false, r')
          else if Ascii.eqb c dquote then
            '(str, r') ← read_string r; Some (VStr (string_of_list_ascii str), r')
          else if Ascii.eqb c "[" then
            match skip_ws r with
            | c' :: r' =>
                if Ascii.eqb c' "]" then Some (VArr [], r')
                else '(l, r'') ← parse_elements fuel' r; Some (VArr l, r'')
            | [] => None
            end
          else if Ascii.eqb c "{" then
            match skip_ws r with
            | c' :: r' =>
                if Ascii.eqb c' "}" then Some (VObj [], r')
                else '(o, r'') ← parse_members fuel' r;
                     Some (VObj (obj_assign [] o), r'')
            | [] => None
            end
          else
            '(n, r') ← read_number (c :: r); Some (VNum n, r')
      end
  end
with parse_elements (fuel : nat) (s : list ascii) {struct fuel}
  : option (list value * list ascii) :=
  match fuel with
  | O => None
  | S fuel' =>
      '(v, r) ← parse_value fuel' s;
      match skip_ws r with
      | c :: r' =>
          if Ascii.eqb c "," then
            '(l, r'') ← parse_elements fuel' r'; Some (v :: l, r'')
          else if Ascii.eqb c "]" then Some ([v], r')
          else None
      | [] => None
      end
  end
with parse_members (fuel : nat) (s : list ascii) {struct fuel}
  : option (list (string * value) * list ascii) :=
  match fuel with
  | O => None
  | S fuel' =>
      match skip_ws s with
      | q :: r0 =>
          if Ascii.eqb q dquote then
            '(k, r1) ← read_string r0;
            match skip_ws r1 with
            | colon :: r2 =>
                if Ascii.eqb colon ":" then
                  '(v, r3) ← parse_value fuel' r2;
                  match skip_ws r3 with
                  | c :: r' =>
                      if Ascii.eqb c "," then
                        '(o, r'') ← parse_members fuel' r';
                        Some ((string_of_list_ascii k, v) :: o, r'')
                      else if Ascii.eqb c "}"
                           then Some ([(string_of_list_ascii k, v)], r')
                           else None
                  | [] => None
                  end
                else None
            | [] => None
            end
          else None
      | [] => None
      end
  end.

Definition parse (text : string) : option value :=
  let s := list_ascii_of_string text in
  '(v, r) ← parse_value (S (length s)) s;
  match skip_ws r with
  | [] => Some v
  | _ :: _ => None
  end.

(** A character at which a number must stop. *)
Definition number_stop (rest : list ascii) : Prop :=
  match rest with
  | [] => True
  | c :: _ => digit_char c = None ∧ ends_number rest = true
  end.

Definition number_start (c : ascii) : bool :=
  Ascii.eqb c "-" || bool_decide (is_Some (digit_char c)).

(** The first character of a printed value. *)
Definition value_start (c : ascii) : bool :=
  number_start c || Ascii.eqb c "n" || Ascii.eqb c "t" || Ascii.eqb c "f"
  || Ascii.eqb c dquote || Ascii.eqb c "[" || Ascii.eqb c "{".

Definition print_member (kv : string * value) : list ascii :=
  quote (list_ascii_of_string kv.1) ++ ":"%char :: print kv.2.

Definition codec : JSON :=
  {| JSON_stringify := stringify; JSON_parse := parse |}.
End JsonText.

(** A host store that keeps every text up to a size limit and rejects
    the rest. *)
Definition map_storage (limit : nat) : WindowStorage :=
  {| native_store := gmap string string;
     storage_get st k := st !! k;
     storage_set st k data :=
       match data with
       | Some text =>
           if bool_decide (String.length text ≤ limit)%nat
           then (<[k := text]> st, true)
           else (st, false)
       | None => (st, false)
       end;
     storage_delete st k := delete k st |}.

(** Comparison by code units. *)
Definition ordinal_locale : Locale :=
  {| localeCompare a b :=
       match String.compare a b with Lt => -1 | Eq => 0 | Gt => 1 end |}.

(** ** Vocabulary of the statements *)

Definition state_fields (p : Planner) : list (string * value) :=
own_props (state p).

Definition default_fields : list (string * value) := own_props default_state.



#[global] Instance reading_unit_eq_dec : EqDecision reading_unit.
Proof. solve_decision. Defined.

(** The number of readings marked complete in a completion map. *)
Definition completed_count (o : list (string * value)) : Z :=
Z.of_nat (length (filter (fun e => truthy e.2 = true) o)).


(** The percentage as [getProgressInsights] computes it, in doubles. *)
Definition percent_of (completed total : Z) : float :=
Math_round (PrimFloat.mul
              (PrimFloat.div (number_of_Z completed) (number_of_Z total))
              (number_of_Z 100)).



(** A completion map with [n] readings marked complete. *)
Definition completed_map (n : nat) : list (string * value) :=
(fun i => ("r" +:+ number_to_string (Z.of_nat i), VBool true)) <$> seq 0 n.

Definition secret_field (k : string) : bool :=
String.eqb k "website" || String.eqb k "password".

(** Two forms with the same fields in the same order, and the same values
    in all fields but those named [website] or [password]. *)
Definition differ_only_in_secrets (f1 f2 : list (string * value)) : Prop :=
Forall2 (fun e1 e2 => e1.1 = e2.1 ∧ (secret_field e1.1 = false → e1.2 = e2.2))
        f1 f2.

Section Vocabulary.
Context `{Js : !JSON, Ws : !WindowStorage, Lc : !Locale}.

(** The record found under the planner's key when the page starts. *)
Definition saved_record (w : Window) (saved : list (string * value)) : Prop :=
∃ st text,
  storage_api w = Some st ∧ storage_get st state_key = Some text
  ∧ JSON_parse text = Some (VObj saved).

(** Nothing is stored under the key: the host has no store (the manager
    then starts with an empty memory store) or its store has no record. *)
Definition no_saved_record (w : Window) : Prop :=
match storage_api w with
| Some st => storage_get st state_key = None
| None => True
end.




(** The content data of a planner. *)
Definition content_of (p : Planner) :=
(ethiopianMonths p, holyDays p, ministryEvents p,
 chronologicalPlan p, ntIntensive p, discipleshipWeeks p).


End Vocabulary.

(** ** Sample runs *)

(** A host whose store holds a record written by an earlier session, one
    with an empty store, and one without a store. *)
Definition earlier_record : list (string * value) :=
[("activeTab", VStr "reading");
 ("completedReadings", VObj [("chrono-meskerem-1", VBool true)]);
 ("darkMode", VBool true)].

Definition earlier_text : string :=
default "" (JsonText.stringify (VObj earlier_record)).

Definition host_store (limit : nat) (m : gmap string string)
  : @native_store (map_storage limit) := m.

Definition returning_window : @Window (map_storage 4096) :=
{| storage_api := Some (host_store 4096 {[ state_key := earlier_text ]});
   timers := []; next_timer := 1%positive |}.

Definition fresh_window : @Window (map_storage 4096) :=
{| storage_api := Some (host_store 4096 ∅);
   timers := []; next_timer := 1%positive |}.

Definition storeless_window : @Window (map_storage 4096) :=
{| storage_api := None; timers := []; next_timer := 1%positive |}.

(** A sign-up form filled in twice, with different passwords. *)
Definition form_one : list (string * value) :=
[("name", VStr "Hana"); ("password", VStr "first secret");
 ("message", VStr "Selam"); ("website", VStr "")].

Definition form_two : list (string * value) :=
[("name", VStr "Hana"); ("password", VStr "another secret");
 ("message", VStr "Selam"); ("website", VStr "bot")].



Definition sample_operations : list (@operation) :=
[OpToggleReading "chrono-meskerem-1"; OpTimerFires 1%positive; OpToggleStats;
 OpSetState (VObj [("selectedMonth", VStr "tir")])].
(** ** The planner's messages and the state of a session *)

Section Session.
Context `{Js : !JSON, Ws : !WindowStorage, Lc : !Locale}.

(** [celebrateCompletion()]: the message it shows, if any; reading a
    field of a released state, or the entries of a missing completion map,
    throws. *)
Definition celebrateCompletion (p : Planner) : option (option string) :=
  match state p with
  | VObj o =>
      match props_read o "completedReadings" with
      | Val c =>
          streak ← calculateStreak c;
          Some (if Z.ltb 0 streak && Z.eqb (Z.rem streak 7) 0
                then Some ("🎉 " +:+ number_to_string streak
                           +:+ " day streak! Keep it up!")
                else None)
      | Builtin _ => None
      end
  | _ => None
  end.

(** At most one write of the state is pending, and the planner holds its
    timer. *)
Definition one_pending_save (w : Window) (p : Planner) : Prop :=
  timers w = []
  ∨ ∃ id, timers w = [(id, 500)] ∧ saveDebounceTimer p = Some id.
End Session.

(** [completedReadings[id]], as the render methods test it. *)
Definition reading_completed (c : list (string * value)) (id : string) : bool :=
  result_truthy (props_read c id).

(** A visit in which one reading is ticked and the write that follows is
    still pending, and the same visit once the write has run. *)
Definition ticked_visit : @Window (map_storage 4096) * Planner :=
  toggleReading fresh_window (Planner_new fresh_window) "chrono-meskerem-1".


(** A planner with seven readings marked complete. *)
Definition seven_completed : Planner :=
  with_state (@Planner_new (map_storage 4096) fresh_window)
    (VObj [("completedReadings", VObj (completed_map 7))]).

(** ** StorageManager: clearing, and sequences of calls *)

(** [window.storage.list(prefix)]: the record of the keys that start with
    the prefix, if the call resolves with one. *)
Class WindowStorageList `{WindowStorage} : Type := {
  storage_list : native_store → string → option (list string)
}.

(** The calls made on a storage manager. *)
Inductive storage_call : Type :=
  | CallSet (key : string) (v : value)
  | CallDelete (key : string)
  | CallClear.

Section StorageCalls.
Context `{Js : !JSON, Ws : !WindowStorage, Wl : !WindowStorageList}.

(** [clear()]: the native path deletes the keys listed under the prefix
    ['bible-planner-'], the memory path starts a new object. *)
Definition StorageManager_clear (win : option native_store)
    (sm : StorageManager) : option native_store * StorageManager * bool :=
  if useNativeStorage sm then
    match win with
    | Some st =>
        match storage_list st "bible-planner-" with
        | Some keys => (Some (foldl storage_delete st keys), sm, true)
        | None => (Some st, sm, false)
        end
    | None => (None, sm, false)
    end
  else
    (win,
     {| useNativeStorage := useNativeStorage sm;
        memoryStorage := empty_object |},
     true).

Definition storage_run (win : option native_store) (sm : StorageManager)
    (call : storage_call) : option native_store * StorageManager :=
  match call with
  | CallSet key v => (StorageManager_set win sm key v).1
  | CallDelete key => (StorageManager_delete win sm key).1
  | CallClear => (StorageManager_clear win sm).1
  end.

Definition storage_run_all (win : option native_store) (sm : StorageManager)
    (calls : list storage_call) : option native_store * StorageManager :=
  foldl (fun s call => storage_run s.1 s.2 call) (win, sm) calls.
End StorageCalls.

(** What [clear] relies on from the host: the list has the keys with
    the prefix that hold a record, and a deleted key holds none, the
    others what they held. *)
Definition storage_lists `{WindowStorageList} : Prop :=
  ∀ st prefix,
    ∃ keys, storage_list st prefix = Some keys
            ∧ ∀ k, k ∈ keys
                   ↔ String.prefix prefix k = true ∧ is_Some (storage_get st k).

Definition storage_forgets `{WindowStorage} : Prop :=
  ∀ st k k',
    storage_get (storage_delete st k) k'
    = if String.eqb k k' then None else storage_get st k'.

(** The same calls on a finite map. *)
Definition map_call (m : gmap string value) (call : storage_call)
  : gmap string value :=
  match call with
  | CallSet key v => <[key := v]> m
  | CallDelete key => delete key m
  | CallClear => ∅
  end.

(** What [get] should answer from a map: the value under the key unless
    it is missing or [undefined]. *)
Definition map_get (m : gmap string value) (key : string) (d : value) : value :=
  match m !! key with
  | Some v => if is_undefined v then d else v
  | None => d
  end.

Definition sets_proto (call : storage_call) : bool :=
  match call with
  | CallSet key _ => String.eqb key "__proto__"
  | _ => false
  end.

(** The keys that [Object.prototype] does not answer for. *)
Definition ordinary_key (key : string) : bool :=
  negb (String.eqb key "__proto__")
  && bool_decide (key ∉ Object_prototype_names).

(** A host that lists the keys of its store. *)
Definition map_storage_list (limit : nat) : @WindowStorageList (map_storage limit) :=
  @Build_WindowStorageList (map_storage limit)
    (fun (st : gmap string string) prefix =>
       Some (filter (fun k => String.prefix prefix k = true)
                    (elements (dom st)))).

Definition sample_calls : list storage_call :=
  [CallSet "plan" (VStr "nt90"); CallSet "toString" (VNum 1);
   CallDelete "plan"; CallSet "plan" (VStr "chronological");
   CallClear; CallSet "days" (VNum 90); CallDelete "constructor"].

(** The manager of a host without a store, after the sample calls. *)
Definition memory_manager : StorageManager :=
  @StorageManager_new (map_storage 4096) None.

Definition sample_store : option (gmap string string) * StorageManager :=
  @storage_run_all JsonText.codec (map_storage 4096) (map_storage_list 4096)
    None memory_manager sample_calls.

(** A host store with the planner's record and the record of another
    application. *)
Definition shared_window : @Window (map_storage 4096) :=
  {| storage_api :=
       Some (host_store 4096 {[ state_key := earlier_text;
                                "other-app" := "kept" ]});
     timers := []; next_timer := 1%positive |}.

(** ** Swipes *)

(** The tabs that [handleSwipe] walks through. *)
Definition tabs : list string := ["calendar"; "reading"; "discipleship"].

(** [tabs.indexOf(v)]: the position of the first element strictly equal
    to [v], -1 without one. *)
Definition indexOf (l : list string) (r : js_result) : Z :=
  match r with
  | Val (VStr s) =>
      match list_find (fun t => t = s) l with
      | Some (i, _) => Z.of_nat i
      | None => -1
      end
  | _ => -1
  end.

(** [tabs[i]] *)
Definition tab_at (i : Z) : value :=
  if Z.ltb i 0 then VUndefined
  else match tabs !! Z.to_nat i with
       | Some t => VStr t
       | None => VUndefined
       end.

Section Swipe.
Context `{Ws : !WindowStorage}.

(** [handleSwipe()], with the two coordinates that the touch handlers
    stored in [touchStartX] and [touchEndX]; reading the tab of a released
    state throws. *)
Definition handleSwipe (w : Window) (p : Planner)
    (touchStartX touchEndX : float) : Window * Planner :=
  let swipeThreshold := 50%float in
  let diff := PrimFloat.sub touchStartX touchEndX in
  if PrimFloat.ltb (PrimFloat.abs diff) swipeThreshold then (w, p)
  else
    match state p with
    | VObj o =>
        let currentIndex := indexOf tabs (props_read o "activeTab") in
        if PrimFloat.ltb 0%float diff
           && Z.ltb currentIndex (Z.of_nat (length tabs) - 1)
        then setState w p (VObj [("activeTab", tab_at (currentIndex + 1))])
        else if PrimFloat.ltb diff 0%float && Z.ltb 0 currentIndex
        then setState w p (VObj [("activeTab", tab_at (currentIndex - 1))])
        else (w, p)
    | _ => (w, p)
    end.
End Swipe.

(** ** Export and import of the progress *)

(** The code units of a text for [btoa]. The strings of this development
    hold the UTF-8 bytes of a text: a byte below 80 is an ASCII character,
    the two-byte sequences that start with C2 or C3 are the characters
    U+0080 to U+00FF, and every other sequence is a character that [btoa]
    refuses. *)
Fixpoint latin1_of_utf8 (s : list ascii) : option (list N) :=
  match s with
  | [] => Some []
  | c :: r =>
      let n := N_of_ascii c in
      if N.ltb n 128 then cons n <$> latin1_of_utf8 r
      else
        match r with
        | c2 :: r2 =>
            let n2 := N_of_ascii c2 in
            if N.eqb n 194 && N.leb 128 n2 && N.ltb n2 192
            then cons n2 <$> latin1_of_utf8 r2
            else if N.eqb n 195 && N.leb 128 n2 && N.ltb n2 192
            then cons (n2 + 64)%N <$> latin1_of_utf8 r2
            else None
        | [] => None
        end
  end.

Definition base64_digit (n : N) : ascii :=
  if N.ltb n 26 then ascii_of_N (65 + n)
  else if N.ltb n 52 then ascii_of_N (71 + n)
  else if N.ltb n 62 then ascii_of_N (n - 4)
  else if N.eqb n 62 then "+"%char
  else "/"%char.

(** Base64 with padding: three bytes give four digits. *)
Fixpoint base64 (bytes : list N) : list ascii :=
  match bytes with
  | a :: b :: c :: r =>
      base64_digit (N.shiftr a 2)
      :: base64_digit (N.lor (N.shiftl (N.land a 3) 4) (N.shiftr b 4))
      :: base64_digit (N.lor (N.shiftl (N.land b 15) 2) (N.shiftr c 6))
      :: base64_digit (N.land c 63)
      :: base64 r
  | [a; b] =>
      [base64_digit (N.shiftr a 2);
       base64_digit (N.lor (N.shiftl (N.land a 3) 4) (N.shiftr b 4));
       base64_digit (N.shiftl (N.land b 15) 2);
       "="%char]
  | [a] =>
      [base64_digit (N.shiftr a 2);
       base64_digit (N.shiftl (N.land a 3) 4);
       "="%char; "="%char]
  | [] => []
  end.

(** [btoa(s)]; it throws on a character above U+00FF. *)
Definition btoa (s : string) : option string :=
  bytes ← latin1_of_utf8 (list_ascii_of_string s);
  Some (string_of_list_ascii (base64 bytes)).

(** [s.slice(0, n)] on a text of ASCII characters. *)
Definition slice_to (n : nat) (s : string) : string :=
  string_of_list_ascii (take n (list_ascii_of_string s)).

(** [JSON.stringify(v, null, n)]: the text on several lines, indented. *)
Class JSONIndent : Type := {
  JSON_stringify_indent : value → nat → option string
}.

(** [v === s] for a string [s]. *)
Definition strict_equal_string (v : value) (s : string) : bool :=
  match v with
  | VStr t => String.eqb t s
  | _ => false
  end.

Section ProgressExport.
Context `{Js : !JSON, Ji : !JSONIndent, Ws : !WindowStorage}.

(** [generateChecksum(data)]; [JSON.stringify] answers [undefined] for
    [undefined], which [btoa] reads as the text of that name. *)
Definition generateChecksum (data : value) : option string :=
  encoded ← btoa (default "undefined" (JSON_stringify data));
  Some (slice_to 32 encoded).

(** The object that [exportProgress()] builds, [now] being the text of
    [new Date().toISOString()]; a released state and a completion map
    that [btoa] refuses make it throw. *)
Definition exportProgress_data (p : Planner) (now : string) : option value :=
  match state p with
  | VObj _ =>
      checksum ← generateChecksum (data_field (state p) "completedReadings");
      Some (VObj [("completedReadings", data_field (state p) "completedReadings");
                  ("selectedMonth", data_field (state p) "selectedMonth");
                  ("selectedPlan", data_field (state p) "selectedPlan");
                  ("expandedWeeks", data_field (state p) "expandedWeeks");
                  ("timestamp", VStr now);
                  ("version", VStr "3.0");
                  ("checksum", VStr checksum)])
  | _ => None
  end.

(** [exportProgress()]: the text of the file offered for download. *)
Definition exportProgress (p : Planner) (now : string) : option string :=
  data ← exportProgress_data p now;
  JSON_stringify_indent data 2.

(** The checksum test of [importProgress]: the import goes on when the
    checksum of the file is the one computed from its completion map, or
    else when the user confirms; it stops when the checksum cannot be
    computed. *)
Definition import_proceeds (data : value) (confirmed : bool) : bool :=
  match generateChecksum (data_field data "completedReadings") with
  | Some checksum =>
      if strict_equal_string (data_field data "checksum") checksum then true
      else confirmed
  | None => false
  end.

(** [importProgress(file)] on the text of the file and the answer the
    user would give to the dialog. *)
Definition importProgress_file (w : Window) (p : Planner) (text : string)
    (confirmed : bool) : Window * Planner :=
  importProgress w p text
    (match JSON_parse text with
     | Some data => import_proceeds data confirmed
     | None => false
     end).
End ProgressExport.

(** The four fields that an export carries. *)
Definition exported_fields : list string :=
  ["completedReadings"; "selectedMonth"; "selectedPlan"; "expandedWeeks"].

(** The first [n] code units of a text, when [btoa] accepts it. *)
Definition code_units_to (n : nat) (text : string) : option (list N) :=
  take n <$> latin1_of_utf8 (list_ascii_of_string text).

Module JsonIndentText.
Import JsonText.

Definition newline : ascii := "010"%char.

Fixpoint join_lines (sep : list ascii) (parts : list (list ascii)) : list ascii :=
  match parts with
  | [] => []
  | [x] => x
  | x :: r => x ++ ","%char :: sep ++ join_lines sep r
  end.

(** The text of [JSON.stringify(v, null, n)]: a member or an element per
    line, a space after the colon, [gap] more spaces at each level, and
    nothing between the brackets of an empty array or object. *)
Fixpoint print_indent (gap indent : list ascii) (v : value) : list ascii :=
  match v with
  | VArr l =>
      match map (print_indent gap (indent ++ gap)) l with
      | [] => list_ascii_of_string "[]"
      | parts =>
          "["%char :: newline :: (indent ++ gap)
          ++ join_lines (newline :: indent ++ gap) parts
          ++ newline :: indent ++ ["]"%char]
      end
  | VObj o =>
      match concat (map (fun '(k, x) =>
                           if is_undefined x then []
                           else [quote (list_ascii_of_string k)
                                 ++ ":"%char :: " "%char
                                 :: print_indent gap (indent ++ gap) x]) o) with
      | [] => list_ascii_of_string "{}"
      | parts =>
          "{"%char :: newline :: (indent ++ gap)
          ++ join_lines (newline :: indent ++ gap) parts
          ++ newline :: indent ++ ["}"%char]
      end
  | _ => print v
  end.

Definition stringify_indent (v : value) (n : nat) : option string :=
  match v with
  | VUndefined => None
  | _ =>
      Some (string_of_list_ascii
              (if bool_decide (n = 0)%nat then print v
               else print_indent (replicate (n `min` 10)%nat " "%char) [] v))
  end.

Definition printer : JSONIndent :=
  {| JSON_stringify_indent := stringify_indent |}.
End JsonIndentText.

(** The file that the visit with one reading ticked exports, and a file
    in which a second reading was added to the completion map by hand. *)
Definition sample_export : option string :=
  @exportProgress JsonText.codec JsonIndentText.printer
    ticked_visit.2 "2025-09-11T06:00:00.000Z".

Definition edited_readings : value :=
  VObj [("chrono-meskerem-1", VBool true); ("chrono-meskerem-2", VBool true)].

Definition sample_export_data : option value :=
  @exportProgress_data JsonText.codec ticked_visit.2 "2025-09-11T06:00:00.000Z".

Definition ticked_readings : value := VObj [("chrono-meskerem-1", VBool true)].

(** ** debounce and throttle *)

(** The host's pending timers, each with its delay and what its callback
    holds; identifiers are never reused. *)
Record TimerQueue (C : Type) : Type := {
  pending : list (positive * Z * C);
  next_id : positive
}.
Arguments pending {C} _.
Arguments next_id {C} _.

(** What happens to a debounced or throttled function: it is called, or
    time passes and the host runs the callbacks of the pending timers. *)
Inductive timing_event (A : Type) : Type :=
  | Invoke (args : A)
  | Elapse.
Arguments Invoke {A} _.
Arguments Elapse {A}.

Section Timing.
Context {A C : Type}.

Definition no_timers : TimerQueue C := {| pending := []; next_id := 1%positive |}.

Definition set_timeout (h : TimerQueue C) (callback : C) (delay : Z)
  : TimerQueue C * positive :=
  ({| pending := pending h ++ [(next_id h, delay, callback)];
      next_id := Pos.succ (next_id h) |},
   next_id h).

(** [clearTimeout(id)]; [undefined] names no timer. *)
Definition clear_timeout (h : TimerQueue C) (id : option positive) : TimerQueue C :=
  match id with
  | Some id => {| pending := filter (fun t => t.1.1 ≠ id) (pending h);
                  next_id := next_id h |}
  | None => h
  end.

(** The callback of the pending timer [id]. *)
Definition timer_callback (h : TimerQueue C) (id : positive) : option C :=
  match list_find (fun t => t.1.1 = id) (pending h) with
  | Some (_, t) => Some t.2
  | None => None
  end.
End Timing.

Section Debounce.
Context {A : Type}.

(** The function that [debounce(func, wait)] returns, called with
    [args]: the timer of the call before is cleared and a new one set,
    whose callback [later] holds the arguments. *)
Definition debounce_call (wait : Z) (h : TimerQueue A) (timeout : option positive)
    (args : A) : TimerQueue A * option positive :=
  let h1 := clear_timeout h timeout in
  let '(h2, id) := set_timeout h1 args wait in
  (h2, Some id).

(** The timer [id] expires: the host drops it and runs [later], which
    clears [timeout] and calls [func] with the arguments it holds. *)
Definition debounce_expire (h : TimerQueue A) (timeout : option positive)
    (id : positive) : TimerQueue A * list A :=
  match timer_callback h id with
  | Some args => (clear_timeout (clear_timeout h (Some id)) timeout, [args])
  | None => (h, [])
  end.

(** The state of a debounced function and the calls of [func] so far. *)
Record debounced : Type := {
  debounce_timers : TimerQueue A;
  debounce_timeout : option positive;
  debounce_calls : list A
}.

Definition debounce_step (wait : Z) (s : debounced) (e : timing_event A)
  : debounced :=
  match e with
  | Invoke args =>
      let '(h, timeout) :=
        debounce_call wait (debounce_timers s) (debounce_timeout s) args in
      {| debounce_timers := h; debounce_timeout := timeout;
         debounce_calls := debounce_calls s |}
  | Elapse =>
      foldl (fun s id =>
               let '(h, calls) :=
                 debounce_expire (debounce_timers s) (debounce_timeout s) id in
               {| debounce_timers := h; debounce_timeout := debounce_timeout s;
                  debounce_calls := debounce_calls s ++ calls |})
            s (pending (debounce_timers s)).*1.*1
  end.

Definition debounce_run (wait : Z) (events : list (timing_event A)) : debounced :=
  foldl (debounce_step wait)
        {| debounce_timers := no_timers; debounce_timeout := None;
           debounce_calls := [] |}
        events.

(** The function that [throttle(func, limit)] returns, called with
    [args]: outside a throttle it calls [func], which is taken to return,
    and sets the one timer whose callback ends the throttle. *)
Definition throttle_call (limit : Z) (h : TimerQueue unit) (inThrottle : bool)
    (args : A) : TimerQueue unit * bool * list A :=
  if negb inThrottle
  then ((set_timeout h () limit).1, true, [args])
  else (h, inThrottle, []).

Definition throttle_expire (h : TimerQueue unit) (inThrottle : bool)
    (id : positive) : TimerQueue unit * bool :=
  match timer_callback h id with
  | Some _ => (clear_timeout h (Some id), false)
  | None => (h, inThrottle)
  end.

Record throttled : Type := {
  throttle_timers : TimerQueue unit;
  throttle_inThrottle : bool;
  throttle_calls : list A
}.

Definition throttle_step (limit : Z) (s : throttled) (e : timing_event A)
  : throttled :=
  match e with
  | Invoke args =>
      let '(h, inThrottle, calls) :=
        throttle_call limit (throttle_timers s) (throttle_inThrottle s) args in
      {| throttle_timers := h; throttle_inThrottle := inThrottle;
         throttle_calls := throttle_calls s ++ calls |}
  | Elapse =>
      foldl (fun s id =>
               let '(h, inThrottle) :=
                 throttle_expire (throttle_timers s) (throttle_inThrottle s) id in
               {| throttle_timers := h; throttle_inThrottle := inThrottle;
                  throttle_calls := throttle_calls s |})
            s (pending (throttle_timers s)).*1.*1
  end.

Definition throttle_run (limit : Z) (events : list (timing_event A)) : throttled :=
  foldl (throttle_step limit)
        {| throttle_timers := no_timers; throttle_inThrottle := false;
           throttle_calls := [] |}
        events.

(** The calls that reach [func] through a debounced function: of each run
    of calls that time ends, the last one. *)
Fixpoint trailing_calls (latest : option A) (events : list (timing_event A))
  : list A :=
  match events with
  | [] => []
  | Invoke args :: r => trailing_calls (Some args) r
  | Elapse :: r =>
      match latest with
      | Some args => args :: trailing_calls None r
      | None => trailing_calls None r
      end
  end.

(** The calls that reach [func] through a throttled function: the first
    one, and the first one after each time the delay has passed. *)
Fixpoint leading_calls (open : bool) (events : list (timing_event A)) : list A :=
  match events with
  | [] => []
  | Invoke args :: r =>
      if open then args :: leading_calls false r else leading_calls open r
  | Elapse :: r => leading_calls true r
  end.

(** What a debounced function holds between two events: no timer, or the
    one timer of the latest call. *)
Definition debounce_holds (wait : Z) (s : debounced) (latest : option A) : Prop :=
  match latest with
  | None => pending (debounce_timers s) = []
  | Some args =>
      ∃ id, pending (debounce_timers s) = [(id, wait, args)]
            ∧ debounce_timeout s = Some id
  end.

(** What a throttled function holds between two events: outside a
    throttle no timer, inside one the timer that ends it. *)
Definition throttle_holds (limit : Z) (s : throttled) (open : bool) : Prop :=
  if open
  then throttle_inThrottle s = false ∧ pending (throttle_timers s) = []
  else throttle_inThrottle s = true
       ∧ ∃ id, pending (throttle_timers s) = [(id, limit, ())].
End Debounce.

(** ** Patterns and form fields *)

(** The text of a form field is the list of its UTF-16 code units,
    which is what a pattern without the [u] flag, [trim] and [includes]
    work on. [code_units] gives the code units of a text of ASCII
    characters, such as the literals of the code. *)
Definition code_units (s : string) : list N :=
  N_of_ascii <$> list_ascii_of_string s.

(** [\s], and what [trim] removes: white space and line terminators. *)
Definition is_space (c : N) : bool :=
  bool_decide (c ∈ [9; 10; 11; 12; 13; 32; 160; 5760; 8232; 8233; 8239; 8287;
                    12288; 65279]%N)
  || N.leb 8192 c && N.leb c 8202.

(** [.] without the [s] flag: anything but a line terminator. *)
Definition is_dot (c : N) : bool :=
  negb (bool_decide (c ∈ [10; 13; 8232; 8233]%N)).

Definition is_digit (c : N) : bool := N.leb 48 c && N.leb c 57.

Definition is_letter (c : N) : bool :=
  N.leb 97 c && N.leb c 122 || N.leb 65 c && N.leb c 90.

(** [[^\s@]] *)
Definition is_address_unit (c : N) : bool := negb (is_space c || N.eqb c 64).

(** [[a-zA-Z\s]] *)
Definition is_name_unit (c : N) : bool := is_letter c || is_space c.

(** The patterns of the code, between [^] and [$]: a class of code
    units, a sequence, an alternative, [*], and [{min,max}] on a class. *)
Inductive regex : Type :=
  | Never
  | Eps
  | Class (p : N → bool)
  | Seq (r1 r2 : regex)
  | Alt (r1 r2 : regex)
  | Star (r : regex)
  | Repeat (p : N → bool) (min extra : nat).

Definition Plus (r : regex) : regex := Seq r (Star r).
Definition Opt (r : regex) : regex := Alt r Eps.
Definition Char (c : N) : regex := Class (N.eqb c).

Fixpoint Literal (s : list N) : regex :=
  match s with
  | [] => Eps
  | c :: r => Seq (Char c) (Literal r)
  end.

Fixpoint nullable (r : regex) : bool :=
  match r with
  | Never | Class _ => false
  | Eps | Star _ => true
  | Seq r1 r2 => nullable r1 && nullable r2
  | Alt r1 r2 => nullable r1 || nullable r2
  | Repeat _ min _ => bool_decide (min = 0)%nat
  end.

(** What is left of a pattern after the code unit [c]. *)
Fixpoint derivative (c : N) (r : regex) : regex :=
  match r with
  | Never | Eps => Never
  | Class p => if p c then Eps else Never
  | Seq r1 r2 =>
      if nullable r1
      then Alt (Seq (derivative c r1) r2) (derivative c r2)
      else Seq (derivative c r1) r2
  | Alt r1 r2 => Alt (derivative c r1) (derivative c r2)
  | Star r1 => Seq (derivative c r1) (Star r1)
  | Repeat p min extra =>
      if p c then
        match min, extra with
        | S m, _ => Repeat p m extra
        | O, S e => Repeat p O e
        | O, O => Never
        end
      else Never
  end.

(** [/^r$/.test(s)] *)
Definition RegExp_test (r : regex) (s : list N) : bool :=
  nullable (foldl (fun r c => derivative c r) r s).

(** The texts of a pattern. *)
Inductive lang : regex → list N → Prop :=
  | lang_eps : lang Eps []
  | lang_class p c : p c = true → lang (Class p) [c]
  | lang_seq r1 r2 s1 s2 : lang r1 s1 → lang r2 s2 → lang (Seq r1 r2) (s1 ++ s2)
  | lang_alt_l r1 r2 s : lang r1 s → lang (Alt r1 r2) s
  | lang_alt_r r1 r2 s : lang r2 s → lang (Alt r1 r2) s
  | lang_star_nil r : lang (Star r) []
  | lang_star_more r s1 s2 :
      lang r s1 → lang (Star r) s2 → lang (Star r) (s1 ++ s2)
  | lang_repeat p min extra s :
      Forall (fun c => p c = true) s →
      (min ≤ length s ≤ min + extra)%nat →
      lang (Repeat p min extra) s.

(** [/^[^\s@]+@[^\s@]+\.[^\s@]+$/] *)
Definition email_pattern : regex :=
  Seq (Plus (Class is_address_unit))
      (Seq (Char 64)
           (Seq (Plus (Class is_address_unit))
                (Seq (Char 46) (Plus (Class is_address_unit))))).

(** [/^(\+251|0)?[9][0-9]{8}$/] *)
Definition phone_pattern : regex :=
  Seq (Opt (Alt (Literal (code_units "+251")) (Literal (code_units "0"))))
      (Seq (Char 57) (Repeat is_digit 8 0)).

(** [/^[a-zA-Z\s]{2,50}$/] *)
Definition name_pattern : regex := Repeat is_name_unit 2 48.

(** [/^.{10,1000}$/] *)
Definition message_pattern : regex := Repeat is_dot 10 990.

(** [Utils.isValidEmail(email)] *)
Definition isValidEmail (email : list N) : bool := RegExp_test email_pattern email.

(** [s.trim()] *)
Fixpoint trim_start (s : list N) : list N :=
  match s with
  | c :: r => if is_space c then trim_start r else s
  | [] => []
  end.

Definition trim (s : list N) : list N := reverse (trim_start (reverse (trim_start s))).

(** [s.replace(/\s/g, '')] *)
Definition remove_spaces (s : list N) : list N :=
  filter (fun c => is_space c = false) s.

Fixpoint starts_with (prefix s : list N) : bool :=
  match prefix, s with
  | [], _ => true
  | a :: p, b :: r => N.eqb a b && starts_with p r
  | _ :: _, [] => false
  end.

(** [s.includes(part)] *)
Fixpoint includes (s part : list N) : bool :=
  starts_with part s
  || match s with
     | [] => false
     | _ :: r => includes r part
     end.

(** What [validateField] reads of a form control: its value, its type
    and name, whether it has the attribute [required], and its attribute
    [data-validate] if it has one. *)
Record form_field : Type := {
  field_value : list N;
  field_type : list N;
  field_name : list N;
  field_required : bool;
  field_validate : option (list N)
}.

(** [FormValidator.validateField(field)]: the message of [showError] when
    it answers [false], none when it clears the error and answers
    [true]. *)
Definition validateField (field : form_field) : option string :=
  let value := trim (field_value field) in
  let type := if bool_decide (field_type field = []) then field_validate field
              else Some (field_type field) in
  let isRequired := field_required field in
  let empty := bool_decide (value = []) in
  if isRequired && empty then Some "This field is required"
  else if empty && negb isRequired then None
  else if bool_decide (type = Some (code_units "email"))
          && negb (RegExp_test email_pattern value)
  then Some "Please enter a valid email address"
  else if bool_decide (type = Some (code_units "tel"))
          && negb (RegExp_test phone_pattern (remove_spaces value))
  then Some "Enter a valid Ethiopian phone number (e.g., 0912345678)"
  else if (includes (field_name field) (code_units "name")
           || bool_decide (field_validate field = Some (code_units "name")))
          && negb (RegExp_test name_pattern value)
  then Some "Name should be 2-50 characters, letters only"
  else if (bool_decide (field_type field = code_units "textarea")
           || bool_decide (field_validate field = Some (code_units "message")))
          && negb (RegExp_test message_pattern value)
  then Some "Message should be 10-1000 characters"
  else None.

(** [FormValidator.validateAll()] on the fields that the form selects. *)
Definition validateAll (fields : list form_field) : bool :=
  forallb (fun field => bool_decide (validateField field = None)) fields.


(** Sample fields: a telephone number typed with spaces, a message on
    one line, and an e-mail field whose name contains [name]. *)
Definition phone_field : form_field :=
  {| field_value := code_units " 0912 345 678 ";
     field_type := code_units "tel";
     field_name := code_units "phone";
     field_required := true;
     field_validate := None |}.


Definition username_field : form_field :=
  {| field_value := code_units "hana@example.org";
     field_type := code_units "email";
     field_name := code_units "username";
     field_required := true;
     field_validate := None |}.

Definition blank_field : form_field :=
  {| field_value := code_units "   ";
     field_type := code_units "email";
     field_name := code_units "email";
     field_required := true;
     field_validate := None |}.

(** ** The most active month *)

(** [s.split(sep)] for a separator of one ASCII character: the pieces
    between the separators, one more than there are separators. *)
Fixpoint split_on (sep : ascii) (s : list ascii) : list (list ascii) :=
  match s with
  | [] => [[]]
  | c :: r =>
      if Ascii.eqb c sep then [] :: split_on sep r
      else match split_on sep r with
           | piece :: pieces => (c :: piece) :: pieces
           | [] => [[c]]
           end
  end.

(** [key.split('-')[1] || 'unknown'] *)
Definition month_of (key : string) : string :=
  match split_on "-" (list_ascii_of_string key) !! 1%nat with
  | Some (c :: piece) => string_of_list_ascii (c :: piece)
  | _ => "unknown"
  end.

(** A property name that is an array index: the decimal text, without a
    leading zero, of an integer below 2^32 - 1. An object lists such names
    first, in ascending order, and the others after them in the order in
    which they were added. *)
Definition array_index (k : string) : option N :=
  let s := list_ascii_of_string k in
  let '(u, rest) := read_uint s in
  if bool_decide (rest = []) && Decimal.uint_beq (Decimal.unorm u) u
     && N.ltb (N.of_uint u) 4294967295
  then Some (N.of_uint u)
  else None.

(** What [monthCounts] holds under a month: a number, or the text that
    [+ 1] makes of a built-in property of [Object.prototype] (it starts
    with [function] or with [[object], and no comparison takes it for a
    number). *)
Inductive month_count : Type :=
  | Count (n : Z)
  | CountText.

Section OrderedObject.
Context {T : Type}.

Fixpoint own_lookup (o : list (string * T)) (k : string) : option T :=
  match o with
  | [] => None
  | (k', v) :: r => if String.eqb k k' then Some v else own_lookup r k
  end.

Fixpoint replace_own (o : list (string * T)) (k : string) (v : T)
  : list (string * T) :=
  match o with
  | [] => []
  | (k', v') :: r =>
      if String.eqb k k' then (k, v) :: r else (k', v') :: replace_own r k v
  end.

(** The place of a new array index [i] among the properties. *)
Fixpoint insert_index (o : list (string * T)) (i : N) (k : string) (v : T)
  : list (string * T) :=
  match o with
  | [] => [(k, v)]
  | (k', v') :: r =>
      match array_index k' with
      | Some j =>
          if N.ltb j i then (k', v') :: insert_index r i k v
          else (k, v) :: (k', v') :: r
      | None => (k, v) :: (k', v') :: r
      end
  end.

(** Defining the own property [k] of an object. *)
Definition define_own (o : list (string * T)) (k : string) (v : T)
  : list (string * T) :=
  match own_lookup o k with
  | Some _ => replace_own o k v
  | None =>
      match array_index k with
      | Some i => insert_index o i k v
      | None => o ++ [(k, v)]
      end
  end.
End OrderedObject.

(** [monthCounts[month] = (monthCounts[month] || 0) + 1] on the object
    [monthCounts], which starts as [{}]: a read of a name that the object
    does not own goes to [Object.prototype], and an assignment to
    ['__proto__'] defines nothing. *)
Definition count_month (monthCounts : list (string * month_count))
    (month : string) : list (string * month_count) :=
  let next :=
    match own_lookup monthCounts month with
    | Some (Count n) => Count (if Z.eqb n 0 then 1 else n + 1)
    | Some CountText => CountText
    | None => if ordinary_key month then Count 1 else CountText
    end in
  if String.eqb month "__proto__" && bool_decide (own_lookup monthCounts month = None)
  then monthCounts
  else define_own monthCounts month next.

(** The second loop of [getMostActiveMonth]: the callback keeps the
    month met so far with the highest count and takes a month whose count
    is above it. *)
Definition better_month (best : option string * Z)
    (entry : string * month_count) : option string * Z :=
  match entry.2 with
  | Count n => if Z.ltb best.2 n then (Some entry.1, n) else best
  | CountText => best
  end.

Definition max_month (monthCounts : list (string * month_count))
  : option string * Z :=
  foldl better_month (None, 0) monthCounts.

(** [getMostActiveMonth(completedReadings)]; [None] inside stands for
    [null]. *)
Definition getMostActiveMonth (completedReadings : value)
  : option (option string) :=
  entries ← Object_entries completedReadings;
  let monthCounts :=
    foldl (fun counts entry =>
             if truthy entry.2 then count_month counts (month_of entry.1)
             else counts)
          [] entries in
  Some (max_month monthCounts).1.

(** The number of completed readings of a month in a completion map. *)
Definition month_tally (c : list (string * value)) (month : string) : Z :=
  Z.of_nat (length (filter (fun e => truthy e.2 = true ∧ month_of e.1 = month) c)).

(** What [monthCounts] holds once the readings [l] are counted. *)
Definition counted (counts : list (string * month_count))
    (l : list (string * value)) : Prop :=
  NoDup counts.*1
  ∧ ∀ month,
      if ordinary_key month
      then own_lookup counts month
           = if Z.eqb (month_tally l month) 0 then None
             else Some (Count (month_tally l month))
      else own_lookup counts month = None
           ∨ own_lookup counts month = Some CountText.

(** A completion map with readings of two months and of the 90-day
    plan. *)
Definition mixed_readings : list (string * value) :=
  [("chrono-tir-17", VBool true); ("nt90-3", VBool true);
   ("chrono-meskerem-1", VBool true); ("chrono-tir-18", VBool true);
   ("chrono-meskerem-2", VBool false); ("nt90-3-day-24", VBool true);
   ("nt90-3-day-25", VBool true)].

(** ** UIManager: the message on the page *)

(** The two kinds of message that the planner shows. *)
Inductive message_type : Type := MessageSuccess | MessageError.

(** The manager with the page and the timers it works on: [notices] are
    the elements of the document with the class [success-message] or
    [error-message], in document order, each with the text it shows. *)
Record UIManager : Type := {
  messageTimeout : option positive;
  notices : list (message_type * string);
  message_timers : TimerQueue unit
}.

(** [new UIManager()] on a page without messages and timers. *)
Definition UIManager_new : UIManager :=
  {| messageTimeout := None; notices := []; message_timers := no_timers |}.

(** [clearMessage()] *)
Definition clearMessage (ui : UIManager) : UIManager :=
  {| messageTimeout := None;
     notices := [];
     message_timers := clear_timeout (message_timers ui) (messageTimeout ui) |}.

(** [showMessage(message, type)] *)
Definition showMessage (ui : UIManager) (message : string) (type : message_type)
  : UIManager :=
  let ui1 := clearMessage ui in
  let '(timers, id) := set_timeout (message_timers ui1) () 5000 in
  {| messageTimeout := Some id;
     notices := notices ui1 ++ [(type, message)];
     message_timers := timers |}.

Definition showSuccessMessage (ui : UIManager) (message : string) : UIManager :=
  showMessage ui message MessageSuccess.

Definition showErrorMessage (ui : UIManager) (message : string) : UIManager :=
  showMessage ui message MessageError.

(** [destroy()] of the manager. *)
Definition UIManager_destroy (ui : UIManager) : UIManager := clearMessage ui.

(** The timer [id] expires: the host drops it and runs its callback,
    [clearMessage]. *)
Definition message_expires (ui : UIManager) (id : positive) : UIManager :=
  match timer_callback (message_timers ui) id with
  | Some _ =>
      clearMessage
        {| messageTimeout := messageTimeout ui; notices := notices ui;
           message_timers := clear_timeout (message_timers ui) (Some id) |}
  | None => ui
  end.

(** What happens to the manager: a message is shown, the timers that are
    pending expire, or the manager is destroyed. *)
Inductive ui_event : Type :=
  | ShowSuccess (message : string)
  | ShowError (message : string)
  | TimersExpire
  | DestroyManager.

Definition ui_step (ui : UIManager) (e : ui_event) : UIManager :=
  match e with
  | ShowSuccess message => showSuccessMessage ui message
  | ShowError message => showErrorMessage ui message
  | TimersExpire =>
      foldl message_expires ui (pending (message_timers ui)).*1.*1
  | DestroyManager => UIManager_destroy ui
  end.

Definition ui_run (events : list ui_event) : UIManager :=
  foldl ui_step UIManager_new events.

(** The message that should be on the page: the last one shown, unless
    its five seconds have passed or the manager was destroyed since. *)
Definition visible_after (shown : list (message_type * string)) (e : ui_event)
  : list (message_type * string) :=
  match e with
  | ShowSuccess message => [(MessageSuccess, message)]
  | ShowError message => [(MessageError, message)]
  | TimersExpire | DestroyManager => []
  end.

(** The manager shows [shown], and the only timer is that of the message
    shown. *)
Definition ui_holds (ui : UIManager) (shown : list (message_type * string)) : Prop :=
  notices ui = shown
  ∧ match shown with
    | [] => pending (message_timers ui) = []
    | _ :: _ =>
        ∃ id, pending (message_timers ui) = [(id, 5000, ())]
              ∧ messageTimeout ui = Some id
    end.

(** ** Pages and links *)

(** [Utils.getCurrentPage()], from [window.location.pathname]. *)
Definition getCurrentPage (pathname : string) : string :=
  let page :=
    match last (split_on "/" (list_ascii_of_string pathname)) with
    | Some (c :: piece) => string_of_list_ascii (c :: piece)
    | _ => "index.html"
    end in
  if String.eqb page "" then "index.html" else page.

(** [Utils.isHomePage()] *)
Definition isHomePage (pathname : string) : bool :=
  let currentPage := getCurrentPage pathname in
  String.eqb currentPage "index.html" || String.eqb currentPage "".

(** [Performance.shouldPrefetch(href)], with [window.location.pathname]. *)
Definition shouldPrefetch (href pathname : string) : bool :=
  negb (String.prefix "http" href)
  && negb (String.prefix "#" href)
  && negb (String.prefix "mailto:" href)
  && negb (String.prefix "tel:" href)
  && negb (String.eqb href pathname).

(** ** The messages of a toggle *)

Section ToggleMessages.
Context `{Ws : !WindowStorage, Lc : !Locale}.

End ToggleMessages.


(** A planner with six readings marked complete. *)
Definition six_completed : Planner :=
  with_state (@Planner_new (map_storage 4096) fresh_window)
    (VObj [("completedReadings", VObj (completed_map 6))]).


(** * Properties *)

(** ** Objects as property lists *)

Lemma obj_get_set_eq o k v : obj_get (obj_set o k v) k = Some v.
Proof.
  induction o as [|[k' v'] r IH]; simpl.
  - by rewrite String.eqb_refl.
  - destruct (String.eqb k k') eqn:E; simpl; rewrite ?String.eqb_refl, ?E; done.
Qed.

Lemma obj_get_set_ne o k k' v : k ≠ k' → obj_get (obj_set o k v) k' = obj_get o k'.
Proof.
  intros Hne. induction o as [|[k0 v0] r IH]; simpl.
  - destruct (String.eqb_spec k' k); congruence.
  - destruct (String.eqb_spec k k0) as [->|]; simpl.
    + destruct (String.eqb_spec k' k0); congruence.
    + by rewrite IH.
Qed.

Lemma obj_get_None o k : obj_get o k = None ↔ k ∉ obj_keys o.
Proof.
  unfold obj_keys. induction o as [|[k0 v0] r IH]; simpl.
  - split; [intros _; apply not_elem_of_nil | done].
  - rewrite not_elem_of_cons. destruct (String.eqb_spec k k0); split; try done.
    + intros []; done.
    + intros; split; [done | by apply IH].
    + intros [_ ?]; by apply IH.
Qed.

Lemma obj_keys_set o k v :
  obj_keys (obj_set o k v)
  = if bool_decide (k ∈ obj_keys o) then obj_keys o else obj_keys o ++ [k].
Proof.
  unfold obj_keys. induction o as [|[k0 v0] r IH]; csimpl.
  - done.
  - destruct (String.eqb_spec k k0) as [->|Hne]; csimpl.
    + by rewrite bool_decide_eq_true_2 by apply list_elem_of_here.
    + rewrite IH. destruct (decide (k ∈ r.*1)).
      * rewrite !bool_decide_eq_true_2; [done | by apply list_elem_of_further | done].
      * rewrite !bool_decide_eq_false_2; [done | | done].
        rewrite not_elem_of_cons. done.
Qed.

Lemma obj_get_assign o src k :
  wf_object src →
  obj_get (obj_assign o src) k
  = match obj_get src k with Some v => Some v | None => obj_get o k end.
Proof.
  unfold obj_assign, wf_object, obj_keys. revert o.
  induction src as [|[k0 v0] r IH]; intros o Hwf; simpl; [done|].
  apply NoDup_cons in Hwf as [Hk0 Hr]. rewrite IH by done.
  destruct (String.eqb_spec k k0) as [->|Hne].
  - assert (obj_get r k0 = None) as -> by by apply obj_get_None.
    apply obj_get_set_eq.
  - destruct (obj_get r k); [done|]. by apply obj_get_set_ne.
Qed.

Lemma obj_assign_app acc o :
  NoDup (obj_keys acc ++ obj_keys o) → obj_assign acc o = acc ++ o.
Proof.
  unfold obj_assign. revert acc. induction o as [|[k v] r IH]; intros acc Hnd; simpl.
  - by rewrite app_nil_r.
  - assert (obj_set acc k v = acc ++ [(k, v)]) as ->.
    { apply NoDup_app in Hnd as (_ & Hdisj & _).
      assert (k ∉ obj_keys acc) as Hk.
      { intros Hin. apply (Hdisj _ Hin). unfold obj_keys. simpl. apply list_elem_of_here. }
      clear -Hk. induction acc as [|[k0 v0] acc IH]; simpl; [done|].
      unfold obj_keys in Hk. simpl in Hk. apply not_elem_of_cons in Hk as [? ?].
      destruct (String.eqb_spec k k0); [done|]. by rewrite IH. }
    rewrite IH; [by rewrite <- app_assoc|].
    unfold obj_keys in *. rewrite fmap_app. simpl in *. by rewrite <- app_assoc.
Qed.

Lemma obj_assign_nil o : wf_object o → obj_assign [] o = o.
Proof. intros. by rewrite obj_assign_app. Qed.
(** ** The JSON text codec reads back what it prints *)

Module JsonTextFacts.
Import JsonText.

Lemma read_uint_chars u rest :
  number_stop rest → read_uint (uint_chars u ++ rest) = (u, rest).
Proof.
  intros Hrest. induction u; simpl; rewrite ?IHu; try done.
  destruct rest as [|c r]; [done|]. simpl. by destruct Hrest as [-> _].
Qed.

Lemma to_uint_normal m : Decimal.unorm (N.to_uint m) = N.to_uint m.
Proof. by rewrite <- Unsigned.to_of, Unsigned.of_to. Qed.

Lemma uint_beq_refl u : Decimal.uint_beq u u = true.
Proof. by apply Decimal.internal_uint_dec_lb. Qed.

Lemma uint_chars_head u :
  u ≠ Decimal.Nil →
  ∃ c r, uint_chars u = c :: r ∧ is_Some (digit_char c) ∧ Ascii.eqb c "-" = false.
Proof. destruct u; [done|..]; intros _; do 2 eexists; split_and!; try done. Qed.

Lemma number_chars_head n :
  ∃ c r, number_chars n = c :: r ∧ number_start c = true.
Proof.
  unfold number_chars. destruct (Z.ltb n 0).
  - by do 2 eexists.
  - destruct (uint_chars_head (N.to_uint (Z.to_N n))) as (c & r & -> & Hd & _).
    + rewrite <- to_uint_normal. apply unorm_nonnil.
    + exists c, r. split; [done|]. unfold number_start.
      by rewrite (bool_decide_eq_true_2 _ Hd), orb_true_r.
Qed.

Lemma read_number_unsigned c r :
  Ascii.eqb c "-" = false →
  read_number (c :: r)
  = let '(u, r') := read_uint (c :: r) in
    if Decimal.uint_beq (Decimal.unorm u) u && ends_number r'
    then Some (Z.of_N (N.of_uint u), r') else None.
Proof. intros Hc. unfold read_number. by rewrite Hc. Qed.

Lemma read_number_chars n rest :
  number_stop rest → read_number (number_chars n ++ rest) = Some (n, rest).
Proof.
  intros Hrest. unfold number_chars.
  assert (ends_number rest = true) as Hend.
  { destruct rest; [done|]. by destruct Hrest. }
  destruct (Z.ltb_spec n 0) as [Hn|Hn].
  - unfold read_number. simpl. rewrite read_uint_chars by done.
    rewrite to_uint_normal, uint_beq_refl, Hend. simpl.
    rewrite Unsigned.of_to. do 2 f_equal. lia.
  - destruct (uint_chars_head (N.to_uint (Z.to_N n))) as (c & r & Hc & _ & Hm).
    { rewrite <- to_uint_normal. apply unorm_nonnil. }
    rewrite Hc, <- app_comm_cons, read_number_unsigned by done.
    rewrite app_comm_cons, <- Hc, read_uint_chars by done.
    rewrite to_uint_normal, uint_beq_refl, Hend. simpl.
    rewrite Unsigned.of_to. do 2 f_equal. lia.
Qed.

Lemma read_string_escape c t :
  read_string (escape_char c ++ t) = prepend c (read_string t).
Proof. destruct c as [[] [] [] [] [] [] [] []]; reflexivity. Qed.

Lemma read_string_quoted s rest :
  read_string (flat_map escape_char s ++ dquote :: rest) = Some (s, rest).
Proof.
  induction s as [|c s IH]; [done|]. simpl.
  by rewrite <- app_assoc, read_string_escape, IH.
Qed.

Lemma print_head v : ∃ c t, print v = c :: t ∧ value_start c = true.
Proof.
  destruct v as [| |[]|n|s|l|o]; try (by do 2 eexists).
  destruct (number_chars_head n) as (c & r & Hc & Hs).
  exists c, r. split; [done|]. unfold value_start. by rewrite Hs.
Qed.

Lemma value_start_not_ws c :
  value_start c = true →
  is_ws c = false ∧ Ascii.eqb c "]" = false ∧ Ascii.eqb c "}" = false.
Proof. destruct c as [[] [] [] [] [] [] [] []]; try discriminate; done. Qed.

Lemma number_start_dispatch c :
  number_start c = true →
  is_ws c = false ∧ Ascii.eqb c "n" = false ∧ Ascii.eqb c "t" = false
  ∧ Ascii.eqb c "f" = false ∧ Ascii.eqb c dquote = false
  ∧ Ascii.eqb c "[" = false ∧ Ascii.eqb c "{" = false.
Proof. destruct c as [[] [] [] [] [] [] [] []]; try discriminate; done. Qed.

Lemma skip_ws_start c t : is_ws c = false → skip_ws (c :: t) = c :: t.
Proof. intros Hc. simpl. by rewrite Hc. Qed.

Lemma print_members o :
  Forall json_representable o.*2 →
  concat (map (fun '(k, x) =>
                 if is_undefined x then []
                 else [quote (list_ascii_of_string k) ++ ":"%char :: print x]) o)
  = map print_member o.
Proof.
  induction o as [|[k x] r IH]; [done|].
  rewrite fmap_cons. intros [Hx Hr]%Forall_cons.
  rewrite !map_cons, concat_cons, IH by done. simpl in Hx. by destruct Hx.
Qed.

Lemma parse_elements_print l :
  l ≠ [] →
  Forall (fun v => ∀ fuel rest,
            (length (print v) < fuel)%nat → number_stop rest →
            parse_value fuel (print v ++ rest) = Some (v, rest)) l →
  ∀ fuel rest,
    (S (length (join_comma (map print l))) < fuel)%nat →
    parse_elements fuel (join_comma (map print l) ++ "]"%char :: rest)
    = Some (l, rest).
Proof.
  intros Hne Hall. induction Hall as [|x r Hx Hr IH]; [done|].
  intros fuel rest Hfuel. destruct fuel as [|fuel]; [lia|].
  destruct r as [|y r'].
  - cbn [map join_comma] in *. cbn [parse_elements].
    rewrite Hx by (done || lia). by cbn.
  - change (join_comma (map print (x :: y :: r')))
      with (print x ++ ","%char :: join_comma (map print (y :: r'))) in *.
    rewrite length_app in Hfuel. cbn [length] in Hfuel.
    rewrite <- app_assoc. cbn [parse_elements].
    rewrite Hx by (done || lia). cbn -[parse_elements join_comma map].
    rewrite IH by (done || lia). done.
Qed.

Lemma parse_member_print fuel k x tail :
  (∀ fuel rest,
      (length (print x) < fuel)%nat → number_stop rest →
      parse_value fuel (print x ++ rest) = Some (x, rest)) →
  (length (print x) < fuel)%nat → number_stop tail →
  parse_members (S fuel) (print_member (k, x) ++ tail)
  = match skip_ws tail with
    | c :: r' =>
        if Ascii.eqb c "," then
          '(o, r'') ← parse_members fuel r'; Some ((k, x) :: o, r'')
        else if Ascii.eqb c "}" then Some ([(k, x)], r')
        else None
    | [] => None
    end.
Proof.
  intros Hx Hfuel Htail. unfold print_member, quote. cbn [fst snd].
  rewrite <- !app_assoc. cbn [app].
  cbn [parse_members]. rewrite skip_ws_start by done.
  replace (Ascii.eqb dquote dquote) with true by done.
  rewrite <- app_assoc. cbn [app]. rewrite read_string_quoted.
  cbn [mbind option_bind]. rewrite skip_ws_start by done.
  replace (Ascii.eqb ":" ":") with true by done.
  rewrite Hx by done. cbn [mbind option_bind].
  by rewrite string_of_list_ascii_of_string.
Qed.

Lemma parse_members_print o :
  o ≠ [] →
  Forall (fun v => ∀ fuel rest,
            (length (print v) < fuel)%nat → number_stop rest →
            parse_value fuel (print v ++ rest) = Some (v, rest)) o.*2 →
  ∀ fuel rest,
    (S (length (join_comma (map print_member o))) < fuel)%nat →
    parse_members fuel (join_comma (map print_member o) ++ "}"%char :: rest)
    = Some (o, rest).
Proof.
  intros Hne Hall. induction o as [|[k x] r IH]; [done|].
  rewrite fmap_cons in Hall. apply Forall_cons in Hall as [Hx Hr].
  intros fuel rest Hfuel. destruct fuel as [|fuel]; [lia|].
  assert (length (print x) ≤ length (print_member (k, x)))%nat as Hlen.
  { unfold print_member. rewrite length_app. simpl. lia. }
  destruct r as [|y r'].
  - cbn [map join_comma] in *.
    rewrite parse_member_print by (done || lia). by cbn.
  - change (join_comma (map print_member ((k, x) :: y :: r')))
      with (print_member (k, x)
            ++ ","%char :: join_comma (map print_member (y :: r'))) in *.
    rewrite length_app in Hfuel. cbn [length] in Hfuel.
    rewrite <- app_assoc.
    rewrite parse_member_print by (done || lia).
    cbn -[parse_members join_comma map].
    rewrite IH by (done || lia). done.
Qed.

Lemma join_comma_head (parts : list (list ascii)) c t r :
  parts = (c :: t) :: r → ∃ t', join_comma parts = c :: t'.
Proof. intros ->. destruct r; simpl; eauto. Qed.

Theorem parse_print v :
  json_representable v →
  ∀ fuel rest,
    (length (print v) < fuel)%nat → number_stop rest →
    parse_value fuel (print v ++ rest) = Some (v, rest).
Proof.
  induction v as [| |b|n|s|l IH|o IH] using value_nested_ind;
    intros Hv fuel rest Hfuel Hrest; (destruct fuel as [|fuel]; [lia|]).
  - inversion Hv.
  - done.
  - by destruct b.
  - destruct (number_chars_head n) as (c & r & Hc & Hs).
    destruct (number_start_dispatch c Hs) as (Hw & Hn & Ht & Hf & Hq & Hb & Ho).
    cbn [print parse_value]. rewrite Hc. cbn [app].
    rewrite skip_ws_start by done. rewrite Hn, Ht, Hf, Hq, Hb, Ho.
    change (c :: r ++ rest) with ((c :: r) ++ rest). rewrite <- Hc.
    by rewrite read_number_chars.
  - cbn [print parse_value]. unfold quote. cbn [app].
    rewrite skip_ws_start by done.
    replace (Ascii.eqb dquote "n") with false by done.
    replace (Ascii.eqb dquote "t") with false by done.
    replace (Ascii.eqb dquote "f") with false by done.
    replace (Ascii.eqb dquote dquote) with true by done.
    rewrite <- app_assoc. cbn [app]. rewrite read_string_quoted.
    cbn [mbind option_bind]. by rewrite string_of_list_ascii_of_string.
  - inversion Hv as [| | | |l' Hl|]; subst.
    assert (Forall (fun v => ∀ fuel rest,
              (length (print v) < fuel)%nat → number_stop rest →
              parse_value fuel (print v ++ rest) = Some (v, rest)) l) as Hall.
    { rewrite Forall_forall in IH, Hl. apply Forall_forall. auto. }
    cbn [print] in *. cbn [app parse_value]. rewrite skip_ws_start by done.
    cbn -[parse_elements join_comma map skip_ws].
    destruct l as [|x r]; [done|].
    destruct (print_head x) as (c & t & Hc & Hs).
    destruct (value_start_not_ws c Hs) as (Hw & Hb & _).
    destruct (join_comma_head (map print (x :: r)) c t (map print r))
      as [t' Ht']; [by rewrite map_cons, Hc|].
    rewrite <- app_assoc. cbn [app].
    rewrite Ht' at 1. cbn [app]. rewrite skip_ws_start, Hb by done.
    rewrite parse_elements_print; [done|done|done|].
    cbn [length] in Hfuel. rewrite length_app in Hfuel. cbn [length] in Hfuel. lia.
  - inversion Hv as [| | | | |o' Hwf Ho]; subst.
    assert (Forall (fun v => ∀ fuel rest,
              (length (print v) < fuel)%nat → number_stop rest →
              parse_value fuel (print v ++ rest) = Some (v, rest)) o.*2) as Hall.
    { rewrite Forall_forall in IH, Ho. apply Forall_forall. auto. }
    cbn [print] in *. rewrite print_members in * by done.
    cbn [app parse_value]. rewrite skip_ws_start by done.
    cbn -[parse_members join_comma map skip_ws].
    destruct o as [|[k x] r]; [done|].
    destruct (join_comma_head (map print_member ((k, x) :: r)) dquote
                (flat_map escape_char (list_ascii_of_string k) ++ [dquote]
                 ++ ":"%char :: print x) (map print_member r))
      as [t' Ht'].
    { rewrite map_cons. unfold print_member at 1, quote. cbn [fst snd app].
      by rewrite <- app_assoc. }
    rewrite <- app_assoc. cbn [app].
    rewrite Ht' at 1. cbn [app]. rewrite skip_ws_start by done.
    replace (Ascii.eqb dquote "}") with false by done.
    rewrite parse_members_print; [|done|done|].
    + cbn [mbind option_bind]. by rewrite obj_assign_nil.
    + cbn [length] in Hfuel. rewrite length_app in Hfuel. cbn [length] in Hfuel. lia.
Qed.
End JsonTextFacts.

(** The reference implementations meet what the code relies on. *)
Lemma codec_roundtrip : @JSON_roundtrip JsonText.codec.
Proof.
  intros v Hv. exists (string_of_list_ascii (JsonText.print v)). split.
  - by destruct Hv.
  - unfold JSON_parse, JsonText.codec, JsonText.parse.
    rewrite list_ascii_of_string_of_list_ascii.
    rewrite <- (app_nil_r (JsonText.print v)) at 2.
    rewrite JsonTextFacts.parse_print by (done || lia). done.
Qed.

Lemma map_storage_keeps limit : @storage_keeps (map_storage limit).
Proof.
  intros st k data st'. unfold storage_set, storage_get, map_storage.
  case_bool_decide; [|done]. intros [= <-]. apply lookup_insert_eq.
Qed.

(** ** Loading and setting the state *)

Section StateProperties.
Context `{Js : !JSON, Ws : !WindowStorage, Lc : !Locale}.

(** C1: at startup [loadState] reads the record saved under
    ['bible-planner-state'] and merges it into the defaults: a field of the
    saved record holds the saved value, any other field holds its default
    (['calendar'], ['meskerem'], ['chronological'], empty maps, [false],
    [false], ['07:00']), and without a saved record the state is the
    defaults. *)
Theorem loadState_merges_saved_record (w : Window) :
  let p := loadState w (Planner_new w) in
  (∀ saved, saved_record w saved → wf_object saved →
     state p = VObj (state_fields p)
     ∧ (∀ k v, obj_get saved k = Some v → obj_get (state_fields p) k = Some v)
     ∧ (∀ k, obj_get saved k = None →
             obj_get (state_fields p) k = obj_get default_fields k))
  ∧ (no_saved_record w → state p = default_state)
  ∧ default_fields
    = [("activeTab", VStr "calendar"); ("selectedMonth", VStr "meskerem");
       ("selectedPlan", VStr "chronological"); ("expandedWeeks", VObj []);
       ("completedReadings", VObj []); ("showStats", VBool false);
       ("darkMode", VBool false); ("reminderTime", VStr "07:00")].
Proof.
  intros p. split_and!; [| |reflexivity].
  - intros saved (st & text & Hapi & Hget & Hparse) Hwf.
    assert (state p = VObj (obj_assign default_fields saved)) as Hst.
    { subst p. unfold loadState, Planner_new, StorageManager_get, StorageManager_new.
      simpl. rewrite Hapi. simpl. by rewrite Hget, Hparse. }
    unfold state_fields. rewrite Hst. simpl. split_and!; [done | |].
    + intros k v Hk. by rewrite obj_get_assign, Hk.
    + intros k Hk. by rewrite obj_get_assign, Hk.
  - unfold no_saved_record. intros Hno. subst p.
    unfold loadState, Planner_new, StorageManager_get, StorageManager_new. simpl.
    destruct (storage_api w) as [st|]; simpl; [by rewrite Hno | done].
Qed.

(** C2: [setState(newState)] leaves the previous state with exactly the
    fields of [newState] replaced, and schedules one write of the whole
    state record under ['bible-planner-state'], 500 ms later, in place of
    the write that was pending. *)
Theorem setState_replaces_named_fields (w : Window) (p : Planner)
    (newState : list (string * value)) :
  wf_object newState →
  let w' := (setState w p (VObj newState)).1 in
  let p' := (setState w p (VObj newState)).2 in
  state p' = VObj (obj_assign (state_fields p) newState)
  ∧ (∀ k v, obj_get newState k = Some v → obj_get (state_fields p') k = Some v)
  ∧ (∀ k, obj_get newState k = None →
          obj_get (state_fields p') k = obj_get (state_fields p) k)
  ∧ saveDebounceTimer p' = Some (next_timer w)
  ∧ timers w'
    = match saveDebounceTimer p with
      | Some old => filter (fun t => t.1 ≠ old) (timers w)
      | None => timers w
      end ++ [(next_timer w, 500)]
  ∧ (∀ sm, storage p = Some sm →
       timer_fires w' p' (next_timer w)
       = let '(api, sm', _) :=
           StorageManager_set (storage_api w) sm state_key (state p') in
         (with_storage_api (clearTimeout w' (next_timer w)) api,
          with_storage p' sm')).
Proof.
  intros Hwf w' p'.
  assert (state p' = VObj (obj_assign (state_fields p) newState)) as Hst.
  { subst p'. unfold setState, saveStateDebounced. simpl. reflexivity. }
  assert (timers w'
          = match saveDebounceTimer p with
            | Some old => filter (fun t => t.1 ≠ old) (timers w)
            | None => timers w
            end ++ [(next_timer w, 500)]) as Htm.
  { subst w'. unfold setState, saveStateDebounced. simpl.
    by destruct (saveDebounceTimer p). }
  split_and!; [done | | | | done |].
  - intros k v Hk. unfold state_fields at 1. rewrite Hst. simpl.
    by rewrite obj_get_assign, Hk.
  - intros k Hk. unfold state_fields at 1. rewrite Hst. simpl.
    by rewrite obj_get_assign, Hk.
  - subst p'. unfold setState, saveStateDebounced. simpl.
    by destruct (saveDebounceTimer p).
  - intros sm Hsm. unfold timer_fires.
    rewrite bool_decide_eq_true_2.
    2:{ rewrite Htm, fmap_app. apply elem_of_app. right. simpl. apply list_elem_of_here. }
    unfold save_callback.
    assert (storage p' = Some sm) as ->.
    { subst p'. unfold setState, saveStateDebounced. simpl.
      by destruct (saveDebounceTimer p). }
    assert (storage_api (clearTimeout w' (next_timer w)) = storage_api w) as ->.
    { subst w'. unfold setState, saveStateDebounced. simpl.
      by destruct (saveDebounceTimer p). }
    by destruct (StorageManager_set _ _ _ _) as [[api sm'] ok].
Qed.
End StateProperties.

(** The sample host holds the sample record under the planner's key. *)
Lemma earlier_record_saved :
  @saved_record JsonText.codec (map_storage 4096) returning_window earlier_record.
Proof.
  exists (host_store 4096 {[ state_key := earlier_text ]}), earlier_text.
  split_and!; [reflexivity | reflexivity | vm_compute; reflexivity].
Defined.

(** C1 on the sample hosts: a returning visitor gets the saved tab and the
    default month, a host without a store the defaults. *)
Lemma loadState_merges_saved_record_witness :
  obj_get (state_fields (@loadState JsonText.codec _ returning_window
                           (Planner_new returning_window))) "activeTab"
  = Some (VStr "reading")
  ∧ obj_get (state_fields (@loadState JsonText.codec _ returning_window
                             (Planner_new returning_window))) "selectedMonth"
    = Some (VStr "meskerem")
  ∧ state (@loadState JsonText.codec _ storeless_window
             (Planner_new storeless_window)) = default_state.
Proof.
  destruct (loadState_merges_saved_record (Js := JsonText.codec) returning_window)
    as (Hsaved & _ & _).
  destruct (Hsaved earlier_record earlier_record_saved) as (_ & Hin & Hout).
  { apply (bool_decide_unpack _). vm_compute. exact I. }
  destruct (loadState_merges_saved_record (Js := JsonText.codec) storeless_window)
    as (_ & Hnone & _).
  split_and!.
  - apply Hin. reflexivity.
  - rewrite Hout; reflexivity.
  - apply Hnone. exact I.
Defined.

(** C2 on a fresh planner: selecting the reading tab. *)
Lemma setState_replaces_named_fields_witness :
  wf_object [("activeTab", VStr "reading")]
  ∧ obj_get (state_fields (setState fresh_window (Planner_new fresh_window)
                             (VObj [("activeTab", VStr "reading")])).2)
            "activeTab"
    = Some (VStr "reading")
  ∧ obj_get (state_fields (setState fresh_window (Planner_new fresh_window)
                             (VObj [("activeTab", VStr "reading")])).2)
            "reminderTime"
    = Some (VStr "07:00")
  ∧ timers (setState fresh_window (Planner_new fresh_window)
              (VObj [("activeTab", VStr "reading")])).1
    = [(1%positive, 500)].
Proof.
  assert (wf_object [("activeTab", VStr "reading")]) as Hwf.
  { apply (bool_decide_unpack _). vm_compute. exact I. }
  destruct (setState_replaces_named_fields (Js := JsonText.codec) fresh_window
              (Planner_new fresh_window) [("activeTab", VStr "reading")] Hwf)
    as (_ & Hin & Hout & _ & Htimers & _).
  split_and!.
  - exact Hwf.
  - apply Hin. reflexivity.
  - rewrite Hout; reflexivity.
  - rewrite Htimers. reflexivity.
Defined.

(** ** What the planner persists *)

Section PersistenceProperties.
Context `{Js : !JSON, Ws : !WindowStorage, Lc : !Locale}.


Lemma setState_fields w p newState :
  storage (setState w p newState).2 = storage p
  ∧ state (setState w p newState).2 = spread (state p) newState
  ∧ storage_api (setState w p newState).1 = storage_api w
  ∧ content_of (setState w p newState).2 = content_of p.
Proof.
  unfold setState, saveStateDebounced. simpl.
  by destruct (saveDebounceTimer p).
Qed.







Lemma loadState_fields w p :
  storage (loadState w p) = storage p
  ∧ content_of (loadState w p) = content_of p.
Proof.
  unfold loadState. destruct (storage p) eqn:E; [|done].
  by destruct (result_truthy _).
Qed.

(** The shape of a step, whatever the operation. *)
Lemma run_shape w p op :
  run w p op = (w, p)
  ∨ run w p op = (w, loadState w p)
  ∨ (∃ newState, run w p op = setState w p newState)
  ∨ (∃ id, run w p op = timer_fires w p id)
  ∨ op = OpDestroy.
Proof.
  destruct op as [|newState|readingId|weekId| |text proceed|id| |]; unfold run.
  - by right; left.
  - right; right; left. by exists newState.
  - unfold toggleReading. destruct (toggled_field _ _ _) as [v|]; [|by left].
    right; right; left. by eexists.
  - unfold toggleWeek. destruct (toggled_field _ _ _) as [v|]; [|by left].
    right; right; left. by eexists.
  - unfold toggleStats. destruct (state p); try (by left).
    right; right; left. by eexists.
  - unfold importProgress. destruct (JSON_parse text); [|by left].
    destruct (_ && _); [|by left].
    right; right; left. by eexists.
  - right; right; right; left. by exists id.
  - by left.
  - by right; right; right; right.
Qed.





End PersistenceProperties.




(** ** The storage manager *)

Section StorageProperties.
Context `{Js : !JSON, Ws : !WindowStorage}.

Lemma StorageManager_roundtrip_native st sm k v d api' sm' :
  JSON_roundtrip → storage_keeps →
  useNativeStorage sm = true → json_representable v →
  StorageManager_set (Some st) sm k v = (api', sm', true) →
  StorageManager_get api' sm' k d = Val v.
Proof.
  intros Hjson Hkeeps Hnative Hv.
  destruct (Hjson v Hv) as (text & Hs & Hp).
  unfold StorageManager_set, StorageManager_get. rewrite Hnative, Hs.
  destruct (storage_set st k (Some text)) as [st' ok] eqn:Hset.
  intros [= <- <- ->]. rewrite Hnative.
  by rewrite (Hkeeps _ _ _ _ Hset), Hp.
Qed.

Lemma StorageManager_roundtrip_memory api sm k v d :
  useNativeStorage sm = false → k ≠ "__proto__" → v ≠ VUndefined →
  (StorageManager_set api sm k v).2 = true
  ∧ StorageManager_get (StorageManager_set api sm k v).1.1
                       (StorageManager_set api sm k v).1.2 k d = Val v.
Proof.
  intros Hmem Hk Hv. unfold StorageManager_set, StorageManager_get.
  rewrite Hmem. simpl. rewrite ?Hmem. split; [done|].
  unfold object_set, object_get.
  destruct (String.eqb_spec k "__proto__"); [done|]. simpl.
  rewrite lookup_insert_eq. by destruct v.
Qed.

(** C4: a value stored with [set] comes back from [get]. The native path
    and, for every key but one, the memory path do that (the two lemmas
    above); on the memory path the key ['__proto__'] does not: [set] answers
    [true] for the number 5 and [get] then yields [Object.prototype];
    it answers [true] for [null] and [get] then yields the default. *)
Theorem memory_store_drops_proto_key :
  let sm := StorageManager_new None in
  json_representable (VNum 5)
  ∧ (StorageManager_set None sm "__proto__" (VNum 5)).2 = true
  ∧ (∀ d, StorageManager_get None
            (StorageManager_set None sm "__proto__" (VNum 5)).1.2
            "__proto__" d
          = Builtin "Object.prototype")
  ∧ json_representable VNull
  ∧ (StorageManager_set None sm "__proto__" VNull).2 = true
  ∧ (∀ d, StorageManager_get None
            (StorageManager_set None sm "__proto__" VNull).1.2
            "__proto__" d
          = Val d).
Proof. split_and!; try done; by constructor. Qed.
End StorageProperties.

(** The native path with the reference implementations: the default state
    survives a write and a read. *)
Lemma native_roundtrip_sample :
  ∀ d, let r := @StorageManager_set JsonText.codec (map_storage 4096)
                  (Some (host_store 4096 ∅)) (StorageManager_new (Some (host_store 4096 ∅)))
                  state_key default_state in
       r.2 = true
       ∧ @StorageManager_get JsonText.codec (map_storage 4096) r.1.1 r.1.2 state_key d
         = Val default_state.
Proof.
  intros d r. split; [reflexivity|].
  apply (StorageManager_roundtrip_native (Js := JsonText.codec)
           (Ws := map_storage 4096) (host_store 4096 ∅)
           (StorageManager_new (Some (host_store 4096 ∅)))).
  - apply codec_roundtrip.
  - apply map_storage_keeps.
  - reflexivity.
  - repeat constructor; by apply (bool_decide_unpack _).
  - reflexivity.
Qed.

(** ** Reading identifiers *)

Section IdentifierProperties.
Context `{Ws : !WindowStorage}.

(** C5: the reading identifiers of the three plans (['chrono-<month>-<week>'],
    ['nt90-<index>'], ['nt90-<index>-day-<day>'], ['disc-<week>']) are pairwise
    distinct, and so are the units they stand for: each identifier names one
    unit. *)
Theorem reading_identifiers_are_distinct (w : Window) :
  ∃ ids, reading_identifiers (Planner_new w) = Some ids
         ∧ length ids = 156%nat
         ∧ NoDup ids.*1 ∧ NoDup ids.*2.
Proof.
  eexists. split; [reflexivity|]. split_and!.
  - reflexivity.
  - apply (bool_decide_unpack _). vm_compute. exact I.
  - apply (bool_decide_unpack _). vm_compute. exact I.
Qed.

(** C7: both identifiers that the specification gives as examples are
    generated: ['chrono-meskerem-1'] for week 1 of the month [meskerem] of
    the chronological plan, and ['nt90-3-day-24'] for day 24, a day of the
    section at index 3 of the 90-day plan, whose days are ['24-30']. *)
Theorem spec_example_identifiers_are_generated (w : Window) :
  ∃ ids entries plan week sections section day,
    reading_identifiers (Planner_new w) = Some ids
    ∧ ("chrono-meskerem-1", ChronologicalWeek "meskerem" 1) ∈ ids
    ∧ ("nt90-3-day-24", NTDayUnit 3 24) ∈ ids
    ∧ chronologicalPlan (Planner_new w) = Some entries
    ∧ ("meskerem", plan) ∈ entries
    ∧ week ∈ MonthPlan.weeklyBreakdown plan
    ∧ Week.week week = 1
    ∧ renderWeekCard week "meskerem" = "chrono-meskerem-1"
    ∧ ntIntensive (Planner_new w) = Some sections
    ∧ sections !! 3%nat = Some section
    ∧ NTSection.days section = "24-30"
    ∧ day ∈ NTSection.dailyBreakdown section
    ∧ NTDay.day day = 24
    ∧ ("nt90-3-day-24", NTDayUnit 3 24) ∈ renderNTSection section 3.
Proof.
  do 7 eexists. split_and!.
  - reflexivity.
  - apply (bool_decide_unpack _). vm_compute. exact I.
  - apply (bool_decide_unpack _). vm_compute. exact I.
  - reflexivity.
  - apply list_elem_of_here.
  - apply list_elem_of_here.
  - reflexivity.
  - reflexivity.
  - reflexivity.
  - reflexivity.
  - reflexivity.
  - apply list_elem_of_here.
  - reflexivity.
  - apply list_elem_of_further, list_elem_of_here.
Qed.
End IdentifierProperties.

(** ** Content data *)

Section ContentProperties.
Context `{Js : !JSON, Ws : !WindowStorage, Lc : !Locale}.

End ContentProperties.

(** ** Analytics *)

Section AnalyticsProperties.
Context `{Ws : !WindowStorage, Lc : !Locale}.

Lemma sort_insert_length {A} (cmp : A → A → Z) x l :
  length (sort_insert cmp x l) = S (length l).
Proof.
  induction l as [|y r IH]; simpl; [done|].
  destruct (Z.leb (cmp x y) 0); simpl; by rewrite ?IH.
Qed.

Lemma Array_sort_length {A} (cmp : A → A → Z) l :
  length (Array_sort cmp l) = length l.
Proof.
  unfold Array_sort. induction l as [|x r IH]; simpl; [done|].
  by rewrite sort_insert_length, IH.
Qed.

Lemma completed_count_nonneg o : (0 ≤ completed_count o)%Z.
Proof. apply Nat2Z.is_nonneg. Qed.

Lemma calculateStreak_eq (o : list (string * value)) :
  calculateStreak (VObj o) = Some (Z.min (completed_count o) 30).
Proof.
  unfold calculateStreak. simpl. rewrite Array_sort_length.
  fold (completed_count o). pose proof (completed_count_nonneg o).
  f_equal. destruct (Z.ltb_spec 0 (completed_count o)); lia.
Qed.

(** C9: [calculateStreak] returns [min(n, 30)] for the number [n] of
    entries with a truthy value: never more than 30, and a function of that
    count alone, whatever the identifiers and their order. *)
Theorem calculateStreak_is_capped_count (o : list (string * value)) :
  calculateStreak (VObj o) = Some (Z.min (completed_count o) 30)
  ∧ (0 ≤ Z.min (completed_count o) 30 ≤ 30)%Z.
Proof.
  split; [apply calculateStreak_eq|]. pose proof (completed_count_nonneg o). lia.
Qed.

Lemma length_filter_values (o : list (string * value)) :
  Z.of_nat (length (filter (fun v => truthy v = true) o.*2)) = completed_count o.
Proof.
  unfold completed_count. f_equal.
  induction o as [|[k v] r IH]; [done|]. csimpl.
  rewrite !filter_cons. simpl. destruct (decide (truthy v = true)); simpl; by rewrite IH.
Qed.

Lemma getProgressInsights_eq (o : list (string * value)) (t : Z) :
  getProgressInsights (VObj o) t
  = Some {| percentComplete := percent_of (completed_count o) t;
            readingsCompleted := completed_count o;
            readingsRemaining := t - completed_count o;
            currentStreak := Z.min (completed_count o) 30;
            totalReadings := t |}.
Proof.
  unfold getProgressInsights. rewrite calculateStreak_eq.
  unfold Object_values, Object_entries, own_props.
  cbn [fmap option_fmap option_map mbind option_bind].
  by rewrite length_filter_values.
Qed.




End AnalyticsProperties.



(** ** Form drafts *)

Section FormProperties.
Context `{Js : !JSON}.

Lemma props_write_secret data k v :
  "password" ∉ obj_keys data → "website" ∉ obj_keys data →
  secret_field k = false →
  ("password" ∉ obj_keys (props_write data k v))
  ∧ ("website" ∉ obj_keys (props_write data k v)).
Proof.
  intros Hp Hw Hk. unfold props_write.
  destruct (_ && _); [done|]. rewrite obj_keys_set.
  case_bool_decide; [done|].
  unfold secret_field in Hk. apply orb_false_elim in Hk as [Hk1 Hk2].
  apply String.eqb_neq in Hk1, Hk2.
  rewrite !elem_of_app, !list_elem_of_singleton. split; intros [|]; congruence.
Qed.

Lemma draft_data_from acc f1 f2 :
  differ_only_in_secrets f1 f2 →
  foldl (fun data '(key, v) =>
           if negb (String.eqb key "website") && negb (String.eqb key "password")
           then props_write data key v else data) acc f1
  = foldl (fun data '(key, v) =>
             if negb (String.eqb key "website") && negb (String.eqb key "password")
             then props_write data key v else data) acc f2.
Proof.
  intros Hd. revert acc.
  induction Hd as [|[k1 v1] [k2 v2] r1 r2 [Hk Hv] _ IH]; intros acc; [done|].
  simpl in *. subst k2. unfold secret_field in Hv.
  destruct (String.eqb k1 "website"), (String.eqb k1 "password"); simpl in *;
    rewrite ?Hv by done; apply IH.
Qed.

Lemma draft_data_keys acc f :
  "password" ∉ obj_keys acc → "website" ∉ obj_keys acc →
  let data := foldl (fun data '(key, v) =>
                if negb (String.eqb key "website") && negb (String.eqb key "password")
                then props_write data key v else data) acc f in
  ("password" ∉ obj_keys data) ∧ ("website" ∉ obj_keys data).
Proof.
  revert acc. induction f as [|[k v] r IH]; intros acc Hp Hw; simpl; [done|].
  destruct (negb (String.eqb k "website") && negb (String.eqb k "password")) eqn:E.
  - assert (secret_field k = false) as Hk.
    { unfold secret_field. apply andb_prop in E as [E1 E2].
      apply negb_true_iff in E1, E2. by rewrite E1, E2. }
    destruct (props_write_secret acc k v Hp Hw Hk). by apply IH.
  - by apply IH.
Qed.

(** C10: [saveDraft] stores only the fields named neither ['website'] nor
    ['password']: two forms that differ only in the values of such fields
    leave the same draft in [localStorage], and the draft has no field of
    either name. *)
Theorem saveDraft_never_stores_secret_fields (storageKey : string)
    (f1 f2 : list (string * value)) (ls : gmap string string) :
  differ_only_in_secrets f1 f2 →
  saveDraft storageKey f1 ls = saveDraft storageKey f2 ls
  ∧ ("password" ∉ obj_keys (draft_data f1))
  ∧ ("website" ∉ obj_keys (draft_data f1)).
Proof.
  intros Hd. split.
  - unfold saveDraft, draft_data. by rewrite (draft_data_from [] f1 f2 Hd).
  - apply draft_data_keys; apply not_elem_of_nil.
Qed.
End FormProperties.

(** The two sample forms differ in the password and the website only. *)
Lemma forms_differ_only_in_secrets : differ_only_in_secrets form_one form_two.
Proof.
  repeat apply Forall2_cons_2; try apply Forall2_nil_2;
    (split; [reflexivity | intros Hs; first [discriminate Hs | reflexivity]]).
Defined.

(** C10 on the two sample forms. *)
Lemma saveDraft_never_stores_secret_fields_witness :
  differ_only_in_secrets form_one form_two
  ∧ @saveDraft JsonText.codec "form_draft_contactForm" form_one ∅
    = @saveDraft JsonText.codec "form_draft_contactForm" form_two ∅
  ∧ ("password" ∉ obj_keys (draft_data form_one)).
Proof.
  destruct (saveDraft_never_stores_secret_fields (Js := JsonText.codec)
              "form_draft_contactForm" form_one form_two ∅
              forms_differ_only_in_secrets) as (Hsame & Hpw & _).
  split_and!; [exact forms_differ_only_in_secrets | exact Hsame | exact Hpw].
Defined.
(** ** A session of the planner *)

Section SessionProperties.
Context `{Js : !JSON, Ws : !WindowStorage, Lc : !Locale}.




Lemma loadState_timer w p :
  saveDebounceTimer (loadState w p) = saveDebounceTimer p.
Proof.
  unfold loadState. destruct (storage p); [|done].
  by destruct (result_truthy _).
Qed.

Lemma setState_pending w p newState :
  one_pending_save w p →
  one_pending_save (setState w p newState).1 (setState w p newState).2.
Proof.
  unfold one_pending_save, setState, saveStateDebounced. simpl.
  intros [Hnone | (id & Hone & Hid)]; right.
  - destruct (saveDebounceTimer p); simpl; rewrite Hnone; by eexists.
  - rewrite Hid. simpl. rewrite Hone, filter_cons_False by (simpl; auto).
    rewrite filter_nil. by eexists.
Qed.

Lemma clearTimeout_pending w p id :
  one_pending_save w p → one_pending_save (clearTimeout w id) p.
Proof.
  unfold one_pending_save, clearTimeout. simpl.
  intros [Hnone | (id' & Hone & Hid)].
  - left. by rewrite Hnone.
  - rewrite Hone. destruct (decide (id' = id)) as [->|Hne].
    + left. by rewrite filter_cons_False by (simpl; auto).
    + right. exists id'. rewrite filter_cons_True by done. by rewrite filter_nil.
Qed.

Lemma timer_fires_pending w p id :
  one_pending_save w p →
  one_pending_save (timer_fires w p id).1 (timer_fires w p id).2.
Proof.
  intros Hinv. unfold timer_fires. case_bool_decide; [|done].
  apply (clearTimeout_pending _ _ id) in Hinv. revert Hinv.
  generalize (clearTimeout w id). intros w1 Hinv.
  unfold save_callback. destruct (storage p) as [sm|]; [|done].
  by destruct (StorageManager_set _ _ _ _) as [[api sm'] ok].
Qed.

Lemma run_pending w p op :
  one_pending_save w p → one_pending_save (run w p op).1 (run w p op).2.
Proof.
  intros Hinv.
  destruct (run_shape w p op)
    as [-> | [-> | [[newState ->] | [[id ->] | ->]]]].
  - done.
  - unfold one_pending_save in *. simpl. by rewrite loadState_timer.
  - by apply setState_pending.
  - by apply timer_fires_pending.
  - left. unfold run, destroy. simpl.
    destruct Hinv as [Hnone | (id & Hone & Hid)].
    + destruct (saveDebounceTimer p); simpl; by rewrite Hnone.
    + rewrite Hid. simpl. rewrite Hone. by rewrite filter_cons_False by (simpl; auto).
Qed.

(** X2: at most one write of the state is pending at any time.
    On a window without pending timers, whatever the planner is asked to
    do after its construction, the window holds no timer or exactly one, of
    500 ms, which is the one the planner remembers in [saveDebounceTimer]:
    a burst of state changes ends in a single write. *)
Theorem at_most_one_save_is_pending (w : Window) (ops : list operation) :
  timers w = [] →
  one_pending_save (run_all w (Planner_new w) ops).1
                   (run_all w (Planner_new w) ops).2.
Proof.
  intros Hw.
  assert (one_pending_save w (Planner_new w)) as Hinv by by left.
  revert Hinv. generalize (Planner_new w). clear Hw. revert w.
  unfold run_all. induction ops as [|op ops IH]; intros w p Hinv; simpl; [done|].
  pose proof (run_pending w p op Hinv) as Hstep.
  destruct (run w p op) as [w1 p1]. by apply IH.
Qed.

Lemma run_released w p op :
  storage p = None →
  storage (run w p op).2 = None ∧ storage_api (run w p op).1 = storage_api w.
Proof.
  intros Hp.
  destruct (run_shape w p op)
    as [-> | [-> | [[newState ->] | [[id ->] | ->]]]].
  - done.
  - simpl. destruct (loadState_fields w p) as [-> _]. done.
  - destruct (setState_fields w p newState) as (-> & _ & -> & _). done.
  - unfold timer_fires. case_bool_decide; [|done].
    unfold save_callback. by rewrite Hp.
  - unfold run, destroy. simpl. by destruct (saveDebounceTimer p).
Qed.

(** X3: nothing is persisted after [destroy]. Whatever happens
    to a planner once [destroy] has run (state changes, toggles, imports,
    timers that expire), the host's store stays as [destroy] left it and
    the planner has no storage manager to write with. *)
Theorem nothing_is_persisted_after_destroy (w : Window) (p : Planner)
    (ops : list operation) :
  let w1 := (destroy w p).1 in
  let p1 := (destroy w p).2 in
  storage_api w1 = storage_api w
  ∧ storage_api (run_all w1 p1 ops).1 = storage_api w
  ∧ storage (run_all w1 p1 ops).2 = None.
Proof.
  intros w1 p1.
  assert (storage_api w1 = storage_api w) as Hw1.
  { subst w1. unfold destroy. simpl. by destruct (saveDebounceTimer p). }
  split; [done|]. rewrite <- Hw1.
  assert (storage p1 = None) as Hp1 by done.
  revert Hp1. generalize p1 w1. clear.
  unfold run_all. induction ops as [|op ops IH]; intros p w Hp; simpl; [done|].
  destruct (run_released w p op Hp) as [Hs Ha].
  destruct (run w p op) as [w2 p2]. simpl in *.
  rewrite <- Ha. by apply IH.
Qed.

(** X4: [toggleReading(id)] flips the completion of that one
    reading. On a state whose completion map is an object, and for any
    identifier but ['__proto__'], the new map answers the opposite for
    [id] and the same as before for every other identifier, and no other
    field of the state changes. *)
Theorem toggleReading_flips_one_reading (w : Window) (p : Planner)
    (o c : list (string * value)) (id : string) :
  state p = VObj o →
  obj_get o "completedReadings" = Some (VObj c) →
  id ≠ "__proto__" →
  ∃ o' c',
    state (toggleReading w p id).2 = VObj o'
    ∧ obj_get o' "completedReadings" = Some (VObj c')
    ∧ reading_completed c' id = negb (reading_completed c id)
    ∧ (∀ id', id' ≠ id → props_read c' id' = props_read c id')
    ∧ (∀ k, k ≠ "completedReadings" → obj_get o' k = obj_get o k).
Proof.
  intros Hst Hc Hid.
  assert (props_read o "completedReadings" = Val (VObj c)) as Hr
    by (unfold props_read; by rewrite Hc).
  unfold toggleReading, toggled_field. rewrite Hst, !Hr. simpl own_props.
  destruct (setState_fields w p
              (VObj [("completedReadings",
                      VObj (props_write c id
                              (VBool (negb (result_truthy (props_read c id))))))]))
    as (_ & -> & _).
  rewrite Hst. unfold spread, obj_assign. simpl.
  eexists _, _. split; [reflexivity|].
  assert (props_write c id (VBool (negb (result_truthy (props_read c id))))
          = obj_set c id (VBool (negb (result_truthy (props_read c id)))))
    as ->.
  { unfold props_write. by destruct (String.eqb_spec id "__proto__"). }
  split_and!.
  - apply obj_get_set_eq.
  - unfold reading_completed. unfold props_read at 1. by rewrite obj_get_set_eq.
  - intros id' Hne. unfold props_read. by rewrite obj_get_set_ne.
  - intros k Hk. by apply obj_get_set_ne.
Qed.

(** X5: the streak message of [celebrateCompletion] appears
    exactly when 7, 14, 21 or 28 readings are marked complete; the streak
    stops at 30, which is no multiple of 7, so beyond 28 readings the
    planner never celebrates again. *)
Theorem celebration_at_7_14_21_28 (p : Planner) (o c : list (string * value)) :
  state p = VObj o →
  obj_get o "completedReadings" = Some (VObj c) →
  ∃ message,
    celebrateCompletion p = Some message
    ∧ (is_Some message ↔ completed_count c ∈ [7; 14; 21; 28])
    ∧ (∀ text, message = Some text →
         text = "🎉 " +:+ number_to_string (completed_count c)
                +:+ " day streak! Keep it up!").
Proof.
  intros Hst Hc. unfold celebrateCompletion. rewrite Hst.
  unfold props_read. rewrite Hc, calculateStreak_eq. simpl.
  pose proof (completed_count_nonneg c) as Hn.
  eexists. split; [reflexivity|].
  destruct (Z.ltb_spec 0 (Z.min (completed_count c) 30)) as [Hpos|Hpos];
    destruct (Z.eqb_spec (Z.rem (Z.min (completed_count c) 30) 7) 0) as [Hrem|Hrem];
    simpl.
  - assert (completed_count c ∈ [7; 14; 21; 28]) as Hin.
    { destruct (Z.le_gt_cases 30 (completed_count c)) as [Hbig|Hsmall].
      - rewrite Z.min_r in Hrem by done. discriminate Hrem.
      - rewrite Z.min_l in Hrem, Hpos by lia.
        rewrite Z.rem_mod_nonneg in Hrem by lia.
        pose proof (Z.div_mod (completed_count c) 7) as Hdiv.
        rewrite !elem_of_cons, elem_of_nil. lia. }
    split; [by split; [|eexists] |].
    intros text [= <-]. repeat f_equal.
    rewrite Z.min_l; [done|].
    rewrite !elem_of_cons in Hin. rewrite elem_of_nil in Hin. lia.
  - split; [|done]. split; [by intros []|].
    rewrite !elem_of_cons, elem_of_nil.
    intros Hin. destruct Hrem.
    destruct Hin as [-> | [-> | [-> | [-> | []]]]]; reflexivity.
  - split; [|done]. split; [by intros []|].
    rewrite !elem_of_cons, elem_of_nil. lia.
  - split; [|done]. split; [by intros []|].
    rewrite !elem_of_cons, elem_of_nil. lia.
Qed.
End SessionProperties.


(** X2 on the sample operations. *)
Lemma at_most_one_save_is_pending_witness :
  timers fresh_window = []
  ∧ one_pending_save
      (run_all (Js := JsonText.codec) fresh_window (Planner_new fresh_window)
         sample_operations).1
      (run_all (Js := JsonText.codec) fresh_window (Planner_new fresh_window)
         sample_operations).2.
Proof.
  split; [reflexivity|].
  apply (at_most_one_save_is_pending (Js := JsonText.codec) fresh_window
           sample_operations eq_refl).
Defined.

(** X4 on a fresh planner: the first week of Meskerem. *)
Lemma toggleReading_flips_one_reading_witness :
  state (Planner_new fresh_window) = default_state
  ∧ ∃ o' c',
      state (toggleReading fresh_window (Planner_new fresh_window)
               "chrono-meskerem-1").2 = VObj o'
      ∧ obj_get o' "completedReadings" = Some (VObj c')
      ∧ reading_completed c' "chrono-meskerem-1" = true.
Proof.
  split; [reflexivity|].
  destruct (toggleReading_flips_one_reading fresh_window
              (Planner_new fresh_window) default_fields []
              "chrono-meskerem-1" eq_refl eq_refl)
    as (o' & c' & Hst & Hc & Hflip & _).
  { discriminate. }
  exists o', c'. split_and!; [exact Hst | exact Hc | exact Hflip].
Defined.

(** X5 with seven readings: the message appears. *)
Lemma celebration_at_7_14_21_28_witness :
  completed_count (completed_map 7) = 7
  ∧ ∃ message,
      @celebrateCompletion ordinal_locale seven_completed = Some message
      ∧ (is_Some message ↔ completed_count (completed_map 7) ∈ [7; 14; 21; 28]).
Proof.
  split; [reflexivity|].
  destruct (celebration_at_7_14_21_28 (Lc := ordinal_locale) seven_completed
              [("completedReadings", VObj (completed_map 7))]
              (completed_map 7) eq_refl eq_refl)
    as (message & Hm & Hiff & _).
  exists message. split; [exact Hm | exact Hiff].
Defined.

(** ** The storage manager's memory store as a map *)

Section MemoryStoreProperties.
Context `{Js : !JSON, Ws : !WindowStorage, Wl : !WindowStorageList}.

Lemma storage_run_memory win sm call :
  useNativeStorage sm = false → proto (memoryStorage sm) = ProtoObject →
  sets_proto call = false →
  useNativeStorage (storage_run win sm call).2 = false
  ∧ proto (memoryStorage (storage_run win sm call).2) = ProtoObject
  ∧ own (memoryStorage (storage_run win sm call).2)
    = map_call (own (memoryStorage sm)) call.
Proof.
  intros Hmem Hproto Hcall. destruct call as [key v|key|]; simpl in *.
  - unfold StorageManager_set. rewrite Hmem. simpl.
    unfold object_set. by rewrite Hcall.
  - unfold StorageManager_delete. by rewrite Hmem.
  - unfold StorageManager_clear. by rewrite Hmem.
Qed.

(** X6: the memory store of the storage manager behaves as a map
    from keys to values. After any sequence of [set], [delete] and [clear]
    calls in which no [set] names ['__proto__'], [get(key, d)] answers, for
    every key that [Object.prototype] has no property for, the value last
    set under the key, and the default [d] when the key was never set, was
    deleted or cleared since, or holds [undefined]. *)
Theorem memory_store_is_a_map (win : option native_store)
    (sm : StorageManager) (calls : list storage_call) (key : string)
    (d : value) :
  useNativeStorage sm = false →
  proto (memoryStorage sm) = ProtoObject →
  forallb (fun call => negb (sets_proto call)) calls = true →
  ordinary_key key = true →
  StorageManager_get (storage_run_all win sm calls).1
                     (storage_run_all win sm calls).2 key d
  = Val (map_get (foldl map_call (own (memoryStorage sm)) calls) key d).
Proof.
  intros Hmem Hproto Hcalls Hkey. unfold storage_run_all.
  revert win sm Hmem Hproto. induction calls as [|call calls IH];
    intros win sm Hmem Hproto; simpl.
  - unfold StorageManager_get, object_get, map_get. rewrite Hmem, Hproto.
    destruct (own (memoryStorage sm) !! key) as [v|]; [by destruct v|].
    unfold ordinary_key in Hkey. apply andb_true_iff in Hkey as [Hk1 Hk2].
    apply negb_true_iff in Hk1. apply bool_decide_eq_true in Hk2.
    unfold proto_get, Object_prototype_get. rewrite Hk1.
    by rewrite bool_decide_eq_false_2.
  - simpl in Hcalls. apply andb_true_iff in Hcalls as [Hcall Hcalls].
    apply negb_true_iff in Hcall.
    destruct (storage_run_memory win sm call Hmem Hproto Hcall)
      as (Hmem' & Hproto' & Hown').
    destruct (storage_run win sm call) as [win' sm']. simpl in *.
    rewrite IH by done. by rewrite Hown'.
Qed.
End MemoryStoreProperties.

Section ClearProperties.
Context `{Js : !JSON, Ws : !WindowStorage, Wl : !WindowStorageList}.

Lemma storage_get_deleted keys st k :
  storage_forgets →
  storage_get (foldl storage_delete st keys) k
  = if bool_decide (k ∈ keys) then None else storage_get st k.
Proof.
  intros Hforget. revert st. induction keys as [|k0 keys IH]; intros st; simpl.
  - done.
  - rewrite IH, Hforget. destruct (decide (k ∈ keys)) as [Hin|Hout].
    + rewrite !bool_decide_eq_true_2; [done | by apply list_elem_of_further | done].
    + rewrite (bool_decide_eq_false_2 (k ∈ keys)) by done.
      destruct (String.eqb_spec k0 k) as [->|Hne].
      * by rewrite bool_decide_eq_true_2 by apply list_elem_of_here.
      * rewrite bool_decide_eq_false_2; [done|].
        rewrite not_elem_of_cons. split; [congruence | done].
Qed.

(** X7: [clear()] on the host's store removes the planner's saved
    state and nothing of anybody else. On a host that lists the keys under
    a prefix and forgets a deleted key, [clear] answers [true], the store
    then holds no record under any key that starts with
    ['bible-planner-'], every other key holds what it held, and a planner
    constructed afterwards loads the default state. *)
Theorem clear_removes_the_saved_state (w : Window) (st : native_store)
    (sm : StorageManager) :
  storage_lists → storage_forgets →
  storage_api w = Some st → useNativeStorage sm = true →
  ∃ st',
    StorageManager_clear (Some st) sm = (Some st', sm, true)
    ∧ (∀ k, String.prefix "bible-planner-" k = true → storage_get st' k = None)
    ∧ (∀ k, String.prefix "bible-planner-" k = false →
            storage_get st' k = storage_get st k)
    ∧ state (loadState (with_storage_api w (Some st'))
               (Planner_new (with_storage_api w (Some st'))))
      = default_state.
Proof.
  intros Hlists Hforget Hapi Hnative.
  destruct (Hlists st "bible-planner-") as (keys & Hlist & Hkeys).
  exists (foldl storage_delete st keys).
  assert (∀ k, String.prefix "bible-planner-" k = true →
               storage_get (foldl storage_delete st keys) k = None) as Hgone.
  { intros k Hk. rewrite storage_get_deleted by done.
    case_bool_decide as Hin; [done|].
    destruct (storage_get st k) as [text|] eqn:Hget; [|done].
    destruct Hin. apply Hkeys. split; [done | by eexists]. }
  split_and!.
  - unfold StorageManager_clear. by rewrite Hnative, Hlist.
  - exact Hgone.
  - intros k Hk. rewrite storage_get_deleted by done.
    case_bool_decide as Hin; [|done].
    apply Hkeys in Hin as [Hpre _]. congruence.
  - unfold loadState, Planner_new, StorageManager_get, StorageManager_new.
    cbn [storage storage_api with_storage_api useNativeStorage].
    rewrite bool_decide_eq_true_2 by by eexists.
    by rewrite (Hgone state_key eq_refl).
Qed.
End ClearProperties.

Lemma map_storage_lists limit : @storage_lists _ (map_storage_list limit).
Proof.
  intros st prefix. eexists. split; [reflexivity|].
  intros k. rewrite list_elem_of_filter, elem_of_elements, elem_of_dom. done.
Qed.

Lemma map_storage_forgets limit : @storage_forgets (map_storage limit).
Proof.
  intros st k k'. unfold storage_get, storage_delete, map_storage.
  destruct (String.eqb_spec k k') as [->|Hne].
  - apply lookup_delete_eq.
  - by apply lookup_delete_ne.
Qed.

(** X6 on a sample of calls: the plan set before [clear] is gone,
    the days set after it are there. *)
Lemma memory_store_is_a_map_witness :
  forallb (fun call => negb (sets_proto call)) sample_calls = true
  ∧ @StorageManager_get JsonText.codec (map_storage 4096)
      sample_store.1 sample_store.2 "plan" (VStr "none") = Val (VStr "none")
  ∧ @StorageManager_get JsonText.codec (map_storage 4096)
      sample_store.1 sample_store.2 "days" VNull = Val (VNum 90).
Proof.
  split_and!; [reflexivity | |].
  - apply (memory_store_is_a_map (Js := JsonText.codec)
             (Ws := map_storage 4096) (Wl := map_storage_list 4096)
             None memory_manager
             sample_calls "plan" (VStr "none") eq_refl eq_refl eq_refl eq_refl).
  - apply (memory_store_is_a_map (Js := JsonText.codec)
             (Ws := map_storage 4096) (Wl := map_storage_list 4096)
             None memory_manager
             sample_calls "days" VNull eq_refl eq_refl eq_refl eq_refl).
Defined.

(** X7 on a store shared with another application. *)
Lemma clear_removes_the_saved_state_witness :
  ∃ st',
    @StorageManager_clear (map_storage 4096) (map_storage_list 4096)
      (storage_api shared_window)
      (StorageManager_new (storage_api shared_window))
    = (Some st', StorageManager_new (storage_api shared_window), true)
    ∧ storage_get st' state_key = None
    ∧ storage_get st' "other-app" = Some "kept".
Proof.
  destruct (clear_removes_the_saved_state (Js := JsonText.codec)
              (Wl := map_storage_list 4096)
              shared_window
              (host_store 4096 {[ state_key := earlier_text;
                                  "other-app" := "kept" ]})
              (StorageManager_new (storage_api shared_window))
              (map_storage_lists 4096) (map_storage_forgets 4096)
              eq_refl eq_refl)
    as (st' & Hclear & Hgone & Hkept & _).
  exists st'. split_and!.
  - exact Hclear.
  - apply Hgone. reflexivity.
  - rewrite Hkept; reflexivity.
Defined.

(** ** Swipes between the tabs *)

Section SwipeProperties.
Context `{Js : !JSON, Ws : !WindowStorage, Lc : !Locale}.

Lemma indexOf_tabs r :
  indexOf tabs r = -1 ∨ r = Val (VStr "calendar") ∧ indexOf tabs r = 0
  ∨ r = Val (VStr "reading") ∧ indexOf tabs r = 1
  ∨ r = Val (VStr "discipleship") ∧ indexOf tabs r = 2.
Proof.
  destruct r as [[| | | |s| |]|]; try by left.
  unfold indexOf, tabs. cbn [list_find].
  destruct (decide ("calendar" = s)) as [<-|]; [by right; left|].
  destruct (decide ("reading" = s)) as [<-|]; [by right; right; left|].
  destruct (decide ("discipleship" = s)) as [<-|]; [by right; right; right|].
  by left.
Qed.

Lemma setState_field w p o k v :
  state p = VObj o →
  state (setState w p (VObj [(k, v)])).2 = VObj (obj_set o k v).
Proof.
  intros Hst. destruct (setState_fields w p (VObj [(k, v)])) as (_ & -> & _).
  by rewrite Hst.
Qed.

(** X8: a swipe moves the planner by one tab at most and never
    outside the three tabs. With an object as state, [handleSwipe] leaves
    every field but [activeTab] as it was, and [activeTab] either stays or
    becomes the neighbour of the current tab in
    [calendar, reading, discipleship]: the next one only on a swipe to the
    left ([touchStartX - touchEndX > 0]), the previous one only on a swipe
    to the right, and none when the two points are less than 50 apart. A
    tab that is none of the three counts as standing before the first. *)
Theorem swipe_moves_one_tab (w : Window) (p : Planner)
    (o : list (string * value)) (touchStartX touchEndX : float) :
  state p = VObj o →
  let diff := PrimFloat.sub touchStartX touchEndX in
  let i := indexOf tabs (props_read o "activeTab") in
  ∃ o',
    state (handleSwipe w p touchStartX touchEndX).2 = VObj o'
    ∧ (∀ k, k ≠ "activeTab" → obj_get o' k = obj_get o k)
    ∧ (props_read o' "activeTab" = props_read o "activeTab"
       ∨ PrimFloat.ltb (PrimFloat.abs diff) 50%float = false
         ∧ ∃ j, props_read o' "activeTab" = Val (tab_at j)
                ∧ indexOf tabs (Val (tab_at j)) = j
                ∧ (0 ≤ j ≤ 2)%Z
                ∧ (j = i + 1 ∧ PrimFloat.ltb 0%float diff = true
                   ∨ j = i - 1 ∧ PrimFloat.ltb diff 0%float = true)).
Proof.
  intros Hst diff i. unfold handleSwipe. fold diff. rewrite Hst. fold i.
  destruct (PrimFloat.ltb (PrimFloat.abs diff) 50) eqn:Hnear.
  { exists o. by split_and!; [| |left]. }
  assert (∀ j, ∃ o',
            state (setState w p (VObj [("activeTab", tab_at j)])).2 = VObj o'
            ∧ (∀ k, k ≠ "activeTab" → obj_get o' k = obj_get o k)
            ∧ props_read o' "activeTab" = Val (tab_at j)) as Hset.
  { intros j. exists (obj_set o "activeTab" (tab_at j)). split_and!.
    - by apply setState_field.
    - intros k Hk. by apply obj_get_set_ne.
    - unfold props_read. by rewrite obj_get_set_eq. }
  assert (i = -1 ∨ i = 0 ∨ i = 1 ∨ i = 2) as Hi.
  { subst i. destruct (indexOf_tabs (props_read o "activeTab"))
      as [-> | [[_ ->] | [[_ ->] | [_ ->]]]]; auto. }
  destruct (PrimFloat.ltb 0 diff) eqn:Hleft;
    destruct (Z.ltb_spec i (Z.of_nat (length tabs) - 1)) as [Hlast|Hlast];
    simpl in Hlast; cbn [andb].
  - destruct (Hset (i + 1)) as (o' & Ho' & Hframe & Htab).
    exists o'. split_and!; [done | done |]. right. split; [done|].
    exists (i + 1). split_and!; [done | | lia | lia | by left].
    destruct Hi as [-> | [-> | [-> | ->]]]; try reflexivity; lia.
  - destruct (PrimFloat.ltb diff 0) eqn:Hright;
      destruct (Z.ltb_spec 0 i) as [Hfirst|Hfirst]; cbn [andb];
      try (exists o; by split_and!; [| |left]).
    destruct (Hset (i - 1)) as (o' & Ho' & Hframe & Htab).
    exists o'. split_and!; [done | done |]. right. split; [done|].
    exists (i - 1). split_and!; [done | | lia | lia | by right].
    destruct Hi as [-> | [-> | [-> | ->]]]; try reflexivity; lia.
  - destruct (PrimFloat.ltb diff 0) eqn:Hright;
      destruct (Z.ltb_spec 0 i) as [Hfirst|Hfirst]; cbn [andb];
      try (exists o; by split_and!; [| |left]).
    destruct (Hset (i - 1)) as (o' & Ho' & Hframe & Htab).
    exists o'. split_and!; [done | done |]. right. split; [done|].
    exists (i - 1). split_and!; [done | | lia | lia | by right].
    destruct Hi as [-> | [-> | [-> | ->]]]; try reflexivity; lia.
  - destruct (PrimFloat.ltb diff 0) eqn:Hright;
      destruct (Z.ltb_spec 0 i) as [Hfirst|Hfirst]; cbn [andb];
      try (exists o; by split_and!; [| |left]).
    destruct (Hset (i - 1)) as (o' & Ho' & Hframe & Htab).
    exists o'. split_and!; [done | done |]. right. split; [done|].
    exists (i - 1). split_and!; [done | | lia | lia | by right].
    destruct Hi as [-> | [-> | [-> | ->]]]; try reflexivity; lia.
Qed.
End SwipeProperties.

(** X8 on a fresh planner: a swipe of 200 to the left leads from
    the calendar to the reading tab. *)
Lemma swipe_moves_one_tab_witness :
  state (Planner_new fresh_window) = default_state
  ∧ data_field (state (handleSwipe fresh_window (Planner_new fresh_window)
                         300%float 100%float).2) "activeTab"
    = VStr "reading"
  ∧ ∃ o',
      state (handleSwipe fresh_window (Planner_new fresh_window)
               300%float 100%float).2 = VObj o'
      ∧ obj_get o' "selectedMonth" = Some (VStr "meskerem").
Proof.
  split_and!; [reflexivity | reflexivity |].
  destruct (swipe_moves_one_tab fresh_window (Planner_new fresh_window)
              default_fields 300%float 100%float eq_refl)
    as (o' & Hst & Hframe & _).
  exists o'. split; [exact Hst|]. rewrite Hframe; [reflexivity | discriminate].
Defined.

(** ** The checksum of an export *)

Section ChecksumProperties.
Context `{Js : !JSON, Ji : !JSONIndent, Ws : !WindowStorage, Lc : !Locale}.

Lemma base64_prefix n bytes :
  take (4 * n) (base64 bytes) = take (4 * n) (base64 (take (3 * n) bytes)).
Proof.
  revert bytes. induction n as [|n IH]; intros bytes; [done|].
  replace (4 * S n)%nat with (S (S (S (S (4 * n))))) by lia.
  replace (3 * S n)%nat with (S (S (S (3 * n)))) by lia.
  destruct bytes as [|a [|b [|c r]]]; try done.
  cbn [take base64]. by rewrite IH.
Qed.

Lemma take_take_le {A} (n m : nat) (l : list A) :
  (n ≤ m)%nat → take n (take m l) = take n l.
Proof. intros. rewrite take_take. f_equal. lia. Qed.

Lemma generateChecksum_text data bytes :
  latin1_of_utf8 (list_ascii_of_string (default "undefined" (JSON_stringify data)))
  = Some bytes →
  generateChecksum data = Some (string_of_list_ascii (take 32 (base64 bytes))).
Proof.
  intros Hbytes. unfold generateChecksum, btoa. rewrite Hbytes. simpl.
  unfold slice_to. by rewrite list_ascii_of_string_of_list_ascii.
Qed.

(** X9: the checksum of an export reads only the first 24
    characters of the completion map's JSON text. Two completion maps whose
    texts agree on their first 24 characters have the same checksum, so a
    file whose completion map was replaced by such a map, keeping the
    checksum, is imported without the warning about a corrupted file. *)
Theorem checksum_reads_24_characters (data1 data2 : value)
    (text1 text2 : string) :
  JSON_stringify data1 = Some text1 →
  JSON_stringify data2 = Some text2 →
  is_Some (code_units_to 24 text1) →
  code_units_to 24 text1 = code_units_to 24 text2 →
  is_Some (generateChecksum data1)
  ∧ generateChecksum data1 = generateChecksum data2
  ∧ (∀ file checksum,
       generateChecksum data1 = Some checksum →
       data_field file "completedReadings" = data2 →
       data_field file "checksum" = VStr checksum →
       import_proceeds file false = true).
Proof.
  unfold code_units_to. intros Ht1 Ht2 [u Hu] Heq.
  destruct (latin1_of_utf8 (list_ascii_of_string text1)) as [u1|] eqn:Hu1;
    [|discriminate Hu].
  destruct (latin1_of_utf8 (list_ascii_of_string text2)) as [u2|] eqn:Hu2;
    [|discriminate Heq].
  simpl in Heq. injection Heq as Heq.
  assert (generateChecksum data1
          = Some (string_of_list_ascii (take 32 (base64 u1)))) as H1.
  { apply generateChecksum_text. by rewrite Ht1. }
  assert (generateChecksum data2
          = Some (string_of_list_ascii (take 32 (base64 u2)))) as H2.
  { apply generateChecksum_text. by rewrite Ht2. }
  assert (take 32 (base64 u1) = take 32 (base64 u2)) as Hsame.
  { pose proof (base64_prefix 8 u1) as Hp1.
    pose proof (base64_prefix 8 u2) as Hp2.
    change (4 * 8)%nat with 32%nat in Hp1, Hp2.
    change (3 * 8)%nat with 24%nat in Hp1, Hp2.
    by rewrite Hp1, Hp2, Heq. }
  split_and!.
  - rewrite H1. by eexists.
  - by rewrite H1, H2, Hsame.
  - intros file checksum Hc Hfile Hsum. unfold import_proceeds.
    rewrite H1 in Hc. injection Hc as <-.
    rewrite Hfile, Hsum, H2, Hsame. simpl.
    by rewrite String.eqb_refl.
Qed.

Lemma data_field_assign o src k v :
  wf_object src → obj_get src k = Some v →
  data_field (VObj (obj_assign o src)) k = v.
Proof.
  intros Hwf Hk. unfold data_field. simpl. by rewrite obj_get_assign, Hk.
Qed.

(** X10: a progress file comes back as it was exported. When the
    text that [exportProgress] wrote reads back as the exported object,
    [importProgress] takes it without asking (the checksum of the file is
    the one it computes), whatever state the importing planner is in, and
    each of the four exported fields that held a truthy value then holds
    that value again. *)
Theorem exported_progress_is_imported (w : Window) (p p0 : Planner)
    (readings : list (string * value)) (now text : string)
    (data : value) (confirmed : bool) :
  data_field (state p0) "completedReadings" = VObj readings →
  exportProgress_data p0 now = Some data →
  exportProgress p0 now = Some text →
  JSON_parse text = Some data →
  ∀ k, k ∈ exported_fields →
       truthy (data_field (state p0) k) = true →
       data_field (state (importProgress_file w p text confirmed).2) k
       = data_field (state p0) k.
Proof.
  intros Hreadings Hdata _ Hparse k Hk Htruthy.
  unfold exportProgress_data in Hdata.
  destruct (state p0) as [| | | | | |o0] eqn:Hst; try discriminate Hdata.
  rewrite Hreadings in Hdata.
  destruct (generateChecksum (VObj readings)) as [checksum|] eqn:Hsum;
    [|discriminate Hdata].
  simpl in Hdata.
  assert (data_field data "completedReadings" = VObj readings) as Hcr
    by (by injection Hdata as <-).
  assert (data_field data "selectedMonth"
          = data_field (VObj o0) "selectedMonth") as Hsm
    by (by injection Hdata as <-).
  assert (data_field data "selectedPlan"
          = data_field (VObj o0) "selectedPlan") as Hsp
    by (by injection Hdata as <-).
  assert (data_field data "expandedWeeks"
          = data_field (VObj o0) "expandedWeeks") as Hew
    by (by injection Hdata as <-).
  assert (data_field data "checksum" = VStr checksum) as Hck
    by (by injection Hdata as <-).
  assert (validateImportData data = true) as Hvalid.
  { unfold validateImportData. rewrite Hcr. by injection Hdata as <-. }
  clear Hdata.
  unfold importProgress_file, importProgress. rewrite Hparse.
  assert (import_proceeds data confirmed = true) as ->.
  { unfold import_proceeds. rewrite Hcr, Hsum, Hck. simpl.
    by rewrite String.eqb_refl. }
  rewrite Hvalid. cbn [andb].
  match goal with
  | |- context [setState w p ?n] =>
      destruct (setState_fields w p n) as (_ & -> & _)
  end.
  unfold spread. cbn [own_props].
  rewrite Hcr, Hsm, Hsp, Hew.
  apply data_field_assign.
  { apply (bool_decide_unpack _). vm_compute. exact I. }
  unfold exported_fields in Hk. rewrite !elem_of_cons, elem_of_nil in Hk.
  unfold or_else.
  destruct Hk as [-> | [-> | [-> | [-> | []]]]];
    cbn [obj_get String.eqb Ascii.eqb Bool.eqb]; rewrite ?Hreadings in *;
    by rewrite ?Htruthy.
Qed.
End ChecksumProperties.

(** X9 on the sample: the checksum of the map with one reading
    is also that of the map with a second reading added. *)
Lemma checksum_reads_24_characters_witness :
  JsonText.stringify ticked_readings
  = Some (String "{" (String JsonText.dquote "chrono-meskerem-1"
            +:+ String JsonText.dquote ":true}"))
  ∧ @generateChecksum JsonText.codec ticked_readings
    = @generateChecksum JsonText.codec edited_readings
  ∧ @generateChecksum JsonText.codec edited_readings
    = Some "eyJjaHJvbm8tbWVza2VyZW0tMSI6dHJ1".
Proof.
  destruct (checksum_reads_24_characters (Js := JsonText.codec)
              ticked_readings edited_readings
              (default "" (JsonText.stringify ticked_readings))
              (default "" (JsonText.stringify edited_readings))
              eq_refl eq_refl)
    as (_ & Hsame & _).
  { vm_compute. by eexists. }
  { vm_compute. reflexivity. }
  split_and!; [vm_compute; reflexivity | exact Hsame | vm_compute; reflexivity].
Defined.

(** X10 on the sample: a fresh planner that imports the file of the
    visit has the ticked reading, without a confirmation. *)
Lemma exported_progress_is_imported_witness :
  is_Some sample_export
  ∧ data_field
      (state (@importProgress_file JsonText.codec _ fresh_window
                (Planner_new fresh_window) (default "" sample_export) false).2)
      "completedReadings"
    = ticked_readings.
Proof.
  split; [vm_compute; by eexists|].
  apply (exported_progress_is_imported (Js := JsonText.codec)
           (Ji := JsonIndentText.printer) fresh_window
           (Planner_new fresh_window) ticked_visit.2
           [("chrono-meskerem-1", VBool true)] "2025-09-11T06:00:00.000Z"
           (default "" sample_export) (default VNull sample_export_data) false).
  - reflexivity.
  - vm_compute. reflexivity.
  - vm_compute. reflexivity.
  - vm_compute. reflexivity.
  - apply (bool_decide_unpack _). vm_compute. exact I.
  - reflexivity.
Defined.

(** ** debounce and throttle *)

Section TimingProperties.
Context {A : Type}.

Lemma debounce_step_holds wait (s : @debounced A) (latest : option A)
    (e : timing_event A) :
  debounce_holds wait s latest →
  debounce_holds wait (debounce_step wait s e)
    (match e with Invoke args => Some args | Elapse => None end)
  ∧ debounce_calls (debounce_step wait s e)
    = debounce_calls s
      ++ match e, latest return list A with
         | Elapse, Some args => [args]
         | _, _ => []
         end.
Proof.
  intros Hinv. destruct e as [args|].
  - unfold debounce_step, debounce_call, set_timeout. simpl.
    rewrite app_nil_r. split; [|done].
    eexists. split; [|reflexivity].
    destruct latest as [old|]; simpl in Hinv.
    + destruct Hinv as (id & Hp & ->). simpl. rewrite Hp.
      by rewrite filter_cons_False by (simpl; auto).
    + destruct (debounce_timeout s); simpl; by rewrite Hinv.
  - unfold debounce_step. destruct latest as [args|]; simpl in Hinv.
    + destruct Hinv as (id & Hp & Ht). rewrite Hp. simpl.
      unfold debounce_expire, timer_callback. rewrite Hp. simpl.
      rewrite decide_True by done. simpl. rewrite Ht. simpl. rewrite Hp.
      by rewrite !filter_cons_False by (simpl; auto).
    + rewrite Hinv. simpl. by rewrite app_nil_r.
Qed.

Lemma debounce_run_from wait (events : list (timing_event A))
    (s : @debounced A) (latest : option A) :
  debounce_holds wait s latest →
  debounce_calls (foldl (debounce_step wait) s events)
  = debounce_calls s ++ trailing_calls latest events
  ∧ (length (pending (debounce_timers (foldl (debounce_step wait) s events)))
     ≤ 1)%nat.
Proof.
  revert s latest. induction events as [|e events IH]; intros s latest Hinv.
  - simpl. rewrite app_nil_r. split; [done|].
    destruct latest; simpl in Hinv.
    + destruct Hinv as (id & -> & _). simpl. lia.
    + rewrite Hinv. simpl. lia.
  - destruct (debounce_step_holds wait s latest e Hinv) as [Hnext Hcalls].
    destruct (IH _ _ Hnext) as [Htrace Hone]. simpl foldl.
    split; [|done]. rewrite Htrace, Hcalls, <- app_assoc. f_equal.
    destruct e, latest; simpl; done.
Qed.

(** X11: a debounced function calls [func] once for each run of
    calls that is followed by the delay, with the arguments of the last
    call of the run, and it never has more than one timer pending: the
    calls before the last one of a run are dropped. *)
Theorem debounce_keeps_the_last_call (wait : Z)
    (events : list (timing_event A)) :
  debounce_calls (debounce_run wait events) = trailing_calls None events
  ∧ (length (pending (debounce_timers (debounce_run wait events))) ≤ 1)%nat.
Proof.
  unfold debounce_run.
  apply (debounce_run_from wait events
           {| debounce_timers := no_timers; debounce_timeout := None;
              debounce_calls := [] |} None).
  reflexivity.
Qed.

Lemma throttle_step_holds limit (s : @throttled A) (open : bool)
    (e : timing_event A) :
  throttle_holds limit s open →
  throttle_holds limit (throttle_step limit s e)
    (match e with Invoke _ => false | Elapse => true end)
  ∧ throttle_calls (throttle_step limit s e)
    = throttle_calls s
      ++ match e return list A with
         | Invoke args => if open then [args] else []
         | Elapse => []
         end.
Proof.
  intros Hinv. destruct e as [args|].
  - unfold throttle_step, throttle_call. destruct open; simpl in Hinv.
    + destruct Hinv as [-> Hp]. simpl. rewrite Hp. split; [|done].
      split; [done|]. by eexists.
    + destruct Hinv as [-> (id & Hp)]. simpl. rewrite app_nil_r.
      split; [|done]. split; [done|]. by eexists.
  - unfold throttle_step. rewrite app_nil_r. destruct open; simpl in Hinv.
    + destruct Hinv as [Ht Hp]. rewrite Hp. simpl. done.
    + destruct Hinv as [Ht (id & Hp)]. rewrite Hp. simpl.
      unfold throttle_expire, timer_callback. rewrite Hp. simpl.
      rewrite decide_True by done. simpl. rewrite ?Hp.
      by rewrite ?filter_cons_False by (simpl; auto).
Qed.

Lemma throttle_run_from limit (events : list (timing_event A))
    (s : @throttled A) (open : bool) :
  throttle_holds limit s open →
  throttle_calls (foldl (throttle_step limit) s events)
  = throttle_calls s ++ leading_calls open events
  ∧ (length (pending (throttle_timers (foldl (throttle_step limit) s events)))
     ≤ 1)%nat.
Proof.
  revert s open. induction events as [|e events IH]; intros s open Hinv.
  - simpl. rewrite app_nil_r. split; [done|].
    destruct open; simpl in Hinv.
    + destruct Hinv as [_ ->]. simpl. lia.
    + destruct Hinv as [_ (id & ->)]. simpl. lia.
  - destruct (throttle_step_holds limit s open e Hinv) as [Hnext Hcalls].
    destruct (IH _ _ Hnext) as [Htrace Hone]. simpl foldl.
    split; [|done]. rewrite Htrace, Hcalls, <- app_assoc. f_equal.
    destruct e, open; simpl; done.
Qed.

(** X12: a throttled function passes to [func] the first call and
    the first call after each time the delay has passed; the calls in
    between are dropped, not kept for later, and at most one timer is
    pending. *)
Theorem throttle_keeps_the_first_call (limit : Z)
    (events : list (timing_event A)) :
  throttle_calls (throttle_run limit events) = leading_calls true events
  ∧ (length (pending (throttle_timers (throttle_run limit events))) ≤ 1)%nat.
Proof.
  unfold throttle_run.
  apply (throttle_run_from limit events
           {| throttle_timers := no_timers; throttle_inThrottle := false;
              throttle_calls := [] |} true).
  done.
Qed.
End TimingProperties.

(** ** Patterns *)

Section PatternProperties.

Lemma lang_seq_inv r1 r2 s :
  lang (Seq r1 r2) s ↔ ∃ s1 s2, s = s1 ++ s2 ∧ lang r1 s1 ∧ lang r2 s2.
Proof.
  split.
  - inversion 1; subst. by eexists _, _.
  - intros (s1 & s2 & -> & H1 & H2). by constructor.
Qed.

Lemma lang_repeat_inv p min extra s :
  lang (Repeat p min extra) s
  ↔ Forall (fun c => p c = true) s ∧ (min ≤ length s ≤ min + extra)%nat.
Proof.
  split.
  - by inversion 1.
  - intros [? ?]. by constructor.
Qed.

Lemma lang_class_inv p s : lang (Class p) s ↔ ∃ c, s = [c] ∧ p c = true.
Proof.
  split.
  - inversion 1; subst. by eexists.
  - intros (c & -> & ?). by constructor.
Qed.

Lemma nullable_spec r : nullable r = true ↔ lang r [].
Proof.
  induction r as [| |p|r1 IH1 r2 IH2|r1 IH1 r2 IH2|r IH|p min extra]; simpl.
  - split; [done | inversion 1].
  - split; [constructor | done].
  - split; [done | inversion 1].
  - rewrite andb_true_iff, IH1, IH2, lang_seq_inv. split.
    + intros [H1 H2]. by exists [], [].
    + intros (s1 & s2 & Heq & H1 & H2).
      symmetry in Heq. apply app_eq_nil in Heq as [-> ->]. done.
  - rewrite orb_true_iff, IH1, IH2. split.
    + intros [H|H]; [by apply lang_alt_l | by apply lang_alt_r].
    + inversion 1; auto.
  - split; [constructor | done].
  - rewrite bool_decide_eq_true. split.
    + intros ->. constructor; [constructor | simpl; lia].
    + rewrite lang_repeat_inv. simpl. lia.
Qed.

Lemma lang_star_head r c s :
  lang (Star r) (c :: s) →
  ∃ s1 s2, s = s1 ++ s2 ∧ lang r (c :: s1) ∧ lang (Star r) s2.
Proof.
  intros H. remember (Star r) as r0 eqn:Hr. remember (c :: s) as s0 eqn:Hs.
  revert s Hs. induction H as [| | | | | |r' s1 s2 H1 _ H2 IH2|]; intros t Ht;
    try discriminate Hr; try discriminate Ht.
  injection Hr as ->. destruct s1 as [|c1 s1]; simpl in Ht.
  - by apply IH2.
  - injection Ht as -> <-. by exists s1, s2.
Qed.

Lemma derivative_spec r c s : lang (derivative c r) s ↔ lang r (c :: s).
Proof.
  revert s.
  induction r as [| |p|r1 IH1 r2 IH2|r1 IH1 r2 IH2|r IH|p min extra];
    intros s; simpl.
  - split; inversion 1.
  - split; inversion 1.
  - rewrite lang_class_inv. destruct (p c) eqn:Hp; split.
    + inversion 1. by exists c.
    + intros (c' & [= <- ->] & _). constructor.
    + inversion 1.
    + intros (c' & [= <- ->] & ?). congruence.
  - assert (lang (Seq (derivative c r1) r2) s → lang (Seq r1 r2) (c :: s)) as Hl.
    { rewrite !lang_seq_inv. intros (s1 & s2 & -> & H1 & H2).
      exists (c :: s1), s2. split_and!; [done | by apply IH1 | done]. }
    assert (lang (Seq r1 r2) (c :: s) →
            lang (Seq (derivative c r1) r2) s
            ∨ nullable r1 = true ∧ lang (derivative c r2) s) as Hr.
    { rewrite !lang_seq_inv. intros (s1 & s2 & Heq & H1 & H2).
      destruct s1 as [|c1 s1]; simpl in Heq.
      - right. split; [by apply nullable_spec|]. apply IH2. by subst.
      - injection Heq as <- ->. left. exists s1, s2.
        split_and!; [done | by apply IH1 | done]. }
    destruct (nullable r1) eqn:Hn.
    + split.
      * inversion 1; subst; [by apply Hl|].
        apply lang_seq_inv. exists [], (c :: s).
        split_and!; [done | by apply nullable_spec | by apply IH2].
      * intros H. destruct (Hr H) as [H1|[_ H2]];
          [by apply lang_alt_l | by apply lang_alt_r].
    + split; [done|]. intros H. destruct (Hr H) as [H1|[? _]]; [done|congruence].
  - split.
    + inversion 1; subst;
        [apply lang_alt_l; by apply IH1 | apply lang_alt_r; by apply IH2].
    + inversion 1; subst;
        [apply lang_alt_l; by apply IH1 | apply lang_alt_r; by apply IH2].
  - rewrite lang_seq_inv. split.
    + intros (s1 & s2 & -> & H1 & H2).
      change (c :: s1 ++ s2) with ((c :: s1) ++ s2).
      constructor; [by apply IH | done].
    + intros H. destruct (lang_star_head r c s H) as (s1 & s2 & -> & H1 & H2).
      exists s1, s2. split_and!; [done | by apply IH | done].
  - rewrite (lang_repeat_inv p min extra), Forall_cons. simpl.
    destruct (p c) eqn:Hp.
    + destruct min as [|m]; [destruct extra as [|e]|].
      * split; [inversion 1 | lia].
      * rewrite lang_repeat_inv. split.
        -- intros [? ?]. split_and!; try done; lia.
        -- intros [[_ ?] ?]. split; [done | lia].
      * rewrite lang_repeat_inv. split.
        -- intros [? ?]. split_and!; try done; lia.
        -- intros [[_ ?] ?]. split; [done | lia].
    + split; [inversion 1|]. intros [[? _] _]. congruence.
Qed.

Lemma RegExp_test_spec r s : RegExp_test r s = true ↔ lang r s.
Proof.
  unfold RegExp_test. revert r. induction s as [|c s IH]; intros r; simpl.
  - apply nullable_spec.
  - rewrite IH. apply derivative_spec.
Qed.

Lemma lang_char c s : lang (Char c) s ↔ s = [c].
Proof.
  unfold Char. rewrite lang_class_inv. split.
  - intros (c' & -> & Hc). apply N.eqb_eq in Hc. by subst.
  - intros ->. exists c. split; [done | apply N.eqb_refl].
Qed.

Lemma lang_star_class p s :
  lang (Star (Class p)) s ↔ Forall (fun c => p c = true) s.
Proof.
  split.
  - intros H. remember (Star (Class p)) as r eqn:Hr.
    induction H as [| | | | | |r' s1 s2 H1 _ H2 IH2|]; try discriminate Hr.
    + constructor.
    + injection Hr as ->. apply lang_class_inv in H1 as (c & -> & Hc).
      constructor; [done|]. by apply IH2.
  - induction 1 as [|c s Hc _ IH]; [constructor|].
    change (c :: s) with ([c] ++ s). constructor; [by constructor | done].
Qed.

Lemma lang_plus_class p s :
  lang (Plus (Class p)) s ↔ s ≠ [] ∧ Forall (fun c => p c = true) s.
Proof.
  unfold Plus. rewrite lang_seq_inv. split.
  - intros (s1 & s2 & -> & H1 & H2).
    apply lang_class_inv in H1 as (c & -> & Hc). split; [done|].
    constructor; [done | by apply lang_star_class].
  - intros [Hne Hall]. destruct s as [|c s]; [done|].
    apply Forall_cons in Hall as [Hc Hall].
    exists [c], s. split_and!; [done | by constructor | by apply lang_star_class].
Qed.

Lemma lang_email s :
  lang email_pattern s
  ↔ ∃ a b c,
      s = a ++ 64%N :: b ++ 46%N :: c
      ∧ (a ≠ [] ∧ Forall (fun u => is_address_unit u = true) a)
      ∧ (b ≠ [] ∧ Forall (fun u => is_address_unit u = true) b)
      ∧ (c ≠ [] ∧ Forall (fun u => is_address_unit u = true) c).
Proof.
  unfold email_pattern. split.
  - intros H.
    apply lang_seq_inv in H as (a & t1 & -> & Ha & H).
    apply lang_seq_inv in H as (x & t2 & -> & Hx & H).
    apply lang_seq_inv in H as (b & t3 & -> & Hb & H).
    apply lang_seq_inv in H as (y & c & -> & Hy & Hc).
    apply lang_char in Hx as ->. apply lang_char in Hy as ->.
    apply lang_plus_class in Ha, Hb, Hc. by exists a, b, c.
  - intros (a & b & c & -> & Ha & Hb & Hc).
    apply lang_plus_class in Ha, Hb, Hc.
    constructor; [done|]. change (64%N :: b ++ 46%N :: c) with ([64%N] ++ b ++ [46%N] ++ c).
    constructor; [by apply lang_char|]. constructor; [done|].
    constructor; [by apply lang_char | done].
Qed.

(** X13: [isValidEmail] accepts exactly the texts with one [@] and
    no white space, a part before the [@] that is not empty, and a part
    after it with a dot that is neither its first nor its last character.
    It asks nothing else of the address. *)
Theorem isValidEmail_accepts (email : list N) :
  isValidEmail email = true
  ↔ ∃ name domain,
      email = name ++ 64%N :: domain
      ∧ name ≠ []
      ∧ Forall (fun u => is_space u = false ∧ u ≠ 64%N) (name ++ domain)
      ∧ ∃ i, domain !! i = Some 46%N ∧ (0 < i)%nat ∧ (S i < length domain)%nat.
Proof.
  assert (∀ l, Forall (fun u => is_address_unit u = true) l
               ↔ Forall (fun u => is_space u = false ∧ u ≠ 64%N) l) as Hunit.
  { intros l. apply Forall_proper; [|done]. intros u. unfold is_address_unit.
    rewrite negb_true_iff, orb_false_iff, N.eqb_neq. done. }
  unfold isValidEmail. rewrite RegExp_test_spec, lang_email. split.
  - intros (a & b & c & -> & [Ha Hua] & [Hb Hub] & [Hc Huc]).
    exists a, (b ++ 46%N :: c). split_and!; [done | done | |].
    + apply Hunit. rewrite !Forall_app, Forall_cons. by split_and!.
    + exists (length b). split_and!.
      * by rewrite list_lookup_middle.
      * destruct b; [done | simpl; lia].
      * rewrite length_app. destruct c; [done | simpl; lia].
  - intros (name & domain & -> & Hname & Hall & i & Hi & Hpos & Hlast).
    apply Hunit in Hall. apply Forall_app in Hall as [Hn Hd].
    exists name, (take i domain), (drop (S i) domain).
    rewrite <- (take_drop_middle domain i 46%N Hi) in Hd.
    rewrite Forall_app, Forall_cons in Hd. destruct Hd as (Hb & _ & Hc).
    split_and!; try done.
    + by rewrite (take_drop_middle domain i 46%N Hi).
    + intros Hnil. apply (f_equal length) in Hnil.
      rewrite length_take in Hnil. simpl in Hnil. lia.
    + intros Hnil. apply (f_equal length) in Hnil.
      rewrite length_drop in Hnil. simpl in Hnil. lia.
Qed.

Lemma lang_literal l s : lang (Literal l) s ↔ s = l.
Proof.
  revert s. induction l as [|c l IH]; intros s; simpl.
  - split; [by inversion 1 | intros ->; constructor].
  - rewrite lang_seq_inv. split.
    + intros (s1 & s2 & -> & H1 & H2). apply lang_char in H1 as ->.
      apply IH in H2 as ->. done.
    + intros ->. exists [c], l. split_and!; [done | by apply lang_char | by apply IH].
Qed.

Lemma lang_alt_inv r1 r2 s : lang (Alt r1 r2) s ↔ lang r1 s ∨ lang r2 s.
Proof.
  split.
  - inversion 1; auto.
  - intros [?|?]; [by apply lang_alt_l | by apply lang_alt_r].
Qed.

Lemma lang_eps_inv s : lang Eps s ↔ s = [].
Proof. split; [by inversion 1 | intros ->; constructor]. Qed.

Lemma lang_phone s :
  lang phone_pattern s
  ↔ ∃ prefix digits,
      s = prefix ++ 57%N :: digits
      ∧ prefix ∈ [[]; code_units "+251"; code_units "0"]
      ∧ length digits = 8%nat
      ∧ Forall (fun c => is_digit c = true) digits.
Proof.
  unfold phone_pattern, Opt. rewrite lang_seq_inv. split.
  - intros (prefix & t & -> & Hp & Ht).
    apply lang_seq_inv in Ht as (nine & digits & -> & Hn & Hd).
    apply lang_char in Hn as ->. apply lang_repeat_inv in Hd as [Hall Hlen].
    exists prefix, digits. split_and!; [done | | lia | done].
    rewrite !lang_alt_inv, !lang_literal, lang_eps_inv in Hp.
    rewrite !elem_of_cons. tauto.
  - intros (prefix & digits & -> & Hp & Hlen & Hall).
    exists prefix, (57%N :: digits). split_and!; [done | |].
    + rewrite !lang_alt_inv, !lang_literal, lang_eps_inv.
      rewrite !elem_of_cons, elem_of_nil in Hp. tauto.
    + apply lang_seq_inv. exists [57%N], digits.
      split_and!; [done | by apply lang_char |].
      apply lang_repeat_inv. split; [done | lia].
Qed.

Lemma trim_start_blank s :
  trim_start s = [] ↔ Forall (fun c => is_space c = true) s.
Proof.
  induction s as [|c s IH]; simpl; [done|].
  rewrite Forall_cons. destruct (is_space c); [|split; [done | by intros []]].
  rewrite IH. tauto.
Qed.

Lemma trim_start_head s c t : trim_start s = c :: t → is_space c = false.
Proof.
  induction s as [|x l IH]; simpl; [done|].
  destruct (is_space x) eqn:Hx; [done|]. by intros [= <- _].
Qed.

Lemma trim_blank s : trim s = [] ↔ Forall (fun c => is_space c = true) s.
Proof.
  unfold trim. split.
  - intros H. apply (f_equal reverse) in H. rewrite reverse_involutive in H.
    change (reverse []) with (@nil N) in H.
    apply trim_start_blank in H. rewrite Forall_reverse in H.
    apply trim_start_blank.
    destruct (trim_start s) as [|c t] eqn:Ht; [done|].
    apply trim_start_head in Ht. apply Forall_cons in H as [Hc _]. congruence.
  - intros H. apply trim_start_blank in H. rewrite H. done.
Qed.

(** X14: a field that holds nothing but white space counts as
    empty. If the field is required, [validateField] rejects it with the
    message that the field is required; if it is not, the field is valid,
    whatever its type, its name and its [data-validate] attribute. *)
Theorem validateField_blank (field : form_field) :
  Forall (fun c => is_space c = true) (field_value field) →
  validateField field
  = if field_required field then Some "This field is required" else None.
Proof.
  intros Hblank. apply trim_blank in Hblank. unfold validateField.
  rewrite Hblank. rewrite (bool_decide_eq_true_2 ([] = [])) by done.
  by destruct (field_required field).
Qed.

Lemma validateField_rules field :
  trim (field_value field) ≠ [] →
  validateField field = None →
  (bool_decide ((if bool_decide (field_type field = [])
                 then field_validate field else Some (field_type field))
                = Some (code_units "email"))
   && negb (RegExp_test email_pattern (trim (field_value field))) = false)
  ∧ (bool_decide ((if bool_decide (field_type field = [])
                   then field_validate field else Some (field_type field))
                  = Some (code_units "tel"))
     && negb (RegExp_test phone_pattern
                (remove_spaces (trim (field_value field)))) = false)
  ∧ ((includes (field_name field) (code_units "name")
      || bool_decide (field_validate field = Some (code_units "name")))
     && negb (RegExp_test name_pattern (trim (field_value field))) = false)
  ∧ ((bool_decide (field_type field = code_units "textarea")
      || bool_decide (field_validate field = Some (code_units "message")))
     && negb (RegExp_test message_pattern (trim (field_value field))) = false).
Proof.
  intros Hne. unfold validateField.
  rewrite (bool_decide_eq_false_2 (trim (field_value field) = [])) by done.
  rewrite andb_false_r. cbn [andb].
  repeat match goal with
         | |- context [if ?b then Some _ else _] => destruct b eqn:?; [done|]
         end.
  done.
Qed.

Lemma validateField_accepts field :
  trim (field_value field) ≠ [] →
  (bool_decide ((if bool_decide (field_type field = [])
                 then field_validate field else Some (field_type field))
                = Some (code_units "email"))
   && negb (RegExp_test email_pattern (trim (field_value field))) = false) →
  (bool_decide ((if bool_decide (field_type field = [])
                 then field_validate field else Some (field_type field))
                = Some (code_units "tel"))
   && negb (RegExp_test phone_pattern
              (remove_spaces (trim (field_value field)))) = false) →
  ((includes (field_name field) (code_units "name")
    || bool_decide (field_validate field = Some (code_units "name")))
   && negb (RegExp_test name_pattern (trim (field_value field))) = false) →
  ((bool_decide (field_type field = code_units "textarea")
    || bool_decide (field_validate field = Some (code_units "message")))
   && negb (RegExp_test message_pattern (trim (field_value field))) = false) →
  validateField field = None.
Proof.
  intros Hne H1 H2 H3 H4. unfold validateField.
  rewrite (bool_decide_eq_false_2 (trim (field_value field) = [])) by done.
  rewrite andb_false_r. cbn [andb]. by rewrite H1, H2, H3, H4.
Qed.

(** X15: what a telephone field accepts. For a field of type [tel]
    that has no [data-validate] attribute and no [name] in its name, and
    that is not blank, [validateField] accepts the value exactly when,
    white space removed, it is a 9 followed by eight digits, with
    nothing, [0] or [+251] before it. *)
Theorem phone_field_accepts (field : form_field) :
  field_type field = code_units "tel" →
  field_validate field = None →
  includes (field_name field) (code_units "name") = false →
  trim (field_value field) ≠ [] →
  validateField field = None
  ↔ ∃ prefix digits,
      remove_spaces (trim (field_value field)) = prefix ++ 57%N :: digits
      ∧ prefix ∈ [[]; code_units "+251"; code_units "0"]
      ∧ length digits = 8%nat
      ∧ Forall (fun c => is_digit c = true) digits.
Proof.
  intros Htype Hvalidate Hname Hne. rewrite <- lang_phone, <- RegExp_test_spec.
  split.
  - intros Hvalid.
    destruct (validateField_rules field Hne Hvalid) as (_ & Hphone & _).
    rewrite Htype in Hphone. simpl in Hphone.
    by apply negb_false_iff in Hphone.
  - intros Hphone. apply validateField_accepts; [done|..];
      rewrite ?Htype, ?Hvalidate, ?Hname, ?Hphone; done.
Qed.


(** X17: an e-mail field with [name] in its name accepts
    nothing. Such a field (one named [username], say) is checked against
    the e-mail pattern, which wants an [@], and against the name pattern,
    which allows letters and white space only, so [validateField] rejects
    every value that is not blank. *)
Theorem email_field_named_name_rejects (field : form_field) :
  field_type field = code_units "email" →
  includes (field_name field) (code_units "name") = true →
  trim (field_value field) ≠ [] →
  is_Some (validateField field).
Proof.
  intros Htype Hname Hne.
  destruct (validateField field) as [message|] eqn:Hvalid; [by eexists|].
  exfalso.
  destruct (validateField_rules field Hne Hvalid) as (Hemail & _ & Hn & _).
  rewrite Htype in Hemail. simpl in Hemail. apply negb_false_iff in Hemail.
  rewrite Hname in Hn. simpl in Hn. apply negb_false_iff in Hn.
  apply RegExp_test_spec, lang_email in Hemail as (a & b & c & Hv & _).
  apply RegExp_test_spec, lang_repeat_inv in Hn as [Hall _].
  rewrite Hv, Forall_app, Forall_cons in Hall.
  destruct Hall as (_ & Hat & _). discriminate Hat.
Qed.
End PatternProperties.

(** X14 on a required field that holds three spaces. *)
Lemma validateField_blank_witness :
  Forall (fun c => is_space c = true) (field_value blank_field)
  ∧ validateField blank_field = Some "This field is required".
Proof.
  assert (Forall (fun c => is_space c = true) (field_value blank_field)) as Hblank.
  { repeat constructor. }
  split; [exact Hblank|].
  exact (validateField_blank blank_field Hblank).
Defined.

(** X15 on a number typed with spaces. *)
Lemma phone_field_accepts_witness :
  trim (field_value phone_field) = code_units "0912 345 678"
  ∧ validateField phone_field = None.
Proof.
  split; [reflexivity|].
  apply (phone_field_accepts phone_field eq_refl eq_refl eq_refl).
  - discriminate.
  - exists (code_units "0"), (code_units "12345678").
    split_and!; [reflexivity | | reflexivity | repeat constructor].
    apply list_elem_of_further, list_elem_of_further, list_elem_of_here.
Defined.


(** X17 on a field named [username] with a fine address. *)
Lemma email_field_named_name_rejects_witness :
  isValidEmail (trim (field_value username_field)) = true
  ∧ is_Some (validateField username_field).
Proof.
  split; [reflexivity|].
  apply (email_field_named_name_rejects username_field eq_refl eq_refl).
  discriminate.
Defined.

(** ** The most active month *)

Section OrderedObjectProperties.
Context {T : Type}.
Implicit Types o : list (string * T).

Lemma own_lookup_None o k : own_lookup o k = None ↔ k ∉ o.*1.
Proof.
  induction o as [|[k0 v0] r IH]; csimpl.
  - split; [intros _; apply not_elem_of_nil | done].
  - rewrite not_elem_of_cons. destruct (String.eqb_spec k k0); split; try done.
    + intros []; done.
    + intros; split; [done | by apply IH].
    + intros [_ ?]; by apply IH.
Qed.

Lemma own_lookup_elem o k v : own_lookup o k = Some v → (k, v) ∈ o.
Proof.
  induction o as [|[k0 v0] r IH]; simpl; [done|].
  destruct (String.eqb_spec k k0) as [->|].
  - intros [= ->]. apply list_elem_of_here.
  - intros H. apply list_elem_of_further. by apply IH.
Qed.

Lemma elem_own_lookup o k v :
  NoDup o.*1 → (k, v) ∈ o → own_lookup o k = Some v.
Proof.
  induction o as [|[k0 v0] r IH]; csimpl; intros Hnd Hin.
  - by apply elem_of_nil in Hin.
  - apply NoDup_cons in Hnd as [Hk0 Hnd].
    apply elem_of_cons in Hin as [[= -> ->]|Hin].
    + by rewrite String.eqb_refl.
    + destruct (String.eqb_spec k k0) as [->|]; [|by apply IH].
      destruct Hk0. apply list_elem_of_fmap. by exists (k0, v).
Qed.

Lemma replace_own_keys o k v : (replace_own o k v).*1 = o.*1.
Proof.
  induction o as [|[k0 v0] r IH]; csimpl; [done|].
  destruct (String.eqb_spec k k0) as [->|]; csimpl; [done | by rewrite IH].
Qed.

Lemma own_lookup_replace o k v k' :
  own_lookup (replace_own o k v) k'
  = if String.eqb k k' then (fun _ => v) <$> own_lookup o k else own_lookup o k'.
Proof.
  induction o as [|[k0 v0] r IH]; simpl.
  - by destruct (String.eqb k k').
  - destruct (String.eqb_spec k k0) as [->|Hne]; simpl.
    + destruct (String.eqb_spec k0 k') as [->|Hne'].
      * by rewrite String.eqb_refl.
      * destruct (String.eqb_spec k' k0); [congruence | done].
    + rewrite IH. destruct (String.eqb_spec k k') as [->|Hne'].
      * destruct (String.eqb_spec k' k0); [congruence | done].
      * done.
Qed.

Lemma insert_index_keys o i k v : (insert_index o i k v).*1 ≡ₚ k :: o.*1.
Proof.
  induction o as [|[k0 v0] r IH]; csimpl; [done|].
  destruct (array_index k0) as [j|]; [|done].
  destruct (N.ltb j i); [|done]. csimpl. rewrite IH. apply Permutation_swap.
Qed.

Lemma own_lookup_insert o i k v k' :
  array_index k = Some i → own_lookup o k = None →
  own_lookup (insert_index o i k v) k'
  = if String.eqb k' k then Some v else own_lookup o k'.
Proof.
  intros Hk. induction o as [|[k0 v0] r IH]; simpl; [done|].
  destruct (String.eqb_spec k k0) as [->|Hne]; [done|]. intros Hnone.
  destruct (array_index k0) as [j|] eqn:Hj; [destruct (N.ltb j i) eqn:Hlt|];
    simpl; try done.
  rewrite IH by done.
  destruct (String.eqb_spec k' k0) as [->|]; [|done].
  by destruct (String.eqb_spec k0 k).
Qed.

Lemma own_lookup_app o k v k' :
  own_lookup (o ++ [(k, v)]) k'
  = match own_lookup o k' with
    | Some x => Some x
    | None => if String.eqb k' k then Some v else None
    end.
Proof.
  induction o as [|[k0 v0] r IH]; simpl; [done|].
  by destruct (String.eqb k' k0).
Qed.

Lemma own_lookup_define o k v k' :
  own_lookup (define_own o k v) k'
  = if String.eqb k' k then Some v else own_lookup o k'.
Proof.
  unfold define_own. destruct (own_lookup o k) as [old|] eqn:Hold.
  - rewrite own_lookup_replace, Hold. rewrite (String.eqb_sym k' k).
    by destruct (String.eqb k k').
  - destruct (array_index k) as [i|] eqn:Hi.
    + by apply own_lookup_insert.
    + rewrite own_lookup_app.
      destruct (String.eqb_spec k' k) as [->|]; [by rewrite Hold|].
      by destruct (own_lookup o k').
Qed.

Lemma define_own_NoDup o k v : NoDup o.*1 → NoDup (define_own o k v).*1.
Proof.
  intros Hnd. unfold define_own. destruct (own_lookup o k) as [old|] eqn:Hold.
  - by rewrite replace_own_keys.
  - apply own_lookup_None in Hold.
    destruct (array_index k) as [i|].
    + rewrite insert_index_keys. by apply NoDup_cons.
    + rewrite fmap_app. csimpl. apply NoDup_app. split_and!; [done | |].
      * intros x Hx Hk. apply list_elem_of_singleton in Hk. by subst.
      * apply NoDup_singleton.
Qed.
End OrderedObjectProperties.

Section MonthProperties.

Lemma month_tally_nonneg l month : (0 ≤ month_tally l month)%Z.
Proof. apply Nat2Z.is_nonneg. Qed.

Lemma month_tally_snoc l e month :
  month_tally (l ++ [e]) month
  = month_tally l month
    + if truthy e.2 && String.eqb (month_of e.1) month then 1 else 0.
Proof.
  unfold month_tally. rewrite filter_app, length_app, Nat2Z.inj_add. f_equal.
  rewrite filter_cons, filter_nil.
  case_decide as Hd.
  - destruct Hd as [-> Hm]. apply String.eqb_eq in Hm. by rewrite Hm.
  - destruct (truthy e.2) eqn:Ht; [|done].
    destruct (String.eqb_spec (month_of e.1) month) as [Hm|Hm]; [|done].
    by destruct Hd.
Qed.

Lemma count_month_counted counts l key v :
  counted counts l → truthy v = true →
  counted (count_month counts (month_of key)) (l ++ [(key, v)]).
Proof.
  intros [Hnd Hcounts] Hv. unfold count_month.
  set (month := month_of key).
  assert (∀ other, other ≠ month →
            month_tally (l ++ [(key, v)]) other = month_tally l other) as Hother.
  { intros other Hne. rewrite month_tally_snoc. simpl. fold month.
    destruct (String.eqb_spec month other); [congruence|].
    rewrite andb_false_r. lia. }
  assert (month_tally (l ++ [(key, v)]) month = month_tally l month + 1) as Hthis.
  { rewrite month_tally_snoc. simpl. fold month.
    by rewrite Hv, String.eqb_refl. }
  pose proof (month_tally_nonneg l month) as Hpos.
  pose proof (Hcounts month) as Hmonth.
  destruct (String.eqb month "__proto__"
            && bool_decide (own_lookup counts month = None)) eqn:Hproto.
  - apply andb_true_iff in Hproto as [Hp _]. apply String.eqb_eq in Hp.
    split; [done|]. intros other. pose proof (Hcounts other) as Ho.
    destruct (ordinary_key other) eqn:Hord; [|done].
    rewrite Hother; [done|]. intros ->. by rewrite Hp in Hord.
  - split; [by apply define_own_NoDup|]. intros other.
    rewrite own_lookup_define. pose proof (Hcounts other) as Ho.
    destruct (String.eqb_spec other month) as [->|Hne].
    + destruct (ordinary_key month) eqn:Hord.
      * rewrite Hthis, Hmonth.
        destruct (Z.eqb_spec (month_tally l month) 0) as [->|Hnz].
        -- done.
        -- destruct (Z.eqb_spec (month_tally l month + 1) 0); [lia|].
           destruct (Z.eqb_spec (month_tally l month) 0); [lia|]. done.
      * right. by destruct Hmonth as [-> | ->].
    + destruct (ordinary_key other); [|done]. by rewrite Hother.
Qed.

Lemma counted_all l counts done :
  counted counts done →
  counted (foldl (fun counts entry =>
                    if truthy entry.2 then count_month counts (month_of entry.1)
                    else counts) counts l)
          (done ++ l).
Proof.
  revert counts done. induction l as [|[key v] l IH]; intros counts done Hc; simpl.
  - by rewrite app_nil_r.
  - replace (done ++ (key, v) :: l) with ((done ++ [(key, v)]) ++ l)
      by by rewrite <- app_assoc.
    apply IH. destruct (truthy v) eqn:Hv.
    + by apply count_month_counted.
    + destruct Hc as [Hnd Hcounts]. split; [done|]. intros month.
      pose proof (Hcounts month) as Hm.
      rewrite month_tally_snoc. simpl. rewrite Hv. simpl.
      by rewrite Z.add_0_r.
Qed.

Lemma max_month_from (counts : list (string * month_count))
    (best : option string * Z) :
  (best.1 = None ∧ best.2 = 0 ∨ (∃ m, best.1 = Some m) ∧ (0 < best.2)%Z) →
  let result := foldl better_month best counts in
  (best.2 ≤ result.2)%Z
  ∧ (∀ k n, (k, Count n) ∈ counts → (n ≤ result.2)%Z)
  ∧ (result = best
     ∨ ∃ m, result.1 = Some m ∧ (m, Count result.2) ∈ counts ∧ (0 < result.2)%Z).
Proof.
  revert best. induction counts as [|[k c] counts IH]; intros best Hbest; simpl.
  - split_and!; [lia | | by left]. intros k n Hin. by apply elem_of_nil in Hin.
  - set (next := better_month best (k, c)).
    assert ((best.2 ≤ next.2)%Z
            ∧ (∀ n, c = Count n → (n ≤ next.2)%Z)
            ∧ (next = best ∨ next.1 = Some k ∧ c = Count next.2 ∧ (0 < next.2)%Z)
            ∧ (next.1 = None ∧ next.2 = 0 ∨ (∃ m, next.1 = Some m) ∧ (0 < next.2)%Z))
      as (Hle & Hc & Hcase & Hnext).
    { subst next. unfold better_month. simpl.
      destruct c as [n|]; [|by split_and!; [lia | | left |]].
      destruct (Z.ltb_spec best.2 n) as [Hlt|Hge]; simpl.
      - split_and!; [lia | by intros ? [= ->] | right; split_and!; [done|done|] |].
        + destruct Hbest as [[_ ?]|[_ ?]]; lia.
        + right. split; [by eexists|]. destruct Hbest as [[_ ?]|[_ ?]]; lia.
      - split_and!; [lia | intros ? [= ->]; lia | by left | done]. }
    destruct (IH next Hnext) as (Hle' & Hall & Hres).
    split_and!.
    + lia.
    + intros k' n Hin. apply elem_of_cons in Hin as [[= -> <-]|Hin].
      * specialize (Hc n eq_refl). lia.
      * by apply (Hall k').
    + destruct Hres as [Hsame | (m & Hm & Hin & Hpos)].
      * rewrite Hsame. destruct Hcase as [-> | (Hk & Hcn & Hpos)]; [by left|].
        right. exists k. split_and!; [done | | done].
        rewrite Hcn. apply list_elem_of_here.
      * right. exists m. split_and!; [done | by apply list_elem_of_further | done].
Qed.

(** X18: [getMostActiveMonth] answers with a month that has the most
    completed readings. The month of a reading is the second piece of its
    identifier, cut at the hyphens. Among the months that
    [Object.prototype] has no property for, the month returned has at
    least one completed reading and no other month has more; [null] is
    returned only when no such month has a completed reading. (For a
    reading of the 90-day plan the piece is the index of its section, so
    [3] can be the most active month.) *)
Theorem most_active_month_has_most_readings (c : list (string * value)) :
  ∃ result,
    getMostActiveMonth (VObj c) = Some result
    ∧ (∀ month, result = Some month →
         ordinary_key month = true
         ∧ (0 < month_tally c month)%Z
         ∧ ∀ other, ordinary_key other = true →
                    (month_tally c other ≤ month_tally c month)%Z)
    ∧ (result = None →
       ∀ other, ordinary_key other = true → month_tally c other = 0).
Proof.
  unfold getMostActiveMonth. simpl. eexists. split; [reflexivity|].
  assert (counted [] []) as Hnil.
  { split; [constructor|]. intros month. by destruct (ordinary_key month); [|left]. }
  pose proof (counted_all c [] [] Hnil) as [Hnd Hcounts]. simpl in Hnd, Hcounts.
  set (counts := foldl _ [] c) in *.
  destruct (max_month_from counts (None, 0)) as (_ & Hall & Hres);
    [by left|].
  fold (max_month counts) in Hall, Hres.
  assert (∀ k n, (k, Count n) ∈ counts →
                 ordinary_key k = true ∧ n = month_tally c k ∧ n ≠ 0) as Hentry.
  { intros k n Hin. apply elem_own_lookup in Hin; [|done].
    pose proof (Hcounts k) as Hk. rewrite Hin in Hk.
    destruct (ordinary_key k); [|by destruct Hk].
    destruct (Z.eqb_spec (month_tally c k) 0); [done|].
    injection Hk as ->. done. }
  assert (∀ other, ordinary_key other = true →
                   (month_tally c other ≤ (max_month counts).2)%Z) as Hmax.
  { intros other Hord. pose proof (Hcounts other) as Ho. rewrite Hord in Ho.
    destruct (Z.eqb_spec (month_tally c other) 0) as [->|Hnz].
    - destruct Hres as [-> | (m & _ & _ & ?)]; simpl; lia.
    - apply own_lookup_elem in Ho. by apply (Hall other). }
  split.
  - intros month Hmonth.
    destruct Hres as [Hsame | (m & Hm & Hin & Hpos)].
    { rewrite Hsame in Hmonth. discriminate Hmonth. }
    rewrite Hm in Hmonth. injection Hmonth as ->.
    destruct (Hentry _ _ Hin) as (Hord & Htally & _).
    split_and!; [done | lia |]. intros other Ho. rewrite <- Htally. by apply Hmax.
  - intros Hnone other Hord.
    destruct Hres as [Hsame | (m & Hm & _)]; [|congruence].
    pose proof (Hmax other Hord) as Hle. rewrite Hsame in Hle. simpl in Hle.
    pose proof (month_tally_nonneg c other). lia.
Qed.
End MonthProperties.

(** ** The message on the page *)

Section NoticeProperties.

Lemma clearMessage_holds ui shown : ui_holds ui shown → ui_holds (clearMessage ui) [].
Proof.
  intros [_ Htimers]. split; [done|]. unfold clearMessage. simpl.
  destruct shown as [|m shown].
  - destruct (messageTimeout ui); simpl; by rewrite Htimers.
  - destruct Htimers as (id & Hp & ->). simpl. rewrite Hp.
    by rewrite filter_cons_False by (simpl; auto).
Qed.

Lemma showMessage_holds ui shown message type :
  ui_holds ui shown → ui_holds (showMessage ui message type) [(type, message)].
Proof.
  intros Hui. apply clearMessage_holds in Hui as [Hn Hp]. simpl in Hp.
  unfold showMessage, set_timeout. simpl. split; [done|].
  eexists. split; [|reflexivity]. simpl in Hp. by rewrite Hp.
Qed.

Lemma ui_step_holds ui shown e :
  ui_holds ui shown → ui_holds (ui_step ui e) (visible_after shown e).
Proof.
  intros Hui. destruct e as [message|message| |]; simpl.
  - by apply (showMessage_holds ui shown).
  - by apply (showMessage_holds ui shown).
  - destruct Hui as [Hn Hp]. destruct shown as [|m shown].
    + by rewrite Hp.
    + destruct Hp as (id & Hp & Ht). rewrite Hp. simpl.
      unfold message_expires, timer_callback. rewrite Hp. simpl.
      rewrite decide_True by done. simpl.
      split; [done|]. simpl. rewrite Ht, Hp. simpl.
      by rewrite !filter_cons_False by (simpl; auto).
  - by apply (clearMessage_holds ui shown).
Qed.

(** X19: the page shows one message of the planner at most, the
    last one, for five seconds. After any sequence of messages shown,
    timers that expire and calls of [destroy], the page holds no message
    or exactly the message shown last; with no message there is no timer
    pending, and with a message exactly one, of 5000 ms, the one set when
    that message was shown: a message is never removed by the timer of the
    message before it. *)
Theorem one_message_is_shown (events : list ui_event) :
  ui_holds (ui_run events) (foldl visible_after [] events).
Proof.
  unfold ui_run.
  assert (ui_holds UIManager_new []) as Hnew by done.
  revert Hnew. generalize UIManager_new. generalize (@nil (message_type * string)).
  induction events as [|e events IH]; intros shown ui Hui; simpl; [done|].
  apply IH. by apply ui_step_holds.
Qed.
End NoticeProperties.

(** ** Pages and links *)

Section PageProperties.

Lemma split_on_last sep s :
  ∃ before piece,
    last (split_on sep s) = Some piece
    ∧ s = before ++ piece
    ∧ (sep ∉ piece)
    ∧ (before = [] ∨ last before = Some sep)
    ∧ match before with
      | [] => split_on sep s = [piece]
      | _ :: _ => ∃ p p' ps, split_on sep s = p :: p' :: ps
      end.
Proof.
  induction s as [|c r (before & piece & Hlast & Hr & Hsep & Hbefore & Hshape)];
    simpl.
  - exists [], []. split_and!; [done | done | apply not_elem_of_nil | by left | done].
  - destruct (Ascii.eqb_spec c sep) as [->|Hne].
    + exists (sep :: before), piece.
      assert (∃ p ps, split_on sep r = p :: ps) as (p & ps & Hsplit).
      { destruct before; [by eexists _, _|].
        destruct Hshape as (p & p' & ps & ->). by eexists _, _. }
      rewrite Hsplit in *.
      split_and!; [done | by rewrite Hr | done | | by eexists _, _, _].
      right. destruct Hbefore as [->|Hb]; [done|]. by destruct before.
    + destruct before as [|b before].
      * rewrite Hshape. exists [], (c :: piece). simpl in Hr. subst r.
        split_and!; [done | done | | by left | done].
        rewrite not_elem_of_cons. split; [congruence | done].
      * destruct Hshape as (p & p' & ps & Hsplit). rewrite Hsplit in *.
        exists (c :: b :: before), piece.
        split_and!; [done | by rewrite Hr | done | | by eexists _, _, _].
        right. by destruct Hbefore as [|Hb].
Qed.

(** X20: the current page is the text of the path after its last
    slash, and [index.html] when there is no such text. [getCurrentPage]
    never answers with an empty name or a name with a slash, and
    [isHomePage] holds exactly when the path is empty, ends with a slash or
    ends with the piece [index.html]. *)
Theorem getCurrentPage_is_the_last_piece (pathname : string) :
  ∃ before piece,
    list_ascii_of_string pathname = before ++ piece
    ∧ ("/"%char ∉ piece)
    ∧ (before = [] ∨ last before = Some "/"%char)
    ∧ getCurrentPage pathname
      = (if bool_decide (piece = []) then "index.html"
         else string_of_list_ascii piece)
    ∧ getCurrentPage pathname ≠ ""
    ∧ (isHomePage pathname = true
       ↔ piece = [] ∨ piece = list_ascii_of_string "index.html").
Proof.
  destruct (split_on_last "/" (list_ascii_of_string pathname))
    as (before & piece & Hlast & Hpath & Hsep & Hbefore & _).
  exists before, piece.
  assert (getCurrentPage pathname
          = if bool_decide (piece = []) then "index.html"
            else string_of_list_ascii piece) as Hpage.
  { unfold getCurrentPage. rewrite Hlast. destruct piece as [|c piece]; [done|].
    rewrite bool_decide_eq_false_2 by done. done. }
  assert (getCurrentPage pathname ≠ "") as Hne.
  { rewrite Hpage. case_bool_decide; [done|]. by destruct piece. }
  split_and!; try done.
  unfold isHomePage. rewrite orb_true_iff, !String.eqb_eq. split.
  - intros [Hhome|Hempty]; [|done]. rewrite Hpage in Hhome.
    case_bool_decide; [by left|right].
    by rewrite <- Hhome, list_ascii_of_string_of_list_ascii.
  - intros [->| ->]; left; rewrite Hpage; [done|].
    done.
Qed.

(** X21: on the links it is asked about, [shouldPrefetch] only
    refuses the current page. For an address that starts with a slash or
    with [./], as all those of [prefetchCriticalResources] do, the answer
    is whether the address differs from the path of the page; the tests
    for external, fragment, mail and telephone links never apply. *)
Theorem shouldPrefetch_refuses_the_current_page (href pathname : string) :
  String.prefix "/" href = true ∨ String.prefix "./" href = true →
  shouldPrefetch href pathname = negb (String.eqb href pathname).
Proof.
  unfold shouldPrefetch. intros Hstart.
  destruct href as [|c href]; [by destruct Hstart|].
  assert (c = "/"%char ∨ c = "."%char) as Hc.
  { destruct Hstart as [H|H]; apply String.prefix_correct in H;
      cbn [String.length substring] in H.
    - left. by injection H.
    - right. destruct href; by injection H. }
  destruct Hc as [-> | ->]; reflexivity.
Qed.
End PageProperties.

(** X21 on a link of the site, seen from the home page. *)
Lemma shouldPrefetch_refuses_the_current_page_witness :
  String.prefix "/" "/events.html" = true
  ∧ shouldPrefetch "/events.html" "/index.html" = true
  ∧ shouldPrefetch "/index.html" "/index.html" = false.
Proof.
  split_and!; [reflexivity | |].
  - apply (shouldPrefetch_refuses_the_current_page "/events.html" "/index.html").
    by left.
  - apply (shouldPrefetch_refuses_the_current_page "/index.html" "/index.html").
    by left.
Defined.

(** ** The messages of a toggle *)

Section ToggleMessageProperties.
Context `{Js : !JSON, Ws : !WindowStorage, Lc : !Locale}.



Lemma completed_count_set c id b :
  ordinary_key id = true →
  completed_count (obj_set c id (VBool b))
  = (completed_count c - (if reading_completed c id then 1 else 0)
     + (if b then 1 else 0))%Z.
Proof.
  intros Hord. unfold reading_completed, props_read, completed_count.
  assert (proto_get ProtoObject id = Val VUndefined) as ->.
  { unfold ordinary_key in Hord. apply andb_true_iff in Hord as [Hp Hn].
    apply negb_true_iff in Hp. apply bool_decide_eq_true in Hn.
    unfold proto_get, Object_prototype_get. rewrite Hp.
    by rewrite bool_decide_eq_false_2 by done. }
  induction c as [|[k v] c IH]; simpl.
  - rewrite filter_cons, filter_nil. simpl. by destruct b.
  - destruct (String.eqb_spec id k) as [->|Hne]; simpl.
    + rewrite !filter_cons. simpl.
      destruct b, (truthy v) eqn:Hv; simpl;
        rewrite ?decide_True by done; rewrite ?decide_False by done;
        simpl; lia.
    + rewrite !filter_cons. simpl.
      destruct (decide (truthy v = true)); simpl; rewrite ?Nat2Z.inj_succ; lia.
Qed.

(** X23: a toggle moves the progress by one reading. With an object
    as completion map and an identifier that [Object.prototype] has no
    property for, the progress that [updateProgress] prints after
    [toggleReading] counts one completed reading more when the reading was
    not complete, one less when it was, out of the same total. *)
Theorem toggleReading_moves_the_count (w : Window) (p : Planner)
    (o c : list (string * value)) (id : string) :
  state p = VObj o →
  obj_get o "completedReadings" = Some (VObj c) →
  ordinary_key id = true →
  is_Some (chronologicalPlan p) →
  ∃ before after,
    updateProgress p = Some before
    ∧ updateProgress (toggleReading w p id).2 = Some after
    ∧ readingsCompleted before = completed_count c
    ∧ readingsCompleted after
      = (readingsCompleted before
         + (if reading_completed c id then -1 else 1))%Z
    ∧ totalReadings after = totalReadings before.
Proof.
  intros Hst Hc Hord [plan Hplan].
  assert (id ≠ "__proto__") as Hid.
  { intros ->. discriminate Hord. }
  assert (props_read o "completedReadings" = Val (VObj c)) as Hr
    by (unfold props_read; by rewrite Hc).
  assert (toggled_field p "completedReadings" id
          = Some (VObj (obj_set c id (VBool (negb (reading_completed c id))))))
    as Ht.
  { unfold toggled_field, reading_completed. rewrite Hst, Hr. simpl own_props.
    unfold props_write. by destruct (String.eqb_spec id "__proto__"). }
  assert (∃ o', state (toggleReading w p id).2 = VObj o'
                ∧ props_read o' "completedReadings"
                  = Val (VObj (obj_set c id
                                 (VBool (negb (reading_completed c id)))))
                ∧ chronologicalPlan (toggleReading w p id).2 = Some plan)
    as (o' & Ho' & Hc' & Hplan').
  { unfold toggleReading. rewrite Ht.
    match goal with
    | |- context [setState w p ?x] =>
        destruct (setState_fields w p x) as (_ & Hs & _ & Hcontent)
    end.
    rewrite Hs, Hst. unfold spread, obj_assign. simpl.
    eexists. split_and!; [reflexivity | |].
    - unfold props_read. by rewrite obj_get_set_eq.
    - exact Hplan. }
  unfold updateProgress, getTotalReadings.
  rewrite Hst, Ho', Hplan, Hplan', Hr, Hc', !getProgressInsights_eq.
  eexists _, _. split_and!; [reflexivity | reflexivity | reflexivity | | reflexivity].
  simpl. rewrite completed_count_set by done.
  destruct (reading_completed c id); simpl; lia.
Qed.
End ToggleMessageProperties.


(** X23 on the planner with six readings: the seventh. *)
Lemma toggleReading_moves_the_count_witness :
  ordinary_key "chrono-meskerem-1" = true
  ∧ ∃ before after,
      @updateProgress ordinal_locale six_completed = Some before
      ∧ @updateProgress ordinal_locale
          (toggleReading fresh_window six_completed "chrono-meskerem-1").2
        = Some after
      ∧ readingsCompleted before = 6
      ∧ readingsCompleted after = 7.
Proof.
  split; [reflexivity|].
  destruct (toggleReading_moves_the_count (Lc := ordinal_locale) fresh_window
              six_completed [("completedReadings", VObj (completed_map 6))]
              (completed_map 6) "chrono-meskerem-1" eq_refl eq_refl eq_refl)
    as (before & after & Hb & Ha & Hcb & Hca & _).
  { by eexists. }
  exists before, after. split_and!; [exact Hb | exact Ha | by rewrite Hcb |].
  rewrite Hca, Hcb. reflexivity.
Defined.
